(** * worker/utils: progress hook, retrying stream fetcher, capacity probe

    A shallow embedding of [src/workers/worker/utils/__init__.py].

    - Python integers are [Z]; byte strings are [list byte]; text is
      [string].
    - Python floats are IEEE-754 binary64 values, modelled bit-exactly by
      the Standard Library's [SpecFloat] ([prec = 53], [emax = 1024]).
    - An operation that may raise returns an [outcome]; state (the hook
      object, standard output, open file objects) is threaded explicitly.
    - What the libraries and the system do (the transport and its
      adapters, the file system, standard output, the text of foreign
      exceptions) is a parameter, [env]; the session's choice of an
      adapter, [int], [float] and the text methods are modelled. *)

From Stdlib Require Import ZArith List String Ascii Bool Lia.
From Stdlib Require Import Strings.Byte.
From Stdlib Require Import DecimalString.
From Stdlib Require Import Floats.SpecFloat.
Import ListNotations.

Local Open Scope string_scope.
Local Open Scope Z_scope.

(* ===================================================================== *)
(** ** Exceptions and outcomes *)
(* ===================================================================== *)

(** The exception classes this module's operations raise.  All of them
    derive from Python's [Exception], so an [except Exception] clause
    catches every value of this type. *)
Inductive exn : Type :=
| AssertionError (msg : string)
| ZeroDivisionError
| OverflowError
| ValueError
| TypeError
| IndexError
| AttributeError
| FileNotFoundError
| OSError (errno : Z)
| UnicodeDecodeError
| UnicodeEncodeError
| HTTPError (status : Z)
| RequestException (msg : string).

Inductive outcome (A : Type) : Type :=
| Return (a : A)
| Raise (e : exn).

Arguments Return {A} a.
Arguments Raise {A} e.

Definition raises {A} (o : outcome A) : Prop := exists e, o = Raise e.
Definition returns {A} (o : outcome A) : Prop := exists a, o = Return a.

(** Sequencing of fallible pure steps. *)
Definition obind {A B} (o : outcome A) (k : A -> outcome B) : outcome B :=
  match o with
  | Return a => k a
  | Raise e => Raise e
  end.

(** A stateful, fallible computation: the state survives a raise. *)
Definition M (St A : Type) : Type := St -> outcome A * St.

Definition ret {St A} (a : A) : M St A := fun s => (Return a, s).
Definition throw {St A} (e : exn) : M St A := fun s => (Raise e, s).
Definition bind {St A B} (m : M St A) (k : A -> M St B) : M St B :=
  fun s => match m s with
           | (Return a, s') => k a s'
           | (Raise e, s') => (Raise e, s')
           end.
Definition lift {St A} (o : outcome A) : M St A := fun s => (o, s).

Declare Scope py_scope.
Delimit Scope py_scope with py.
Notation "x <- m ;; k" := (bind m (fun x => k))
  (at level 61, m at next level, right associativity) : py_scope.
Notation "m ;;; k" := (bind m (fun _ => k))
  (at level 61, right associativity) : py_scope.

(* ===================================================================== *)
(** ** Python text helpers *)
(* ===================================================================== *)

(** [s * n] for a one-character string [s]: empty when [n <= 0]. *)
Fixpoint replicate (n : nat) (c : ascii) : string :=
  match n with
  | O => EmptyString
  | S n' => String c (replicate n' c)
  end.

Definition str_mul (c : ascii) (n : Z) : string := replicate (Z.to_nat n) c.

(** [str(n)] / ["{}".format(n)] for an integer. *)
Definition str_of_Z (n : Z) : string := NilZero.string_of_int (Z.to_int n).

(** The last character of a text, if any. *)
Fixpoint last_char (s : string) : option ascii :=
  match s with
  | EmptyString => None
  | String c EmptyString => Some c
  | String _ s' => last_char s'
  end.

Definition CR : string := String (ascii_of_nat 13) EmptyString.
Definition LF : string := String (ascii_of_nat 10) EmptyString.

(** [Some rest] when [s] is [p] followed by [rest]. *)
Fixpoint starts_with (p s : string) : option string :=
  match p, s with
  | EmptyString, _ => Some s
  | String a p', String b s' =>
      if Ascii.eqb a b then starts_with p' s' else None
  | String _ _, EmptyString => None
  end.

(** [str.lower] on one-byte text: the letters A-Z and, in the upper
    half, the capitals from U+00C0 to U+00DE without the multiplication
    sign. *)
Definition lower_char (c : ascii) : ascii :=
  let n := nat_of_ascii c in
  if ((65 <=? n)%nat && (n <=? 90)%nat)
     || ((192 <=? n)%nat && (n <=? 222)%nat && negb (n =? 215)%nat)
  then ascii_of_nat (n + 32)
  else c.

Fixpoint lower (s : string) : string :=
  match s with
  | EmptyString => EmptyString
  | String c s' => String (lower_char c) (lower s')
  end.

(* ===================================================================== *)
(** ** Python floats (binary64) *)
(* ===================================================================== *)

Module PyFloat.

Definition prec : Z := 53.
Definition emax : Z := 1024.

Definition float := spec_float.

(** [float(n)] and the implicit conversion of an [int] operand: the
    nearest double, ties to even; [OverflowError] beyond the range. *)
Definition of_int (n : Z) : outcome float :=
  match binary_normalize prec emax n 0 false with
  | S754_infinity _ => Raise OverflowError
  | f => Return f
  end.

Definition is_zero (f : float) : bool :=
  match f with S754_zero _ => true | _ => false end.

(** [x / n] for a float [x] and an int [n]. *)
Definition truediv_int (x : float) (n : Z) : outcome float :=
  obind (of_int n) (fun y =>
    if is_zero y then Raise ZeroDivisionError
    else Return (SFdiv prec emax x y)).

(** [x * n] for a float [x] and an int [n]. *)
Definition mul_int (x : float) (n : Z) : outcome float :=
  obind (of_int n) (fun y => Return (SFmul prec emax x y)).

(** [min(a, b)]: the builtin keeps [a] unless [b < a]. *)
Definition min (a b : float) : float :=
  if SFltb b a then b else a.

Definition one : float := S754_finite false 4503599627370496 (-52).

(** [int(x)]: truncation toward zero. *)
Definition to_int (x : float) : outcome Z :=
  match x with
  | S754_zero _ => Return 0
  | S754_finite s m e =>
      let a := match e with
               | Zneg p => Z.pos m / 2 ^ Z.pos p
               | _ => Z.pos m * 2 ^ e
               end in
      Return (if s then - a else a)
  | S754_infinity _ => Raise OverflowError
  | S754_nan => Raise ValueError
  end.

(** The mathematical floor of a finite float, for comparison. *)
Definition floor (x : float) : option Z :=
  match x with
  | S754_zero _ => Some 0
  | S754_finite s m e =>
      Some (match e with
            | Zneg p => (if s then Z.neg m else Z.pos m) / 2 ^ Z.pos p
            | _ => (if s then Z.neg m else Z.pos m) * 2 ^ e
            end)
  | _ => None
  end.

End PyFloat.

(* ===================================================================== *)
(** ** ReportHook *)
(* ===================================================================== *)

(** The first argument of [reporthook]: the integer [0] at construction,
    a bytes object when called from [stream]. *)
Inductive chunk_arg : Type :=
| ChunkInt (n : Z)
| ChunkBytes (data : list byte).

(** [chunk != 0]: a bytes object never equals an int. *)
Definition chunk_ne_0 (chunk : chunk_arg) : bool :=
  match chunk with
  | ChunkInt n => negb (n =? 0)
  | ChunkBytes _ => true
  end.

Record ReportHook : Type := mkReportHook {
  _current_size : Z;
  width : Z;
  _last_line : option string
}.

(** What a hook can touch: its own attributes and standard output, the
    latter recorded as the texts handed to [print], oldest first. *)
Record hook_state : Type := mkHookState {
  hook : ReportHook;
  stdout : list string
}.

Definition line_ne (line : string) (last : option string) : bool :=
  match last with
  | None => true
  | Some l => negb (String.eqb line l)
  end.

(** Lines 50-55: the partially filled bar. *)
Definition partial_line (current_size avail_dots total_size : Z)
  : outcome string :=
  obind (PyFloat.of_int current_size) (fun fc =>
  obind (PyFloat.truediv_int fc total_size) (fun q =>
  let ratio := PyFloat.min q PyFloat.one in
  obind (PyFloat.mul_int ratio avail_dots) (fun fd =>
  obind (PyFloat.to_int fd) (fun d =>
  let shaded_dots := Z.min d avail_dots in
  obind (PyFloat.mul_int ratio 100) (fun fp =>
  obind (PyFloat.to_int fp) (fun p =>
  let percent := Z.min p 100 in
  Return ("[" ++ str_mul "." shaded_dots
              ++ str_mul " " (avail_dots - shaded_dots)
              ++ "] " ++ str_of_Z percent ++ "%" ++ CR))))))).

(** Lines 44-55: the line for a given cumulative size. *)
Definition compute_line (current_size width total_size : Z)
  : outcome string :=
  let avail_dots := width - 2 in
  if total_size =? -1 then Return "unknown size"
  else if current_size >=? total_size then
    Return ("[" ++ str_mul "." avail_dots ++ "] 100%" ++ LF)
  else partial_line current_size avail_dots total_size.

(** Lines 41-42. *)
Definition add_chunk (h : ReportHook) (chunk : chunk_arg) (chunk_size : Z)
  : ReportHook :=
  if chunk_ne_0 chunk
  then mkReportHook (_current_size h + chunk_size) (width h) (_last_line h)
  else h.

(** Lines 40-59, on a standard output that takes every line. *)
Definition reporthook (chunk : chunk_arg) (chunk_size total_size : Z)
  : M hook_state unit :=
  fun st =>
    let h := add_chunk (hook st) chunk chunk_size in
    match compute_line (_current_size h) (width h) total_size with
    | Raise e => (Raise e, mkHookState h (stdout st))
    | Return line =>
        if line_ne line (_last_line h)
        then (Return tt,
              mkHookState
                (mkReportHook (_current_size h) (width h) (Some line))
                (stdout st ++ [line])%list)
        else (Return tt, mkHookState h (stdout st))
    end.

(** [ReportHook()]: lines 31-35, running on the given standard output. *)
Definition ReportHook_init (out : list string) : outcome unit * hook_state :=
  reporthook (ChunkInt 0) 0 100
    (mkHookState (mkReportHook 0 60 None) out).

(** Lines 40-59 when [print] may raise: [perr out line] is what
    printing [line] raises, if anything, on a standard output that has
    taken [out] so far.  The line is remembered (line 58) before it is
    printed (line 59), so it stays remembered when [print] fails. *)
Definition reporthook_io (perr : list string -> string -> option exn)
           (chunk : chunk_arg) (chunk_size total_size : Z)
  : M hook_state unit :=
  fun st =>
    let h := add_chunk (hook st) chunk chunk_size in
    match compute_line (_current_size h) (width h) total_size with
    | Raise e => (Raise e, mkHookState h (stdout st))
    | Return line =>
        if line_ne line (_last_line h)
        then
          let h' := mkReportHook (_current_size h) (width h) (Some line) in
          match perr (stdout st) line with
          | Some ex => (Raise ex, mkHookState h' (stdout st))
          | None => (Return tt, mkHookState h' (stdout st ++ [line])%list)
          end
        else (Return tt, mkHookState h (stdout st))
    end.

(** [ReportHook()] when [print] may raise. *)
Definition ReportHook_init_io (perr : list string -> string -> option exn)
           (out : list string) : outcome unit * hook_state :=
  reporthook_io perr (ChunkInt 0) 0 100
    (mkHookState (mkReportHook 0 60 None) out).


(* ===================================================================== *)
(** ** Parsing integers from text: [int(s)] *)
(* ===================================================================== *)

Definition is_digit (c : ascii) : bool :=
  let n := nat_of_ascii c in (48 <=? n)%nat && (n <=? 57)%nat.

Definition digit_val (c : ascii) : Z := Z.of_nat (nat_of_ascii c) - 48.

(** The whitespace [int] strips from both ends of a text: tab to
    carriage return and the space, and, of the upper half of one-byte
    text, U+0085 and U+00A0, which [int] turns into spaces before it
    parses.  The separators U+001C to U+001F are not stripped. *)
Definition is_space (c : ascii) : bool :=
  let n := nat_of_ascii c in
  ((9 <=? n)%nat && (n <=? 13)%nat) || (n =? 32)%nat
  || (n =? 133)%nat || (n =? 160)%nat.

Fixpoint lstrip (s : string) : string :=
  match s with
  | String c s' => if is_space c then lstrip s' else s
  | EmptyString => EmptyString
  end.

Fixpoint rstrip (s : string) : string :=
  match s with
  | EmptyString => EmptyString
  | String c s' =>
      match rstrip s' with
      | EmptyString => if is_space c then EmptyString
                       else String c EmptyString
      | r => String c r
      end
  end.

(** Digits with single underscores between them, read left to right.
    [prev_digit] tells whether the previous character was a digit. *)
Fixpoint int_digits (s : string) (acc : Z) (prev_digit : bool) : option Z :=
  match s with
  | EmptyString => if prev_digit then Some acc else None
  | String c s' =>
      if is_digit c then int_digits s' (10 * acc + digit_val c) true
      else if Ascii.eqb c "_" then
        if prev_digit then int_digits s' acc false else None
      else None
  end.

(** Whether a text consists of decimal digits only. *)
Fixpoint all_digits (s : string) : bool :=
  match s with
  | EmptyString => true
  | String c s' => is_digit c && all_digits s'
  end.

(** The number of digits of a text, underscores and the like not
    counted. *)
Fixpoint count_digits (s : string) : Z :=
  match s with
  | EmptyString => 0
  | String c s' => (if is_digit c then 1 else 0) + count_digits s'
  end.

(** CPython's default limit on the digits [int] converts
    ([sys.get_int_max_str_digits()]). *)
Definition int_max_str_digits : Z := 4300.

(** [int(s)] for a text [s], base 10: a well-formed number with more
    digits than the limit is refused like a malformed one. *)
Definition py_int (s : string) : outcome Z :=
  let body := rstrip (lstrip s) in
  let '(neg, ds) :=
    match body with
    | String c r =>
        if Ascii.eqb c "-" then (true, r)
        else if Ascii.eqb c "+" then (false, r)
        else (false, body)
    | EmptyString => (false, body)
    end in
  match int_digits ds 0 false with
  | Some n =>
      if int_max_str_digits <? count_digits ds then Raise ValueError
      else Return (if neg then - n else n)
  | None => Raise ValueError
  end.

(* ===================================================================== *)
(** ** The retry policy and the session *)
(* ===================================================================== *)

Definition ONE_KiB : Z := 2 ^ 10.
Definition ONE_MiB : Z := 2 ^ 20.
Definition FAILURE_RETRIES : Z := 6.

(** A keyword argument that takes either a bool or an int. *)
Inductive bool_or_int : Type :=
| PyBool (b : bool)
| PyInt (n : Z).

(** The keyword arguments of urllib3's [Retry]; [None] is a budget
    that was not given. *)
Module Retry.
Record t : Type := Build {
  total : option bool_or_int;
  connect : option bool_or_int;
  read : option bool_or_int;
  status : option bool_or_int;
  redirect : option bool_or_int;
  backoff_factor : Z;
  status_forcelist : list Z
}.
End Retry.

Record HTTPAdapter : Type := mkHTTPAdapter { max_retries : Retry.t }.

(** [HTTPAdapter()]: without [max_retries] the adapter is given
    [Retry(0, read=False)], which retries nothing. *)
Definition default_retries : Retry.t :=
  Retry.Build (Some (PyInt 0)) None (Some (PyBool false)) None None 0 [].

Definition default_adapter : HTTPAdapter := mkHTTPAdapter default_retries.

(** The adapters of a [requests.Session], in the order the session
    keeps them: it is the order in which [get_adapter] tries them. *)
Definition Session : Type := list (string * HTTPAdapter).

Definition shorter_than (prefix : string) (kv : string * HTTPAdapter) : bool :=
  (String.length (fst kv) <? String.length prefix)%nat.

(** [Session.mount]: the adapter is stored under its prefix (in place
    when the prefix is known, at the end otherwise), then every adapter
    with a shorter prefix is moved behind, so that longer prefixes are
    tried first. *)
Definition mount (session : Session) (prefix : string) (a : HTTPAdapter)
  : Session :=
  let stored :=
    if existsb (fun kv => String.eqb (fst kv) prefix) session
    then map (fun kv => if String.eqb (fst kv) prefix then (prefix, a)
                        else kv) session
    else (session ++ [(prefix, a)])%list in
  (filter (fun kv => negb (shorter_than prefix kv)) stored
     ++ filter (shorter_than prefix) stored)%list.

(** [requests.Session()]: two default adapters. *)
Definition new_session : Session :=
  mount (mount [] "https://" default_adapter) "http://" default_adapter.

(** [Session.get_adapter]: the first adapter whose prefix starts the
    URL, both in lower case. *)
Definition get_adapter (session : Session) (url : string)
  : option HTTPAdapter :=
  match find (fun kv => match starts_with (lower (fst kv)) (lower url) with
                        | Some _ => true
                        | None => false
                        end) session with
  | Some kv => Some (snd kv)
  | None => None
  end.

(** A streamed response: its status, its content-length header if any,
    and what iterating the body in blocks of a given size yields: the
    chunks, then possibly a transport error instead of the end. *)
Record Response : Type := mkResponse {
  status_code : Z;
  content_length : option string;
  iter_content : Z -> list (list byte) * option exn
}.

(** [Response.raise_for_status]: 4xx and 5xx raise. *)
Definition raise_for_status (r : Response) : outcome unit :=
  if (400 <=? status_code r) && (status_code r <? 600)
  then Raise (HTTPError (status_code r))
  else Return tt.

(* ===================================================================== *)
(** ** Files and in-memory buffers *)
(* ===================================================================== *)

(** A file object opened by this module. *)
Record file_object : Type := mkFile {
  f_path : string;
  f_closed : bool;
  f_written : list byte
}.

(** [io.BytesIO]: its content and its cursor. *)
Record BytesIO : Type := mkBytesIO {
  getvalue : list byte;
  tell : Z
}.

(** [BytesIO.write]: overwrite at the cursor, growing as needed. *)
Definition BytesIO_write (b : BytesIO) (data : list byte) : BytesIO :=
  let p := Z.to_nat (tell b) in
  let old := getvalue b in
  let head := (firstn p old ++ repeat x00 (p - List.length old)%nat)%list in
  mkBytesIO (head ++ data ++ skipn (p + List.length data)%nat old)%list
            (tell b + Z.of_nat (List.length data)).

Definition BytesIO_seek (b : BytesIO) (p : Z) : BytesIO :=
  mkBytesIO (getvalue b) p.

(** [BytesIO.read()]: everything from the cursor on. *)
Definition BytesIO_read (b : BytesIO) : list byte :=
  skipn (Z.to_nat (tell b)) (getvalue b).

(** What the local variable [fd] of [stream] refers to. *)
Inductive fd_obj : Type :=
| FdFile (idx : nat)
| FdBytesIO (b : BytesIO).

(** The outside world as this module sees it: the URL a request is
    prepared with (or what the library raises for a URL it cannot
    parse), what sending a GET request for a prepared URL through an
    adapter (under its retry policy) gives, what the session raises for
    a URL no adapter serves, whether a path opens for writing, whether
    writing data to a file object or closing it (which flushes what was
    buffered) fails, whether [print] of a text fails on a standard
    output that has taken the given texts, and the text [str] gives for
    an exception raised by a library. *)
Record env : Type := mkEnv {
  prepare_url : string -> outcome string;
  send : HTTPAdapter -> string -> outcome Response;
  no_adapter : string -> exn;
  open_error : string -> option exn;
  write_error : file_object -> list byte -> option exn;
  close_error : file_object -> option exn;
  print_error : list string -> string -> option exn;
  exn_text : exn -> string
}.

(** [session.get(url, stream=True)]: the request is prepared, and goes
    through the adapter the session selects for the prepared URL. *)
Definition session_get (e : env) (session : Session) (url : string)
  : outcome Response :=
  obind (prepare_url e url) (fun prepared =>
  match get_adapter session prepared with
  | Some a => send e a prepared
  | None => Raise (no_adapter e prepared)
  end).

(** State threaded through [stream]: the callback's own state and the
    file objects opened so far, oldest first. *)
Record io_state (S : Type) : Type := mkIO {
  cb_state : S;
  files : list file_object
}.

Arguments mkIO {S} cb_state files.
Arguments cb_state {S} i.
Arguments files {S} i.

(* ===================================================================== *)
(** ** stream *)
(* ===================================================================== *)

(** Truthiness of an optional path: [None] and [""] are false. *)
Definition truthy (write_to : option string) : bool :=
  match write_to with
  | Some p => negb (String.eqb p "")
  | None => false
  end.

(** The second component of [stream]'s result. *)
Inductive dest : Type :=
| DestPath (p : string)
| DestFd (fd : fd_obj).

Definition size_mismatch_msg (total_downloaded total_size : Z) : string :=
  "Downloaded size is different than expected ("
    ++ str_of_Z total_downloaded ++ " vs " ++ str_of_Z total_size ++ ")".

(** Lines 71-79. *)
Definition stream_retries : Retry.t :=
  Retry.Build
    (Some (PyInt FAILURE_RETRIES))   (* total *)
    (Some (PyInt FAILURE_RETRIES))   (* connect *)
    (Some (PyInt FAILURE_RETRIES))   (* read *)
    (Some (PyInt 2))                 (* status *)
    (Some (PyBool false))            (* redirect *)
    30                               (* backoff_factor *)
    [413; 429; 500; 502; 503; 504].

(** Lines 69-80: the session [stream] sends its request through. *)
Definition stream_session : Session :=
  let session : Session := new_session in
  let retries := stream_retries in
  let retry_adapter := mkHTTPAdapter retries in
  mount session "http" retry_adapter.

Section Stream.

Context {S : Type}.

(** A progress callback acts on its own state and may raise. *)
Definition callback_t : Type := chunk_arg -> Z -> Z -> M S unit.

Variable e : env.

Local Open Scope py_scope.

(** [open(path, "wb")]; the empty path never opens. *)
Definition open_wb (path : string) : M (io_state S) fd_obj :=
  fun st =>
    if String.eqb path "" then (Raise FileNotFoundError, st)
    else match open_error e path with
         | Some ex => (Raise ex, st)
         | None =>
             (Return (FdFile (List.length (files st))),
              mkIO (cb_state st)
                   (files st ++ [mkFile path false []])%list)
         end.

Definition set_file (idx : nat) (f : file_object) (st : io_state S)
  : io_state S :=
  mkIO (cb_state st)
       (firstn idx (files st) ++ f :: skipn (Datatypes.S idx) (files st))%list.

(** [fd.write(data)] *)
Definition fd_write (fd : fd_obj) (data : list byte)
  : M (io_state S) fd_obj :=
  fun st =>
    match fd with
    | FdBytesIO b => (Return (FdBytesIO (BytesIO_write b data)), st)
    | FdFile idx =>
        match nth_error (files st) idx with
        | None => (Raise ValueError, st)
        | Some f =>
            if f_closed f then (Raise ValueError, st)
            else match write_error e f data with
                 | Some ex => (Raise ex, st)
                 | None =>
                     (Return fd,
                      set_file idx
                        (mkFile (f_path f) false
                                (f_written f ++ data)%list) st)
                 end
        end
    end.

(** [fd.close()]: closing an open file object flushes what is
    buffered, which may fail; the handle is closed either way.  Closing
    a closed one does nothing. *)
Definition fd_close (fd : fd_obj) : M (io_state S) fd_obj :=
  fun st =>
    match fd with
    | FdBytesIO b => (Return fd, st)
    | FdFile idx =>
        match nth_error (files st) idx with
        | None => (Return fd, st)
        | Some f =>
            if f_closed f then (Return fd, st)
            else
              let st' :=
                set_file idx (mkFile (f_path f) true (f_written f)) st in
              match close_error e f with
              | Some ex => (Raise ex, st')
              | None => (Return fd, st')
              end
        end
    end.

(** [fd.seek(0)] *)
Definition fd_seek0 (fd : fd_obj) : M (io_state S) fd_obj :=
  fun st =>
    match fd with
    | FdBytesIO b => (Return (FdBytesIO (BytesIO_seek b 0)), st)
    | FdFile idx =>
        match nth_error (files st) idx with
        | Some f => if f_closed f then (Raise ValueError, st)
                    else (Return fd, st)
        | None => (Raise ValueError, st)
        end
    end.

(** [callback(data, block_size, total_size)]; the default callback is
    [None], and calling it is a [TypeError]. *)
Definition call (callback : option callback_t)
           (data : list byte) (block_size total_size : Z)
  : M (io_state S) unit :=
  fun st =>
    match callback with
    | None => (Raise TypeError, st)
    | Some cb =>
        let '(r, s') := cb (ChunkBytes data) block_size total_size
                           (cb_state st) in
        (r, mkIO s' (files st))
    end.

Definition len (data : list byte) : Z := Z.of_nat (List.length data).

(** Lines 92-96: the body of the [for] loop over the chunks. *)
Fixpoint stream_loop (write_to : option string)
         (callback : option callback_t) (block_size total_size : Z)
         (chunks : list (list byte)) (fd : fd_obj) (total_downloaded : Z)
  : M (io_state S) (fd_obj * Z) :=
  match chunks with
  | [] => ret (fd, total_downloaded)
  | data :: rest =>
      call callback data block_size total_size ;;;
      let total_downloaded := total_downloaded + len data in
      fd <- (if truthy write_to then fd_write fd data else ret fd) ;;
      stream_loop write_to callback block_size total_size
                  rest fd total_downloaded
  end.

(** Lines 69-101: fetch, stream the body, then close the file or
    rewind the buffer.  Yields [total_size], [total_downloaded] and
    [fd]. *)
Definition stream_transfer (url : string) (write_to : option string)
           (callback : option callback_t) (block_size : Z)
  : M (io_state S) (Z * Z * fd_obj) :=
  req <- lift (session_get e stream_session url) ;;
  lift (raise_for_status req) ;;;
  total_size <- lift (match content_length req with
                      | Some v => py_int v
                      | None => Return 0
                      end) ;;
  let total_downloaded := 0 in
  fd <- match write_to with
        | Some p => open_wb p
        | None => ret (FdBytesIO (mkBytesIO [] 0))
        end ;;
  r <- stream_loop write_to callback block_size total_size
                   (fst (iter_content req block_size)) fd
                   total_downloaded ;;
  lift (match snd (iter_content req block_size) with
        | Some ex => Raise ex
        | None => Return tt
        end) ;;;
  let '(fd, total_downloaded) := r in
  fd <- (if truthy write_to then fd_close fd else fd_seek0 fd) ;;
  ret (total_size, total_downloaded, fd).

(** Lines 103-110: the size check and the result. *)
Definition stream_validate (write_to : option string)
           (total_size total_downloaded : Z) (fd : fd_obj)
  : M (io_state S) (Z * dest) :=
  if negb (total_size =? 0) && negb (total_downloaded =? total_size)
  then throw (AssertionError
                (size_mismatch_msg total_downloaded total_size))
  else ret (total_downloaded,
            match write_to with
            | Some p => if truthy write_to then DestPath p else DestFd fd
            | None => DestFd fd
            end).

(** Lines 62-110. *)
Definition stream (url : string) (write_to : option string)
           (callback : option callback_t) (block_size : Z)
  : M (io_state S) (Z * dest) :=
  r <- stream_transfer url write_to callback block_size ;;
  let '(total_size, total_downloaded, fd) := r in
  stream_validate write_to total_size total_downloaded fd.

End Stream.

(* ===================================================================== *)
(** ** download_file *)
(* ===================================================================== *)

(** What [download_file] can touch: standard output and the file objects
    opened so far. *)
Record world : Type := mkWorld {
  w_stdout : list string;
  w_files : list file_object
}.

(** [str(exp)], as [print(exp)] shows it: the message for the
    [AssertionError] this module raises itself, and what the library that
    raised it makes of any other exception. *)
Definition str_of_exn (e : env) (ex : exn) : string :=
  match ex with
  | AssertionError msg => msg
  | _ => exn_text e ex
  end.

(** The second component of [download_file]'s result. *)
Inductive size_or_error : Type :=
| Size (n : Z)
| Error (exp : exn).

(** The default [block_size] of [stream]. *)
Definition default_block_size : Z := 1024.

(** Lines 113-123.  The hook is built before the [try], so what its
    first [print] raises leaves the function; everything [stream] raises
    is caught by [except Exception] and printed, and what that [print]
    raises leaves the function too. *)
Definition download_file (e : env) (url fpath : string)
  : M world (bool * size_or_error) :=
  fun w =>
    match ReportHook_init_io (print_error e) (w_stdout w) with
    | (Raise ex, hs) => (Raise ex, mkWorld (stdout hs) (w_files w))
    | (Return _, hs) =>
        let hook : callback_t := reporthook_io (print_error e) in
        match stream e url (Some fpath) (Some hook) default_block_size
                     (mkIO hs (w_files w)) with
        | (Return (size, path), st) =>
            (Return (true, Size size),
             mkWorld (stdout (cb_state st)) (files st))
        | (Raise exp, st) =>
            match print_error e (stdout (cb_state st)) (str_of_exn e exp) with
            | Some ex =>
                (Raise ex, mkWorld (stdout (cb_state st)) (files st))
            | None =>
                (Return (false, Error exp),
                 mkWorld (stdout (cb_state st) ++ [str_of_exn e exp])%list
                         (files st))
            end
        end
    end.

(* ===================================================================== *)
(** ** get_sdcard_bytes *)
(* ===================================================================== *)

(** [str.splitlines] boundaries among the one-byte code points. *)
Definition is_linebreak (c : ascii) : bool :=
  let n := nat_of_ascii c in
  ((10 <=? n)%nat && (n <=? 13)%nat) || ((28 <=? n)%nat && (n <=? 30)%nat)
  || (n =? 133)%nat.

Definition is_cr (c : ascii) : bool := (nat_of_ascii c =? 13)%nat.
Definition is_lf (c : ascii) : bool := (nat_of_ascii c =? 10)%nat.

(** [cur] is the line being read; [after_cr] tells that the previous
    character was a carriage return, so a line feed now ends nothing. *)
Fixpoint splitlines_from (s cur : string) (after_cr : bool) : list string :=
  match s with
  | EmptyString =>
      match cur with EmptyString => [] | _ => [cur] end
  | String c s' =>
      if after_cr && is_lf c then splitlines_from s' cur false
      else if is_linebreak c then cur :: splitlines_from s' "" (is_cr c)
      else splitlines_from s' (cur ++ String c "") false
  end.

Definition splitlines (s : string) : list string := splitlines_from s "" false.

(** The longest prefix of digits, and what follows it. *)
Fixpoint take_digits (s : string) : string * string :=
  match s with
  | String c s' =>
      if is_digit c
      then let '(d, r) := take_digits s' in (String c d, r)
      else ("", s)
  | EmptyString => ("", "")
  end.

(** [re.search("([0-9]+) bytes,", s)]: group 1 of the leftmost match. *)
Fixpoint re_search_bytes (s : string) : option string :=
  match s with
  | EmptyString => None
  | String _ s' =>
      let '(d, r) := take_digits s in
      match d, starts_with " bytes," r with
      | String _ _, Some _ => Some d
      | _, _ => re_search_bytes s'
      end
  end.

Definition TAB : string := String (ascii_of_nat 9) EmptyString.

(** [re.match(r"\t\t\t<integer>(\d+)</integer>", s)]: group 1. *)
Definition re_match_integer (s : string) : option string :=
  match starts_with (TAB ++ TAB ++ TAB ++ "<integer>") s with
  | None => None
  | Some r =>
      let '(d, r') := take_digits r in
      match d, starts_with "</integer>" r' with
      | String _ _, Some _ => Some d
      | _, _ => None
      end
  end.

(** The platform and the programs it can run: [subprocess.run] with
    captured text output either raises or gives the standard output. *)
Record probe_env : Type := mkProbeEnv {
  sys_platform : string;
  subprocess_run : list string -> outcome string
}.

(** Lines 127-132: the body of the [try]. *)
Definition fdisk_probe (pe : probe_env) (sdcard_path : string) : outcome Z :=
  obind (subprocess_run pe ["/sbin/fdisk"; "-l"; sdcard_path]) (fun out =>
  obind (match splitlines out with
         | line :: _ => Return line
         | [] => Raise IndexError
         end) (fun line =>
  obind (match re_search_bytes line with
         | Some g => Return g
         | None => Raise AttributeError
         end) (fun g =>
  py_int g))).

(** Lines 140-143: the first line that matches decides. *)
Fixpoint diskutil_scan (lines : list string) : outcome (option Z) :=
  match lines with
  | [] => Return None
  | line :: rest =>
      match re_match_integer line with
      | Some g => obind (py_int g) (fun n => Return (Some n))
      | None => diskutil_scan rest
      end
  end.

(** Lines 126-151.  The result comes with the errors handed to
    [logger.error]. *)
Definition get_sdcard_bytes (pe : probe_env) (sdcard_path : string)
  : outcome Z * list exn :=
  match fdisk_probe pe sdcard_path with
  | Return n => (Return n, [])
  | Raise exp =>
      let log := [exp] in
      if String.eqb (sys_platform pe) "darwin" then
        match subprocess_run pe ["diskutil"; "list"; "-plist"; sdcard_path]
        with
        | Raise ex => (Raise ex, log)
        | Return out =>
            match diskutil_scan (splitlines out) with
            | Raise ex => (Raise ex, log)
            | Return (Some n) => (Return n, log)
            | Return None => (Return 0, log)
            end
        end
      else (Return 0, log)
  end.

(* ===================================================================== *)
(** ** Sequences of calls to a hook *)
(* ===================================================================== *)

(** The arguments of one [reporthook] call. *)
Record hook_call : Type := mkCall {
  call_chunk : chunk_arg;
  call_size : Z;
  call_total : Z
}.

(** The state a call leaves behind, whether it returned or raised. *)
Definition after_call (st : hook_state) (c : hook_call) : hook_state :=
  snd (reporthook (call_chunk c) (call_size c) (call_total c) st).

Definition run_calls (calls : list hook_call) (st : hook_state)
  : hook_state :=
  fold_left after_call calls st.

(** The completed bar, the empty bar, and a fresh hook. *)
Definition full_bar (w : Z) : string :=
  "[" ++ str_mul "." (w - 2) ++ "] 100%" ++ LF.

Definition empty_bar : string :=
  "[" ++ str_mul " " 58 ++ "] 0%" ++ CR.

Definition fresh_hook (out : list string) : hook_state :=
  snd (ReportHook_init out).

Definition count_line (line : string) (lines : list string) : nat :=
  count_occ string_dec lines line.

(** The line a call computes in a given state, before deciding to print. *)
Definition computed_line (st : hook_state) (c : hook_call) : outcome string :=
  let h := add_chunk (hook st) (call_chunk c) (call_size c) in
  compute_line (_current_size h) (width h) (call_total c).

(** No two neighbours of the list are equal. *)
Fixpoint no_repeat (lines : list string) : Prop :=
  match lines with
  | a :: (b :: _) as rest => a <> b /\ no_repeat rest
  | _ => True
  end.

(** A call that leaves the counter alone. *)
Definition same_progress (total : Z) (c : hook_call) : Prop :=
  call_total c = total /\ (call_chunk c = ChunkInt 0 \/ call_size c = 0).

(** A call that moves the counter forward. *)
Definition more_progress (total : Z) (c : hook_call) : Prop :=
  call_total c = total /\ call_chunk c <> ChunkInt 0 /\ 0 < call_size c.

(* ===================================================================== *)
(** ** Concrete servers, callbacks and platforms *)
(* ===================================================================== *)

(** A response with status 200 whose body arrives as the given chunks. *)
Definition ok_response (cl : option string) (body : list (list byte))
  : Response :=
  mkResponse 200 cl (fun _ => (body, None)).

(** The text of an exception in the concrete worlds below: the message
    it carries, if it carries one. *)
Definition message_of (ex : exn) : string :=
  match ex with
  | AssertionError msg => msg
  | RequestException msg => msg
  | _ => ""
  end.

(** A world where every request is answered by [r] whatever the
    adapter, every file opens, every write and close succeeds and
    standard output takes every text. *)
Definition serving (r : Response) : env :=
  mkEnv (fun url => Return url) (fun _ _ => Return r)
        (fun _ => RequestException "no connection adapter")
        (fun _ => None) (fun _ _ => None) (fun _ => None)
        (fun _ _ => None) message_of.

(** The same world on a full disk: what is written is only buffered,
    and closing a file that was written to, which flushes the buffer,
    fails with ENOSPC. *)
Definition serving_disk_full (r : Response) : env :=
  mkEnv (fun url => Return url) (fun _ _ => Return r)
        (fun _ => RequestException "no connection adapter")
        (fun _ => None) (fun _ _ => None)
        (fun f => match f_written f with
                  | [] => None
                  | _ => Some (OSError 28)
                  end)
        (fun _ _ => None) message_of.

(** Whether an adapter's policy retries a response with the given
    status: the status is on its list and its budgets leave a retry. *)
Definition retries_status (a : HTTPAdapter) (status : Z) : bool :=
  existsb (Z.eqb status) (Retry.status_forcelist (max_retries a))
  && match Retry.total (max_retries a), Retry.status (max_retries a) with
     | Some (PyInt n), Some (PyInt m) => (0 <? n) && (0 <? m)
     | _, _ => false
     end.

(** A server that is busy at first: it answers 503, and [r] when asked
    again, so a request sent under a policy that retries on 503 gets
    [r] and any other request gets the 503. *)
Definition busy_at_first (r : Response) : env :=
  mkEnv (fun url => Return url)
        (fun a _ => if retries_status a 503 then Return r
                    else Return (mkResponse 503 None (fun _ => ([], None))))
        (fun _ => RequestException "no connection adapter")
        (fun _ => None) (fun _ _ => None) (fun _ => None)
        (fun _ _ => None) message_of.

Fixpoint is_ascii (s : string) : bool :=
  match s with
  | EmptyString => true
  | String c s' => (nat_of_ascii c <? 128)%nat && is_ascii s'
  end.

(** A world where no URL can be parsed, which the library says with a
    message that quotes the URL, and whose standard output is encoded
    in ASCII: [print] of any other text raises [UnicodeEncodeError]. *)
Definition ascii_stdout : env :=
  mkEnv (fun url => Raise (RequestException ("Failed to parse: " ++ url)))
        (fun _ _ => Raise (RequestException "unreachable"))
        (fun _ => RequestException "no connection adapter")
        (fun _ => None) (fun _ _ => None) (fun _ => None)
        (fun _ text => if is_ascii text then None
                       else Some UnicodeEncodeError)
        message_of.

(** A URL whose port is not a number: [http://host:] followed by
    U+00E9 and [/x]. *)
Definition bad_port_url : string :=
  "http://host:" ++ String (ascii_of_nat 233) "/x".

(** A callback that does nothing. *)
Definition quiet : @callback_t unit := fun _ _ _ s => (Return tt, s).

Definition abc : list byte := [x61; x62; x63].

(** The sum of the chunk lengths. *)
Definition total_len (chunks : list (list byte)) : Z :=
  fold_right (fun data n => len data + n) 0 chunks.

(** The total the server declares: the parsed header, 0 without one. *)
Definition declared_size (req : Response) : outcome Z :=
  match content_length req with
  | Some v => py_int v
  | None => Return 0
  end.

(** A macOS host whose PATH has neither [fdisk] nor [diskutil]. *)
Definition darwin_without_tools : probe_env :=
  mkProbeEnv "darwin" (fun _ => Raise FileNotFoundError).

(** A server that declares [cl] bytes and sends [abc]. *)
Definition three_bytes (cl : string) : Response :=
  ok_response (Some cl) [abc].

(** One chunk of a download, as [stream] reports it to the hook. *)
Definition chunk_call (size total : Z) : hook_call :=
  mkCall (ChunkBytes abc) size total.

(* ===================================================================== *)
(** ** Reading binary64 rounding arithmetically *)
(* ===================================================================== *)

(** The record after [n >= 1] one-bit shifts, read arithmetically. *)
Definition shifted (rc : shr_record) (n : Z) : shr_record :=
  Build_shr_record
    (shr_m rc / 2 ^ n)
    (Z.odd (shr_m rc / 2 ^ (n - 1)))
    (negb (shr_m rc mod 2 ^ (n - 1) =? 0) || (shr_r rc || shr_s rc)).

(** Rounding to nearest, ties to even, read off the two bits. *)
Definition round_record (rc : shr_record) : Z :=
  shr_m rc
  + (if shr_r rc && (shr_s rc || Z.odd (shr_m rc)) then 1 else 0).

(** The mantissa after the first rounding, and its exponent. *)
Definition round_parts (m e : Z) (l : location) : Z * Z :=
  let n := fexp PyFloat.prec PyFloat.emax (Zdigits2 m + e) - e in
  let rc := shr_record_of_loc m l in
  if 0 <? n then (round_record (shifted rc n), e + n)
  else (round_record rc, e).

(** Positive zero, or a positive float with a 53-bit mantissa. *)
Definition small_nonneg (x : spec_float) : Prop :=
  x = S754_zero false
  \/ exists p e, x = S754_finite false p e /\ Z.pos p < 2 ^ 53.

(** The first integer too large for a double: [2^1024 - 2^970]. *)
Definition int_limit : Z := 2 ^ 1024 - 2 ^ 970.

(** At most one: positive zero, or a positive float [m * 2^e] with
    [e <= 0] and [m <= 2^-e]. *)
Definition at_most_one (r : spec_float) : Prop :=
  r = S754_zero false
  \/ exists p e, r = S754_finite false p e
                 /\ e <= 0 /\ Z.pos p <= 2 ^ (- e).

(** The double nearest to an integer, infinite beyond the range. *)
Definition nearest_double (n : Z) : PyFloat.float :=
  binary_normalize PyFloat.prec PyFloat.emax n 0 false.

(** [min(cumulative / total, 1.0)], computed on doubles. *)
Definition double_ratio (cumulative total : Z) : PyFloat.float :=
  PyFloat.min
    (SFdiv PyFloat.prec PyFloat.emax
           (nearest_double cumulative) (nearest_double total))
    PyFloat.one.

(** [round_down(ratio * k)] for an integer constant [k]. *)
Definition double_scaled (ratio : PyFloat.float) (k : Z) : option Z :=
  PyFloat.floor (SFmul PyFloat.prec PyFloat.emax ratio (nearest_double k)).

(** The partially filled bar with the given numbers of dots and percent. *)
Definition bar_line (dot_slots dots percent : Z) : string :=
  "[" ++ str_mul "." dots ++ str_mul " " (dot_slots - dots)
      ++ "] " ++ str_of_Z percent ++ "%" ++ CR.

(** The rendering rule as the specification words it, in exact
    arithmetic: [round_down(min(cumulative/total, 1) * k)] for a total
    above zero, where the quotient is the rational number. *)
Definition rule_floor (cumulative total k : Z) : Z :=
  Z.min ((cumulative * k) / total) k.

(** The line the specification's rule gives: the text for an unknown
    size, the completed bar, or the bar with [rule_floor] dots and
    percent. *)
Definition rule_line (cumulative width total : Z) : string :=
  if total =? -1 then "unknown size"
  else if cumulative >=? total then
    "[" ++ str_mul "." (width - 2) ++ "] 100%" ++ LF
  else bar_line (width - 2)
                (rule_floor cumulative total (width - 2))
                (Z.min (rule_floor cumulative total 100) 100).

(* ===================================================================== *)
(** ** get_checksum *)
(* ===================================================================== *)

(** What [func()] gives: a hash object of some state type, with the
    operations and the [name] attribute the function uses. *)
Record hash_algo (H : Type) : Type := mkHash {
  h_new : H;
  h_update : H -> list byte -> H;
  h_name : string;
  h_hexdigest : H -> string
}.

Arguments mkHash {H} h_new h_update h_name h_hexdigest.
Arguments h_new {H} h.
Arguments h_update {H} h _ _.
Arguments h_name {H} h.
Arguments h_hexdigest {H} h _.

(** What a file holds: finitely many bytes, or, for a device such as
    [/dev/zero], bytes without end, given by their position. *)
Inductive file_content : Type :=
| Finite (data : list byte)
| Endless (gen : nat -> byte).

(** A file object opened for reading: what is still unread. *)
Record reader : Type := mkReader {
  r_path : string;
  r_rest : file_content;
  r_closed : bool
}.

(** The file system as [get_checksum] sees it: opening a path for
    reading gives its content or raises; a read may fail, depending on
    the file and on what is left of it. *)
Record read_env : Type := mkReadEnv {
  open_rb : string -> outcome file_content;
  read_error : string -> file_content -> option exn
}.

(** The first [n] bytes of a list, and the others. *)
Fixpoint take (n : Z) (l : list byte) : list byte * list byte :=
  match l with
  | [] => ([], [])
  | x :: l' =>
      if n <=? 0 then ([], l)
      else let '(a, b) := take (n - 1) l' in (x :: a, b)
  end.

(** [f.read(n)]: up to [n] bytes, everything for a negative [n].  The
    result is [None] when the call does not come back: reading
    everything of a file without end. *)
Definition file_read (re : read_env) (n : Z) (f : reader)
  : option (outcome (list byte) * reader) :=
  match read_error re (r_path f) (r_rest f) with
  | Some ex => Some (Raise ex, f)
  | None =>
      match r_rest f with
      | Finite rest =>
          let '(chunk, rest') :=
            if n <? 0 then (rest, []) else take n rest in
          Some (Return chunk, mkReader (r_path f) (Finite rest') (r_closed f))
      | Endless gen =>
          if n <? 0 then None
          else
            let k := Z.to_nat n in
            Some (Return (map gen (seq 0 k)),
                  mkReader (r_path f) (Endless (fun i => gen (k + i)%nat))
                           (r_closed f))
      end
  end.

(** Lines 25-26: [for chunk in iter(lambda: f.read(ONE_MiB * 8), b"")],
    with [fuel] bounding the number of reads; [None] when that many
    reads do not reach the end. *)
Fixpoint checksum_loop {H : Type} (fuel : nat) (re : read_env)
         (func : hash_algo H) (h : H) (f : reader)
  : option (outcome H * reader) :=
  match fuel with
  | O => None
  | S fuel' =>
      match file_read re (ONE_MiB * 8) f with
      | None => None
      | Some (Raise ex, f') => Some (Raise ex, f')
      | Some (Return [], f') => Some (Return h, f')
      | Some (Return chunk, f') =>
          checksum_loop fuel' re func (h_update func h chunk) f'
      end
  end.

Definition close_reader (f : reader) : reader :=
  mkReader (r_path f) (r_rest f) true.

(** Lines 21-27, with [fuel] reads allowed.  The state is the list of
    file objects opened for reading so far; the [with] block closes the
    file on the way out, also when the body raises. *)
Definition get_checksum {H : Type} (fuel : nat) (re : read_env)
           (fpath : string) (func : hash_algo H) (opened : list reader)
  : option (outcome (string * string) * list reader) :=
  let h := h_new func in
  match open_rb re fpath with
  | Raise ex => Some (Raise ex, opened)
  | Return content =>
      let f := mkReader fpath content false in
      match checksum_loop fuel re func h f with
      | None => None
      | Some (Return h', f') =>
          Some (Return (h_name func, h_hexdigest func h'),
                (opened ++ [close_reader f'])%list)
      | Some (Raise ex, f') =>
          Some (Raise ex, (opened ++ [close_reader f'])%list)
      end
  end.

(** The blocks successive reads of [n > 0] bytes cut a content into. *)
Fixpoint blocks (fuel : nat) (n : Z) (content : list byte)
  : list (list byte) :=
  match fuel with
  | O => []
  | S fuel' =>
      match take n content with
      | ([], _) => []
      | (chunk, rest) => chunk :: blocks fuel' n rest
      end
  end.

(** A hash object that just keeps what it was fed. *)
Definition keep_all : hash_algo (list byte) :=
  mkHash [] (fun h data => (h ++ data)%list) "keep"
         (fun h => str_of_Z (len h)).

(** A file system holding one readable file. *)
Definition one_file (path : string) (content : list byte) : read_env :=
  mkReadEnv (fun p => if String.eqb p path then Return (Finite content)
                      else Raise FileNotFoundError)
            (fun _ _ => None).

(** A file system whose every path reads like [/dev/zero]. *)
Definition dev_zero : read_env :=
  mkReadEnv (fun _ => Return (Endless (fun _ => x00))) (fun _ _ => None).

(* ===================================================================== *)
(** ** Callbacks that record, and the calls stream makes *)
(* ===================================================================== *)

(** A callback that appends its arguments to a log. *)
Definition recorder : @callback_t (list (chunk_arg * Z * Z)) :=
  fun chunk chunk_size total_size log =>
    (Return tt, (log ++ [(chunk, chunk_size, total_size)])%list).

(** The hook calls [stream] makes for a body: one per chunk, each with
    the block size as [chunk_size]. *)
Definition stream_calls (block_size total_size : Z)
           (chunks : list (list byte)) : list hook_call :=
  map (fun data => mkCall (ChunkBytes data) block_size total_size) chunks.

(** The callback's own state after it was called once per chunk, as
    [stream] calls it. *)
Definition run_callback {S : Type} (cb : @callback_t S)
           (block_size total_size : Z) (chunks : list (list byte)) (s : S)
  : S :=
  fold_left (fun s data => snd (cb (ChunkBytes data) block_size total_size s))
            chunks s.

(* ===================================================================== *)
(** ** More concrete servers and hosts *)
(* ===================================================================== *)

(** A server that answers 404. *)
Definition not_found : Response :=
  mkResponse 404 None (fun _ => ([], None)).

(** A server that declares five bytes, sends [abc] and then loses the
    connection. *)
Definition dropping : Response :=
  mkResponse 200 (Some "5")
             (fun _ => ([abc], Some (RequestException "connection broken"))).

(** A Linux host whose [fdisk] knows the card. *)
Definition fdisk_output : string :=
  "Disk /dev/sdb: 29.7 GiB, 31914983424 bytes, 62333952 sectors" ++ LF
  ++ "Units: sectors of 1 * 512 = 512 bytes" ++ LF.

Definition linux_with_fdisk : probe_env :=
  mkProbeEnv "linux" (fun _ => Return fdisk_output).

(** A macOS host without [/sbin/fdisk] whose [diskutil] knows the card. *)
Definition diskutil_output : string :=
  "<dict>" ++ LF
  ++ TAB ++ TAB ++ TAB ++ "<integer>31914983424</integer>" ++ LF
  ++ TAB ++ TAB ++ TAB ++ "<integer>512</integer>" ++ LF.

Definition darwin_with_diskutil : probe_env :=
  mkProbeEnv "darwin"
             (fun argv =>
                match argv with
                | cmd :: _ =>
                    if String.eqb cmd "diskutil" then Return diskutil_output
                    else Raise FileNotFoundError
                | [] => Raise FileNotFoundError
                end).

(* ===================================================================== *)
(** * Properties *)
(* ===================================================================== *)

(** ** The cumulative counter *)

Lemma reporthook_counter chunk chunk_size total_size st :
  _current_size (hook (snd (reporthook chunk chunk_size total_size st)))
  = if chunk_ne_0 chunk
    then _current_size (hook st) + chunk_size
    else _current_size (hook st).
Proof.
  unfold reporthook, add_chunk.
  destruct (chunk_ne_0 chunk); cbn [_current_size width _last_line];
    match goal with |- context [compute_line ?a ?b ?c] =>
      destruct (compute_line a b c) as [line|ex] end;
    try match goal with |- context [line_ne ?a ?b] =>
      destruct (line_ne a b) end; reflexivity.
Qed.

Lemma reporthook_width chunk chunk_size total_size st :
  width (hook (snd (reporthook chunk chunk_size total_size st)))
  = width (hook st).
Proof.
  unfold reporthook, add_chunk.
  destruct (chunk_ne_0 chunk); cbn [_current_size width _last_line];
    match goal with |- context [compute_line ?a ?b ?c] =>
      destruct (compute_line a b c) as [line|ex] end;
    try match goal with |- context [line_ne ?a ?b] =>
      destruct (line_ne a b) end; reflexivity.
Qed.

Lemma run_calls_app calls1 calls2 st :
  run_calls (calls1 ++ calls2) st = run_calls calls2 (run_calls calls1 st).
Proof. unfold run_calls. apply fold_left_app. Qed.

Lemma run_calls_counter_le calls : forall st,
  Forall (fun c => 0 <= call_size c) calls ->
  _current_size (hook st) <= _current_size (hook (run_calls calls st)).
Proof.
  induction calls as [|c calls IH]; intros st Hnn.
  - cbn. lia.
  - inversion Hnn as [|c' l Hc Hl]; subst.
    change (run_calls (c :: calls) st)
      with (run_calls calls (after_call st c)).
    etransitivity; [|apply IH; assumption].
    unfold after_call. rewrite reporthook_counter.
    destruct (chunk_ne_0 (call_chunk c)); lia.
Qed.

(** C9.  Over any sequence of calls with non-negative [chunk_size] the
    counter never decreases between two points of the sequence; one call
    adds exactly [chunk_size] when its chunk differs from the integer 0,
    which holds for every bytes object, the empty one included, and
    leaves the counter as it was when the chunk is the integer 0. *)
Theorem C9_counter_monotone :
  (forall calls1 calls2 st,
      Forall (fun c => 0 <= call_size c) (calls1 ++ calls2) ->
      _current_size (hook (run_calls calls1 st))
      <= _current_size (hook (run_calls (calls1 ++ calls2) st)))
  /\ (forall chunk chunk_size total_size st,
         chunk <> ChunkInt 0 ->
         _current_size (hook (snd (reporthook chunk chunk_size total_size st)))
         = _current_size (hook st) + chunk_size)
  /\ (forall data, ChunkBytes data <> ChunkInt 0)
  /\ (forall chunk_size total_size st,
         _current_size
           (hook (snd (reporthook (ChunkInt 0) chunk_size total_size st)))
         = _current_size (hook st)).
Proof.
  repeat split.
  - intros calls1 calls2 st Hnn.
    rewrite run_calls_app.
    apply run_calls_counter_le.
    apply Forall_app in Hnn. tauto.
  - intros chunk chunk_size total_size st Hne.
    rewrite reporthook_counter.
    destruct chunk as [n|data]; cbn; [|reflexivity].
    destruct (Z.eqb_spec n 0) as [->|]; [congruence|reflexivity].
  - discriminate.
  - intros. rewrite reporthook_counter. reflexivity.
Qed.

(** ** Duplicate suppression *)

Lemma line_ne_false line last :
  line_ne line last = false <-> last = Some line.
Proof.
  destruct last as [l|]; cbn.
  - rewrite negb_false_iff, String.eqb_eq. split; congruence.
  - split; discriminate.
Qed.

Lemma line_ne_true line last :
  line_ne line last = true <-> last <> Some line.
Proof.
  rewrite <- not_false_iff_true, line_ne_false. tauto.
Qed.

(** One call, seen from outside: the line is printed and remembered
    exactly when it differs from the remembered one. *)
Lemma after_call_spec st c :
  let st' := after_call st c in
  width (hook st') = width (hook st)
  /\ match computed_line st c with
     | Raise _ =>
         stdout st' = stdout st
         /\ _last_line (hook st') = _last_line (hook st)
     | Return line =>
         _last_line (hook st') = Some line
         /\ (_last_line (hook st) = Some line -> stdout st' = stdout st)
         /\ (_last_line (hook st) <> Some line ->
             stdout st' = (stdout st ++ [line])%list)
     end.
Proof.
  cbv zeta. split.
  - apply reporthook_width.
  - unfold after_call, computed_line, reporthook.
    set (h := add_chunk (hook st) (call_chunk c) (call_size c)).
    assert (Hl : _last_line h = _last_line (hook st)).
    { unfold h, add_chunk. destruct (chunk_ne_0 (call_chunk c)); reflexivity. }
    destruct (compute_line (_current_size h) (width h) (call_total c))
      as [line|ex]; cbn.
    + destruct (line_ne line (_last_line h)) eqn:Hne; cbn.
      * apply line_ne_true in Hne. rewrite Hl in Hne.
        split; [reflexivity|split; intro; [contradiction|reflexivity]].
      * apply line_ne_false in Hne. rewrite Hl in Hne.
        split; [congruence|split; intro; [reflexivity|contradiction]].
    + split; [reflexivity|assumption].
Qed.

Lemma append_nonempty_r (a b : string) : b <> "" -> a ++ b <> "".
Proof. destruct a; cbn; [tauto|discriminate]. Qed.

Lemma last_char_cons c s : s <> "" -> last_char (String c s) = last_char s.
Proof. destruct s; [congruence|reflexivity]. Qed.

Lemma last_char_app_r a b : b <> "" -> last_char (a ++ b) = last_char b.
Proof.
  intros Hb. induction a as [|c a IH]; cbn [append]; [reflexivity|].
  rewrite last_char_cons; [assumption|].
  apply append_nonempty_r, Hb.
Qed.

Ltac nonempty := repeat apply append_nonempty_r; discriminate.

Ltac find_last_char :=
  repeat first [ rewrite last_char_app_r by nonempty
               | rewrite last_char_cons by nonempty ];
  reflexivity.

Lemma partial_line_ends_cr current_size avail_dots total_size line :
  partial_line current_size avail_dots total_size = Return line ->
  last_char line = Some (ascii_of_nat 13).
Proof.
  unfold partial_line, obind.
  repeat match goal with
         | |- match ?o with Return _ => _ | Raise _ => _ end = _ -> _ =>
             destruct o; [|discriminate]
         end.
  intros [= <-]. unfold CR. find_last_char.
Qed.

Lemma full_bar_ends_lf w : last_char (full_bar w) = Some (ascii_of_nat 10).
Proof. unfold full_bar, LF. find_last_char. Qed.

Lemma partial_line_not_full current_size avail_dots total_size w :
  partial_line current_size avail_dots total_size <> Return (full_bar w).
Proof.
  intros H. apply partial_line_ends_cr in H.
  rewrite full_bar_ends_lf in H. discriminate.
Qed.

Lemma empty_bar_computed : compute_line 0 60 100 = Return empty_bar.
Proof. vm_compute. reflexivity. Qed.

Lemma fresh_hook_eq out :
  ReportHook_init out
  = (Return tt,
     mkHookState (mkReportHook 0 60 (Some empty_bar))
                 (out ++ [empty_bar])%list).
Proof.
  unfold ReportHook_init, reporthook, add_chunk.
  cbn [chunk_ne_0 Z.eqb negb hook _current_size width _last_line stdout].
  rewrite empty_bar_computed. reflexivity.
Qed.

Lemma last_line_dec (last : option string) (line : string) :
  {last = Some line} + {last <> Some line}.
Proof.
  destruct last as [l|]; [|right; discriminate].
  destruct (string_dec l line) as [->|Hne]; [left; reflexivity|].
  right. congruence.
Qed.

Lemma after_call_counter st c :
  _current_size (hook (after_call st c))
  = if chunk_ne_0 (call_chunk c)
    then _current_size (hook st) + call_size c
    else _current_size (hook st).
Proof. apply reporthook_counter. Qed.

Lemma same_progress_counter total st c :
  same_progress total c ->
  _current_size (hook (after_call st c)) = _current_size (hook st).
Proof.
  intros [_ [Hc|Hs]]; rewrite after_call_counter.
  - rewrite Hc. reflexivity.
  - rewrite Hs. destruct (chunk_ne_0 (call_chunk c)); lia.
Qed.

Lemma same_progress_line total st c :
  same_progress total c ->
  computed_line st c
  = compute_line (_current_size (hook st)) (width (hook st)) total.
Proof.
  intros [Ht Hc]. unfold computed_line, add_chunk. rewrite Ht.
  destruct Hc as [Hc|Hs].
  - rewrite Hc. reflexivity.
  - rewrite Hs. destruct (chunk_ne_0 (call_chunk c)); cbn; [|reflexivity].
    rewrite Z.add_0_r. reflexivity.
Qed.

(** Once the remembered line is the one the current progress renders,
    further calls with the same progress print nothing. *)
Lemma settled_silent total calls : forall st,
  Forall (same_progress total) calls ->
  match compute_line (_current_size (hook st)) (width (hook st)) total with
  | Return line => _last_line (hook st) = Some line
  | Raise _ => True
  end ->
  stdout (run_calls calls st) = stdout st.
Proof.
  induction calls as [|c calls IH]; intros st Hall Hset; [reflexivity|].
  inversion Hall as [|c' l Hc Hl]; subst.
  change (run_calls (c :: calls) st) with (run_calls calls (after_call st c)).
  destruct (after_call_spec st c) as [Hw Hspec].
  rewrite (same_progress_line total st c Hc) in Hspec.
  assert (Hcur := same_progress_counter total st c Hc).
  assert (Hstep : stdout (after_call st c) = stdout st
                  /\ _last_line (hook (after_call st c))
                     = _last_line (hook st)).
  { destruct (compute_line (_current_size (hook st)) (width (hook st)) total)
      as [line|ex].
    - destruct Hspec as (Hlast & Hsame & _). split; [auto|congruence].
    - exact Hspec. }
  destruct Hstep as [Hout Hlast].
  rewrite IH; [assumption|assumption|].
  rewrite Hcur, Hw, Hlast. exact Hset.
Qed.

Lemma same_progress_one_line total calls st :
  Forall (same_progress total) calls ->
  exists lines,
    stdout (run_calls calls st) = (stdout st ++ lines)%list
    /\ (List.length lines <= 1)%nat.
Proof.
  intros Hall. destruct calls as [|c calls].
  - exists []. cbn. rewrite app_nil_r. split; [reflexivity|lia].
  - inversion Hall as [|c' l Hc Hl]; subst.
    change (run_calls (c :: calls) st)
      with (run_calls calls (after_call st c)).
    destruct (after_call_spec st c) as [Hw Hspec].
    rewrite (same_progress_line total st c Hc) in Hspec.
    assert (Hcur := same_progress_counter total st c Hc).
    rewrite (settled_silent total calls (after_call st c) Hl).
    + destruct (compute_line (_current_size (hook st)) (width (hook st)) total)
        as [line|ex].
      * destruct Hspec as (Hlast & Hsame & Hdiff).
        destruct (last_line_dec (_last_line (hook st)) line) as [Heq|Hne].
        -- exists []. rewrite app_nil_r. split; [auto|cbn; lia].
        -- exists [line]. split; [auto|cbn; lia].
      * exists []. rewrite app_nil_r. split; [tauto|cbn; lia].
    + rewrite Hcur, Hw.
      destruct (compute_line (_current_size (hook st)) (width (hook st)) total)
        as [line|ex]; [tauto|exact I].
Qed.

Lemma no_repeat_snoc lines x :
  no_repeat lines ->
  (lines <> [] -> last lines "" <> x) ->
  no_repeat (lines ++ [x]).
Proof.
  induction lines as [|a [|b rest] IH]; intros Hnr Hx.
  - exact I.
  - cbn. split; [apply Hx; discriminate|exact I].
  - destruct Hnr as [Hab Hnr]. split; [assumption|].
    apply IH; [assumption|]. intros _. apply Hx. discriminate.
Qed.

(** The printed lines of a hook never repeat a neighbour, and the hook
    remembers the last of them. *)
Lemma run_calls_trace out calls : forall st lines,
  stdout st = (out ++ lines)%list ->
  lines <> [] ->
  _last_line (hook st) = Some (last lines "") ->
  no_repeat lines ->
  exists lines',
    stdout (run_calls calls st) = (out ++ lines')%list
    /\ lines' <> []
    /\ _last_line (hook (run_calls calls st)) = Some (last lines' "")
    /\ no_repeat lines'.
Proof.
  induction calls as [|c calls IH]; intros st lines Hout Hne Hlast Hnr.
  - exists lines. cbn. auto.
  - change (run_calls (c :: calls) st)
      with (run_calls calls (after_call st c)).
    destruct (after_call_spec st c) as [_ Hspec].
    destruct (computed_line st c) as [line|ex].
    + destruct Hspec as (Hl' & Hsame & Hdiff).
      destruct (last_line_dec (_last_line (hook st)) line) as [Heq|Hneq].
      * apply (IH _ lines); [rewrite Hsame; assumption|assumption| |assumption].
        congruence.
      * apply (IH _ (lines ++ [line])%list).
        -- rewrite Hdiff by assumption. rewrite Hout, app_assoc. reflexivity.
        -- destruct lines; discriminate.
        -- rewrite last_last. assumption.
        -- apply no_repeat_snoc; [assumption|]. intros _ Hx.
           apply Hneq. congruence.
    + destruct Hspec as [Hs Hl'].
      apply (IH _ lines); [congruence|assumption|congruence|assumption].
Qed.

Lemma more_progress_line total st c :
  more_progress total c ->
  computed_line st c
  = compute_line (_current_size (hook st) + call_size c)
                 (width (hook st)) total
  /\ _current_size (hook (after_call st c))
     = _current_size (hook st) + call_size c.
Proof.
  intros (Ht & Hc & _).
  assert (Hne : chunk_ne_0 (call_chunk c) = true).
  { destruct (call_chunk c) as [n|data]; cbn; [|reflexivity].
    destruct (Z.eqb_spec n 0) as [->|]; [congruence|reflexivity]. }
  split.
  - unfold computed_line, add_chunk. rewrite Hne, Ht. reflexivity.
  - rewrite after_call_counter, Hne. reflexivity.
Qed.

Lemma count_line_app line a b :
  count_line line (a ++ b) = (count_line line a + count_line line b)%nat.
Proof. apply count_occ_app. Qed.

Lemma count_line_one line : count_line line [line] = 1%nat.
Proof. unfold count_line. cbn. destruct (string_dec line line); congruence. Qed.

Lemma count_line_other line x : x <> line -> count_line line [x] = 0%nat.
Proof.
  intros H. unfold count_line. cbn.
  destruct (string_dec x line); [contradiction|reflexivity].
Qed.

(** One forward call with a known total: the completed bar is printed
    when the counter reaches the total and was not yet shown, and never
    before. *)
Lemma more_progress_step out total st c lines :
  total <> -1 ->
  more_progress total c ->
  width (hook st) = 60 ->
  stdout st = (out ++ lines)%list ->
  (count_line (full_bar 60) lines = 0%nat
   /\ _last_line (hook st) <> Some (full_bar 60))
  \/ (count_line (full_bar 60) lines = 1%nat
      /\ _last_line (hook st) = Some (full_bar 60)
      /\ total <= _current_size (hook st)) ->
  let st' := after_call st c in
  exists lines',
    width (hook st') = 60
    /\ stdout st' = (out ++ lines')%list
    /\ (total <= _current_size (hook st') ->
        count_line (full_bar 60) lines' = 1%nat
        /\ _last_line (hook st') = Some (full_bar 60))
    /\ (_current_size (hook st') < total ->
        count_line (full_bar 60) lines' = 0%nat
        /\ _last_line (hook st') <> Some (full_bar 60)).
Proof.
  intros Hknown Hc Hw Hout Hpre st'. subst st'.
  destruct (more_progress_line total st c Hc) as [Hline Hcur].
  destruct Hc as (_ & _ & Hpos).
  destruct (after_call_spec st c) as [Hw' Hspec].
  rewrite Hline, Hw in Hspec. rewrite Hw', Hcur.
  unfold compute_line in Hspec.
  destruct (Z.eqb_spec total (-1)) as [|_]; [contradiction|].
  destruct (Z.geb_spec (_current_size (hook st) + call_size c) total)
    as [Hge|Hlt].
  - change ("[" ++ str_mul "." (60 - 2) ++ "] 100%" ++ LF)
      with (full_bar 60) in Hspec.
    destruct Hspec as (Hl' & Hsame & Hdiff).
    destruct Hpre as [[Hcnt Hlast]|(Hcnt & Hlast & _)].
    + exists (lines ++ [full_bar 60])%list.
      split; [assumption|]. split.
      { rewrite Hdiff by assumption. rewrite Hout, app_assoc. reflexivity. }
      split; [|lia]. intros _. split; [|assumption].
      rewrite count_line_app, Hcnt, count_line_one. reflexivity.
    + exists lines. split; [assumption|]. split.
      { rewrite Hsame by assumption. assumption. }
      split; [|lia]. intros _. tauto.
  - destruct Hpre as [[Hcnt Hlast]|(_ & _ & Hreached)]; [|lia].
    destruct (partial_line (_current_size (hook st) + call_size c)
                           (60 - 2) total) as [line|ex] eqn:Hpl.
    + assert (Hnf : line <> full_bar 60).
      { intros ->. exact (partial_line_not_full _ _ _ _ Hpl). }
      destruct Hspec as (Hl' & Hsame & Hdiff).
      destruct (last_line_dec (_last_line (hook st)) line) as [Heq|Hneq].
      * exists lines. split; [assumption|]. split.
        { rewrite Hsame by assumption. assumption. }
        split; [lia|]. intros _. split; [assumption|congruence].
      * exists (lines ++ [line])%list. split; [assumption|]. split.
        { rewrite Hdiff by assumption. rewrite Hout, app_assoc. reflexivity. }
        split; [lia|]. intros _. split; [|congruence].
        rewrite count_line_app, Hcnt, count_line_other by assumption.
        reflexivity.
    + destruct Hspec as [Hs Hl'].
      exists lines. split; [assumption|]. split; [congruence|].
      split; [lia|]. intros _. split; [assumption|congruence].
Qed.

Lemma more_progress_run out total calls : forall st lines,
  total <> -1 ->
  Forall (more_progress total) calls ->
  width (hook st) = 60 ->
  stdout st = (out ++ lines)%list ->
  (total <= _current_size (hook st) ->
   count_line (full_bar 60) lines = 1%nat
   /\ _last_line (hook st) = Some (full_bar 60)) ->
  (_current_size (hook st) < total ->
   count_line (full_bar 60) lines = 0%nat
   /\ _last_line (hook st) <> Some (full_bar 60)) ->
  exists lines',
    stdout (run_calls calls st) = (out ++ lines')%list
    /\ (total <= _current_size (hook (run_calls calls st)) ->
        count_line (full_bar 60) lines' = 1%nat).
Proof.
  induction calls as [|c calls IH];
    intros st lines Hknown Hall Hw Hout Hhi Hlo.
  - exists lines. cbn. split; [assumption|]. intros H. apply Hhi, H.
  - inversion Hall as [|c' l Hc Hl]; subst.
    change (run_calls (c :: calls) st)
      with (run_calls calls (after_call st c)).
    destruct (more_progress_step out total st c lines Hknown Hc Hw Hout)
      as (lines1 & Hw1 & Hout1 & Hhi1 & Hlo1).
    { destruct (Z_lt_le_dec (_current_size (hook st)) total) as [Hlt|Hge].
      - left. apply Hlo, Hlt.
      - right. destruct (Hhi Hge). auto. }
    apply (IH _ lines1); assumption.
Qed.

Lemma empty_bar_not_full : empty_bar <> full_bar 60.
Proof. intros H. vm_compute in H. discriminate. Qed.

(** C8.  A hook prints a computed line exactly when it differs from the
    line it printed last, so its output never shows the same line twice
    in a row; calls that leave the progress unchanged print at most one
    line; and a run of forward calls that reaches a known total prints
    the completed bar exactly once. *)
Theorem C8_duplicate_suppression :
  (forall st c line,
      computed_line st c = Return line ->
      (_last_line (hook st) = Some line ->
       stdout (after_call st c) = stdout st)
      /\ (_last_line (hook st) <> Some line ->
          stdout (after_call st c) = (stdout st ++ [line])%list))
  /\ (forall out calls,
         exists lines,
           stdout (run_calls calls (fresh_hook out)) = (out ++ lines)%list
           /\ _last_line (hook (run_calls calls (fresh_hook out)))
              = Some (last lines "")
           /\ no_repeat lines)
  /\ (forall total calls st,
         Forall (same_progress total) calls ->
         exists lines,
           stdout (run_calls calls st) = (stdout st ++ lines)%list
           /\ (List.length lines <= 1)%nat)
  /\ (forall out total calls,
         total <> -1 ->
         calls <> [] ->
         Forall (more_progress total) calls ->
         total <= _current_size (hook (run_calls calls (fresh_hook out))) ->
         exists lines,
           stdout (run_calls calls (fresh_hook out)) = (out ++ lines)%list
           /\ count_line (full_bar 60) lines = 1%nat).
Proof.
  split; [|split; [|split]].
  - intros st c line Hline.
    destruct (after_call_spec st c) as [_ Hspec].
    rewrite Hline in Hspec. tauto.
  - intros out calls. unfold fresh_hook. rewrite fresh_hook_eq. cbn [snd].
    destruct (run_calls_trace out calls
                (mkHookState (mkReportHook 0 60 (Some empty_bar))
                             (out ++ [empty_bar])%list)
                [empty_bar])
      as (lines & H1 & _ & H3 & H4);
      [reflexivity|discriminate|reflexivity|exact I|].
    exists lines. auto.
  - intros total calls st. apply same_progress_one_line.
  - intros out total calls Hknown Hne Hall Hreach.
    unfold fresh_hook in *. rewrite fresh_hook_eq in *. cbn [snd] in *.
    destruct calls as [|c calls]; [congruence|].
    inversion Hall as [|c' l Hc Hl]; subst.
    change (run_calls (c :: calls) ?s)
      with (run_calls calls (after_call s c)) in *.
    set (st0 := mkHookState (mkReportHook 0 60 (Some empty_bar))
                            (out ++ [empty_bar])%list) in *.
    destruct (more_progress_step out total st0 c [empty_bar] Hknown Hc)
      as (lines1 & Hw1 & Hout1 & Hhi1 & Hlo1);
      [reflexivity|reflexivity| |].
    { left. split.
      - apply count_line_other, empty_bar_not_full.
      - unfold st0. cbn [hook _last_line]. intros H.
        apply empty_bar_not_full. congruence. }
    destruct (more_progress_run out total calls (after_call st0 c) lines1)
      as (lines & Hout & Hcount); try assumption.
    exists lines. auto.
Qed.

(** ** stream *)

Section StreamFacts.

Context {S : Type}.
Variable e : env.
Variables (write_to : option string) (callback : option (@callback_t S)).
Variables (block_size total_size : Z).

Lemma call_files data st :
  files (snd (call callback data block_size total_size st)) = files st.
Proof.
  unfold call. destruct callback as [cb|]; [|reflexivity].
  destruct (cb _ _ _ _). reflexivity.
Qed.

(** The loop adds up the chunk lengths. *)
Lemma stream_loop_count chunks : forall fd n st fd' n' st',
  stream_loop e write_to callback block_size total_size chunks fd n st
  = (Return (fd', n'), st') ->
  n' = n + total_len chunks.
Proof.
  induction chunks as [|data rest IH]; intros fd n st fd' n' st' H.
  - cbn in H. injection H as <- <- <-. cbn. lia.
  - cbn [stream_loop] in H. unfold bind in H.
    destruct (call callback data block_size total_size st) as [[[]|ex] s1];
      [|discriminate].
    destruct (truthy write_to).
    + destruct (fd_write e fd data s1) as [[fd1|ex] s2]; [|discriminate].
      apply IH in H. unfold total_len in *. cbn [fold_right]. lia.
    + unfold ret in H. apply IH in H.
      unfold total_len in *. cbn [fold_right]. lia.
Qed.

(** Without a truthy destination the loop never touches [fd]. *)
Lemma stream_loop_no_write chunks : forall fd n st fd' n' st',
  truthy write_to = false ->
  stream_loop e write_to callback block_size total_size chunks fd n st
  = (Return (fd', n'), st') ->
  fd' = fd /\ files st' = files st.
Proof.
  induction chunks as [|data rest IH]; intros fd n st fd' n' st' Hf H.
  - cbn in H. injection H as <- <- <-. auto.
  - cbn [stream_loop] in H. unfold bind in H.
    pose proof (call_files data st) as Hfiles.
    destruct (call callback data block_size total_size st) as [[[]|ex] s1];
      [|discriminate].
    rewrite Hf in H. cbn in H. apply IH in H; [|assumption].
    cbn in Hfiles. destruct H. split; congruence.
Qed.

End StreamFacts.

Section StreamFileFacts.

Context {S : Type}.
Variable e : env.
Variable callback : option (@callback_t S).
Variables (block_size total_size : Z).
Variable p : string.
Hypothesis p_nonempty : p <> "".

Lemma truthy_path : truthy (Some p) = true.
Proof.
  cbn. destruct (String.eqb_spec p ""); [contradiction|reflexivity].
Qed.

Lemma set_file_last (pre : list file_object) (f g : file_object)
      (s : S) :
  set_file (List.length pre) g (mkIO s (pre ++ [f])%list)
  = mkIO s (pre ++ [g])%list.
Proof.
  unfold set_file. cbn [cb_state files]. f_equal.
  rewrite firstn_app, firstn_all, Nat.sub_diag. cbn [firstn].
  rewrite app_nil_r. f_equal. f_equal.
  rewrite skipn_all2; [reflexivity|].
  rewrite length_app. cbn. lia.
Qed.

Lemma nth_error_last (pre : list file_object) (f : file_object) :
  nth_error (pre ++ [f]) (List.length pre) = Some f.
Proof.
  rewrite nth_error_app2 by lia. rewrite Nat.sub_diag. reflexivity.
Qed.

(** Closing the open file opened last: the handle is closed whether
    the flush fails or not. *)
Lemma fd_close_last (pre : list file_object) (w : list byte) (s : S) :
  fd_close e (FdFile (List.length pre))
           (mkIO s (pre ++ [mkFile p false w])%list)
  = (match close_error e (mkFile p false w) with
     | Some ex => Raise ex
     | None => Return (FdFile (List.length pre))
     end,
     mkIO s (pre ++ [mkFile p true w])%list).
Proof.
  unfold fd_close. cbn [files]. rewrite nth_error_last.
  cbn [f_closed f_path f_written]. rewrite set_file_last.
  destruct (close_error e (mkFile p false w)); reflexivity.
Qed.

(** While the body is streamed into the file opened last, that file
    stays open; if the loop ends normally it holds the chunks in
    order. *)
Lemma stream_loop_file chunks : forall pre w n st,
  files st = (pre ++ [mkFile p false w])%list ->
  let r := stream_loop e (Some p) callback block_size total_size chunks
                       (FdFile (List.length pre)) n st in
  exists w',
    files (snd r) = (pre ++ [mkFile p false w'])%list
    /\ forall fd' n', fst r = Return (fd', n') ->
                      fd' = FdFile (List.length pre)
                      /\ w' = (w ++ List.concat chunks)%list.
Proof.
  induction chunks as [|data rest IH]; intros pre w n st Hfiles r; subst r.
  - exists w. cbn. split; [assumption|].
    intros fd' n' [= <- <-]. rewrite app_nil_r. auto.
  - cbn [stream_loop]. unfold bind.
    pose proof (call_files callback block_size total_size data st) as Hcf.
    destruct (call callback data block_size total_size st)
      as [[[]|ex] s1] eqn:Hcall; cbn [snd] in Hcf.
    2:{ exists w. cbn. split; [congruence|discriminate]. }
    rewrite truthy_path. unfold fd_write.
    rewrite Hcf, Hfiles, nth_error_last. cbn [f_closed f_path f_written].
    destruct (write_error e (mkFile p false w) data) as [ex|] eqn:Hwe.
    { exists w. cbn. split; [congruence|discriminate]. }
    destruct s1 as [s1 fs1]. cbn [files] in Hcf. subst fs1.
    rewrite Hfiles, set_file_last.
    destruct (IH pre (w ++ data)%list (n + len data)
                 (mkIO s1 (pre ++ [mkFile p false (w ++ data)])%list)
                 eq_refl) as (w' & Hw' & Hret).
    exists w'. split; [exact Hw'|].
    intros fd' n' Hr. destruct (Hret fd' n' Hr) as [-> ->].
    split; [reflexivity|]. cbn [List.concat]. rewrite app_assoc. reflexivity.
Qed.

End StreamFileFacts.

Section StreamTransferFacts.

Context {S : Type}.
Variable e : env.
Variable callback : option (@callback_t S).
Variable url : string.
Variable block_size : Z.

(** What a completed transfer without destination leaves behind. *)
Lemma stream_transfer_no_dest st t d fd st1 :
  stream_transfer e url None callback block_size st
  = (Return (t, d, fd), st1) ->
  exists req,
    session_get e stream_session url = Return req
    /\ declared_size req = Return t
    /\ d = total_len (fst (iter_content req block_size))
    /\ fd = FdBytesIO (mkBytesIO [] 0)
    /\ files st1 = files st.
Proof.
  unfold stream_transfer, bind, lift, declared_size.
  destruct (session_get e stream_session url) as [req|ex]; [|discriminate].
  destruct (raise_for_status req) as [[]|ex]; [|discriminate].
  destruct (match content_length req with
            | Some v => py_int v | None => Return 0 end) as [t0|ex]
    eqn:Hdecl; [|discriminate].
  unfold ret at 1.
  destruct (stream_loop e None callback block_size t0
              (fst (iter_content req block_size))
              (FdBytesIO (mkBytesIO [] 0)) 0 st)
    as [[[fd1 d1]|ex] s1] eqn:Hloop; [|discriminate].
  destruct (snd (iter_content req block_size)) as [ex|]; [discriminate|].
  cbn [truthy fd_seek0]. unfold ret.
  pose proof Hloop as Hcount. apply stream_loop_count in Hcount.
  apply stream_loop_no_write in Hloop; [|reflexivity].
  destruct Hloop as [-> Hfiles].
  intros [= <- <- <- <-].
  exists req. repeat split; try assumption; try reflexivity; lia.
Qed.

(** What a completed transfer into a file leaves behind: the file is
    closed and holds the chunks in order. *)
Lemma stream_transfer_dest p st t d fd st1 :
  stream_transfer e url (Some p) callback block_size st
  = (Return (t, d, fd), st1) ->
  exists req,
    session_get e stream_session url = Return req
    /\ declared_size req = Return t
    /\ d = total_len (fst (iter_content req block_size))
    /\ p <> ""
    /\ files st1
       = (files st
            ++ [mkFile p true
                       (List.concat (fst (iter_content req block_size)))])%list.
Proof.
  unfold stream_transfer, bind, lift, declared_size.
  destruct (session_get e stream_session url) as [req|ex]; [|discriminate].
  destruct (raise_for_status req) as [[]|ex]; [|discriminate].
  destruct (match content_length req with
            | Some v => py_int v | None => Return 0 end) as [t0|ex]
    eqn:Hdecl; [|discriminate].
  unfold open_wb.
  destruct (String.eqb_spec p "") as [|Hp]; [discriminate|].
  destruct (open_error e p) as [ex|]; [discriminate|].
  set (st0 := mkIO (cb_state st) (files st ++ [mkFile p false []])%list).
  destruct (stream_loop_file e callback block_size t0 p Hp
              (fst (iter_content req block_size)) (files st) [] 0 st0
              eq_refl) as (w' & Hfiles & Hret).
  destruct (stream_loop e (Some p) callback block_size t0
              (fst (iter_content req block_size))
              (FdFile (List.length (files st))) 0 st0)
    as [[[fd1 d1]|ex] s1] eqn:Hloop; [|discriminate].
  pose proof Hloop as Hcount. apply stream_loop_count in Hcount.
  destruct (Hret fd1 d1 eq_refl) as [-> ->]. cbn [snd] in Hfiles.
  destruct (snd (iter_content req block_size)) as [ex|]; [discriminate|].
  rewrite (truthy_path p Hp).
  destruct s1 as [s1 fs1]. cbn [files] in Hfiles. subst fs1.
  rewrite (fd_close_last e p).
  destruct (close_error e (mkFile p false _)) as [ex|]; [discriminate|].
  unfold ret.
  intros [= <- <- <- <-].
  exists req. repeat split; try assumption; try reflexivity; lia.
Qed.

End StreamTransferFacts.

Section StreamOutcome.

Context {S : Type}.
Variable e : env.
Variable callback : option (@callback_t S).
Variable url : string.
Variable block_size : Z.

Lemma stream_unfold write_to st :
  stream e url write_to callback block_size st
  = match stream_transfer e url write_to callback block_size st with
    | (Return (total_size, total_downloaded, fd), st1) =>
        stream_validate write_to total_size total_downloaded fd st1
    | (Raise ex, st1) => (Raise ex, st1)
    end.
Proof.
  unfold stream, bind.
  destruct (stream_transfer e url write_to callback block_size st)
    as [[[[t d] fd]|ex] st1]; reflexivity.
Qed.

Lemma stream_validate_spec write_to total_size total_downloaded fd
      (st : io_state S) :
  (total_size <> 0 /\ total_downloaded <> total_size
   /\ stream_validate write_to total_size total_downloaded fd st
      = (Raise (AssertionError
                  (size_mismatch_msg total_downloaded total_size)), st))
  \/ ((total_size = 0 \/ total_downloaded = total_size)
      /\ exists d,
           stream_validate write_to total_size total_downloaded fd st
           = (Return (total_downloaded, d), st)).
Proof.
  unfold stream_validate, throw, ret.
  destruct (Z.eqb_spec total_size 0) as [H0|H0];
    destruct (Z.eqb_spec total_downloaded total_size) as [Hd|Hd]; cbn;
    first [ left; repeat split; assumption
          | right; split; [tauto|eexists; reflexivity] ].
Qed.

(** Without a destination, a successful call hands back an empty
    buffer with its cursor at the start, whatever was downloaded. *)
Lemma stream_no_dest_buffer st n d st1 :
  stream e url None callback block_size st = (Return (n, d), st1) ->
  d = DestFd (FdBytesIO (mkBytesIO [] 0))
  /\ exists req,
       session_get e stream_session url = Return req
       /\ n = total_len (fst (iter_content req block_size)).
Proof.
  rewrite stream_unfold.
  destruct (stream_transfer e url None callback block_size st)
    as [[[[t d0] fd]|ex] st0] eqn:Htr; [|discriminate].
  apply stream_transfer_no_dest in Htr.
  destruct Htr as (req & Hget & _ & Hd & -> & _).
  unfold stream_validate, throw, ret.
  destruct (negb (t =? 0) && negb (d0 =? t)); [discriminate|].
  intros [= <- <- <-]. split; [reflexivity|]. exists req. auto.
Qed.

(** With a file destination, whenever the body was streamed to its end
    the file is closed before [stream] returns or reports a mismatch. *)
Lemma stream_closes_file p st o st1 :
  stream e url (Some p) callback block_size st = (o, st1) ->
  (exists n d, o = Return (n, d))
  \/ (exists msg,
        o = Raise (AssertionError msg)
        /\ exists r st0,
             stream_transfer e url (Some p) callback block_size st
             = (Return r, st0)) ->
  exists data, files st1 = (files st ++ [mkFile p true data])%list.
Proof.
  rewrite stream_unfold.
  destruct (stream_transfer e url (Some p) callback block_size st)
    as [[[[t d0] fd]|ex] st0] eqn:Htr.
  - apply stream_transfer_dest in Htr.
    destruct Htr as (req & _ & _ & _ & _ & Hfiles).
    destruct (stream_validate_spec (Some p) t d0 fd st0)
      as [(_ & _ & ->)|(_ & d & ->)];
      intros [= <- <-] _; eexists; exact Hfiles.
  - intros [= <- <-] [(n & d & H)|(msg & _ & r & st2 & H)]; discriminate.
Qed.

End StreamOutcome.

(** C1.  Streaming a three-byte body without a destination succeeds
    and reports three bytes, yet the buffer handed back is empty: the
    loop writes to [fd] only under [if write_to:].  Its cursor is at the
    start, and reading it does not give the downloaded bytes. *)
Theorem C1_buffer_left_empty :
  exists b,
    fst (stream (serving (ok_response (Some "3") [abc])) "http://host/image"
                None (Some quiet) default_block_size (mkIO tt []))
    = Return (3, DestFd (FdBytesIO b))
    /\ tell b = 0
    /\ BytesIO_read b = []
    /\ BytesIO_read b <> List.concat [abc].
Proof.
  exists (mkBytesIO [] 0). repeat split; try reflexivity. discriminate.
Qed.


(** C5.  When the connection breaks in the middle of the body,
    [stream] lets the error through and the file object it opened is
    still open when the caller sees it: [fd.close()] sits after the
    loop, outside any [finally].  The same happens when the callback
    raises, as the default callback [None] does at the first chunk. *)
Theorem C5_file_left_open_on_error :
  stream (serving dropping) "http://host/image" (Some "out.img")
         (Some quiet) default_block_size (mkIO tt [])
  = (Raise (RequestException "connection broken"),
     mkIO tt [mkFile "out.img" false abc])
  /\ stream (serving (three_bytes "3")) "http://host/image"
            (Some "out.img") (@None (@callback_t unit))
            default_block_size (mkIO tt [])
     = (Raise TypeError, mkIO tt [mkFile "out.img" false []]).
Proof. split; reflexivity. Qed.

(** More generally: once the file is open, an exception that ends the
    transfer leaves it open, unless it is the size mismatch or comes
    from [fd.close()] itself, which closes the handle even when its
    flush fails. *)
Lemma stream_error_leaves_file_open {S : Type} (e : env) (url p : string)
      (callback : option (@callback_t S)) (block_size : Z)
      (st st1 : io_state S) (req : Response) (t : Z) (ex : exn) :
  session_get e stream_session url = Return req ->
  raise_for_status req = Return tt ->
  declared_size req = Return t ->
  p <> "" ->
  open_error e p = None ->
  stream e url (Some p) callback block_size st = (Raise ex, st1) ->
  (exists w, files st1 = (files st ++ [mkFile p false w])%list)
  \/ (exists w, files st1 = (files st ++ [mkFile p true w])%list
                /\ close_error e (mkFile p false w) = Some ex)
  \/ ex = AssertionError
            (size_mismatch_msg
               (total_len (fst (iter_content req block_size))) t).
Proof.
  intros Hget Hst Hdecl Hp Hopen. rewrite stream_unfold.
  destruct (stream_transfer e url (Some p) callback block_size st)
    as [[[[t0 d0] fd]|ex0] st0] eqn:Htr.
  - pose proof Htr as Htr'. apply stream_transfer_dest in Htr'.
    destruct Htr' as (req' & Hget' & Hdecl' & Hd & _).
    assert (req' = req) by congruence. subst req'.
    assert (t0 = t) by congruence. subst t0.
    destruct (stream_validate_spec (Some p) t d0 fd st0)
      as [(_ & _ & ->)|(_ & d & ->)]; [|discriminate].
    intros [= <- <-]. right. right. rewrite Hd. reflexivity.
  - intros [= <- <-]. revert Htr.
    unfold stream_transfer, bind, lift. rewrite Hget, Hst.
    unfold declared_size in Hdecl. rewrite Hdecl.
    unfold open_wb.
    destruct (String.eqb_spec p "") as [|_]; [contradiction|].
    rewrite Hopen.
    set (st0' := mkIO (cb_state st) (files st ++ [mkFile p false []])%list).
    destruct (stream_loop_file e callback block_size t p Hp
                (fst (iter_content req block_size)) (files st) [] 0 st0'
                eq_refl) as (w' & Hfiles & Hret).
    destruct (stream_loop e (Some p) callback block_size t
                (fst (iter_content req block_size))
                (FdFile (List.length (files st))) 0 st0')
      as [[[fd1 d1]|ex1] s1]; cbn [snd] in Hfiles.
    + destruct (snd (iter_content req block_size)) as [ex2|].
      * intros [= <- <-]. left. exists w'. assumption.
      * destruct (Hret fd1 d1 eq_refl) as [-> _].
        rewrite (truthy_path p Hp).
        destruct s1 as [s1 fs1]. cbn [files] in Hfiles. subst fs1.
        rewrite (fd_close_last e p).
        destruct (close_error e (mkFile p false w')) as [ex3|] eqn:Hclose;
          [|discriminate].
        intros [= <- <-]. right. left. exists w'. auto.
    + intros [= <- <-]. left. exists w'. assumption.
Qed.

(** On a full disk the three bytes are buffered and the error comes
    from [fd.close()], which closes the handle all the same. *)
Lemma stream_full_disk :
  stream (serving_disk_full (three_bytes "3")) "http://host/image"
         (Some "out.img") (Some quiet) default_block_size (mkIO tt [])
  = (Raise (OSError 28), mkIO tt [mkFile "out.img" true abc]).
Proof. reflexivity. Qed.

(** ** The hook when print may fail *)

(** On a standard output that takes every line, the hook is
    [reporthook]. *)
Lemma reporthook_io_ok perr chunk chunk_size total_size st :
  (forall out text, perr out text = None) ->
  reporthook_io perr chunk chunk_size total_size st
  = reporthook chunk chunk_size total_size st.
Proof.
  intros Hok. unfold reporthook_io, reporthook.
  destruct (compute_line _ _ total_size) as [line|ex]; [|reflexivity].
  destruct (line_ne line _); [|reflexivity].
  cbv zeta. rewrite Hok. reflexivity.
Qed.

(** A call that returns has done what [reporthook] does. *)
Lemma reporthook_io_return perr chunk chunk_size total_size st st' :
  reporthook_io perr chunk chunk_size total_size st = (Return tt, st') ->
  reporthook chunk chunk_size total_size st = (Return tt, st').
Proof.
  unfold reporthook_io, reporthook.
  destruct (compute_line _ _ total_size) as [line|ex]; [|discriminate].
  destruct (line_ne line _); [|auto].
  cbv zeta. destruct (perr _ line); [discriminate|auto].
Qed.

Lemma reporthook_io_appends perr chunk chunk_size total_size hs :
  exists lines,
    stdout (snd (reporthook_io perr chunk chunk_size total_size hs))
    = (stdout hs ++ lines)%list.
Proof.
  unfold reporthook_io.
  destruct (compute_line _ _ total_size) as [line|ex].
  - destruct (line_ne line _).
    + cbv zeta. destruct (perr _ line).
      * exists []. cbn. rewrite app_nil_r. reflexivity.
      * exists [line]. reflexivity.
    + exists []. cbn. rewrite app_nil_r. reflexivity.
  - exists []. cbn. rewrite app_nil_r. reflexivity.
Qed.

(** [ReportHook()]: the empty bar is printed, or what [print] raises
    leaves the constructor. *)
Lemma fresh_hook_io_eq perr out :
  ReportHook_init_io perr out
  = match perr out empty_bar with
    | Some ex =>
        (Raise ex, mkHookState (mkReportHook 0 60 (Some empty_bar)) out)
    | None => (Return tt, fresh_hook out)
    end.
Proof.
  unfold fresh_hook. rewrite fresh_hook_eq. cbn [snd].
  unfold ReportHook_init_io, reporthook_io, add_chunk.
  cbn [chunk_ne_0 Z.eqb negb hook _current_size width _last_line stdout].
  rewrite empty_bar_computed. cbn [line_ne]. cbv zeta.
  destruct (perr out empty_bar); reflexivity.
Qed.

(** ** download_file *)

(** C3.  [download_file] turns everything the fetch raises into
    [(False, exp)] and otherwise gives [(True, size)], as long as
    [print] works: with a standard output that takes every text it
    always returns, [(True, size)] when [stream] returned [size] and
    [(False, exp)] when [stream] raised [exp].  What leaves it is what
    [print] raises: for the empty bar, drawn before the [try], or for
    the text of the exception, printed inside the handler. *)
Theorem C3_download_file_total (e : env) (url fpath : string) (w : world) :
  let r := fst (download_file e url fpath w) in
  let run :=
    stream e url (Some fpath)
           (Some (reporthook_io (print_error e) : callback_t))
           default_block_size
           (mkIO (fresh_hook (w_stdout w)) (w_files w)) in
  let out := stdout (cb_state (snd run)) in
  ((forall out text, print_error e out text = None) ->
   match fst run with
   | Return (size, _) => r = Return (true, Size size)
   | Raise exp => r = Return (false, Error exp)
   end)
  /\ (forall ex,
         r = Raise ex ->
         print_error e (w_stdout w) empty_bar = Some ex
         \/ exists exp,
              fst run = Raise exp
              /\ print_error e out (str_of_exn e exp) = Some ex)
  /\ (forall size,
         r = Return (true, Size size) <->
         print_error e (w_stdout w) empty_bar = None
         /\ exists d, fst run = Return (size, d))
  /\ (forall exp,
         r = Return (false, Error exp) <->
         print_error e (w_stdout w) empty_bar = None
         /\ fst run = Raise exp
         /\ print_error e out (str_of_exn e exp) = None).
Proof.
  cbv zeta. unfold download_file. rewrite fresh_hook_io_eq.
  destruct (print_error e (w_stdout w) empty_bar) as [ex0|] eqn:Hinit;
    cbn [fst].
  - split; [intros Hok; rewrite Hok in Hinit; discriminate|].
    split; [intros ex [= <-]; left; reflexivity|].
    split; intros x; (split; [discriminate|intros [[=] _]]).
  - destruct (stream e url (Some fpath) _ default_block_size _)
      as [[[size path]|exp] st]; cbn [fst snd].
    + split; [reflexivity|]. split; [discriminate|].
      split; intros x.
      * split; [intros [= <-]; eauto|intros (_ & d & [= <- _]); reflexivity].
      * split; [discriminate|intros (_ & [=] & _)].
    + destruct (print_error e (stdout (cb_state st)) (str_of_exn e exp))
        as [ex1|] eqn:Hprint; cbn [fst].
      * split; [intros Hok; rewrite Hok in Hprint; discriminate|].
        split; [intros ex [= <-]; right; eauto|].
        split; intros x.
        -- split; [discriminate|intros (_ & d & [=])].
        -- split; [discriminate|intros (_ & [= <-] & Hx)]. congruence.
      * split; [reflexivity|]. split; [discriminate|].
        split; intros x.
        -- split; [discriminate|intros (_ & d & [=])].
        -- split; [intros [= <-]; auto|intros (_ & [= <-] & _); reflexivity].
Qed.

(** C3, refuted as written: on a standard output encoded in ASCII, a
    URL that the transport refuses with a message quoting its U+00E9
    makes [print(exp)] raise inside the handler, and [download_file]
    raises [UnicodeEncodeError] instead of returning a pair. *)
Lemma C3_counterexample :
  fst (download_file ascii_stdout bad_port_url "out.img" (mkWorld [] []))
  = Raise UnicodeEncodeError.
Proof. vm_compute. reflexivity. Qed.

(** ** The retry policy *)

Section StreamEnv.

Context {S : Type}.
Variables e1 e2 : env.
Hypothesis same_open : forall p, open_error e1 p = open_error e2 p.
Hypothesis same_write :
  forall f data, write_error e1 f data = write_error e2 f data.
Hypothesis same_close : forall f, close_error e1 f = close_error e2 f.

Lemma fd_write_env fd data (st : io_state S) :
  fd_write e1 fd data st = fd_write e2 fd data st.
Proof.
  unfold fd_write. destruct fd as [idx|b]; [|reflexivity].
  destruct (nth_error (files st) idx) as [f|]; [|reflexivity].
  rewrite same_write. reflexivity.
Qed.

Lemma fd_close_env fd (st : io_state S) :
  fd_close e1 fd st = fd_close e2 fd st.
Proof.
  unfold fd_close. destruct fd as [idx|b]; [|reflexivity].
  destruct (nth_error (files st) idx) as [f|]; [|reflexivity].
  rewrite same_close. reflexivity.
Qed.

Lemma stream_loop_env write_to (callback : option (@callback_t S))
      block_size total_size chunks : forall fd n st,
  stream_loop e1 write_to callback block_size total_size chunks fd n st
  = stream_loop e2 write_to callback block_size total_size chunks fd n st.
Proof.
  induction chunks as [|data rest IH]; intros fd n st; [reflexivity|].
  cbn [stream_loop]. unfold bind.
  destruct (call callback data block_size total_size st) as [[[]|ex] s1];
    [|reflexivity].
  destruct (truthy write_to).
  - rewrite fd_write_env.
    destruct (fd_write e2 fd data s1) as [[fd1|ex] s2]; [|reflexivity].
    apply IH.
  - unfold ret. apply IH.
Qed.

(** Of the transport, [stream] sees only what its session gets for the
    URL. *)
Lemma stream_env url write_to (callback : option (@callback_t S))
      block_size st :
  session_get e1 stream_session url = session_get e2 stream_session url ->
  stream e1 url write_to callback block_size st
  = stream e2 url write_to callback block_size st.
Proof.
  intros Hget. unfold stream, stream_transfer, bind, lift.
  rewrite Hget.
  destruct (session_get e2 stream_session url) as [req|ex]; [|reflexivity].
  destruct (raise_for_status req) as [[]|ex]; [|reflexivity].
  destruct (match content_length req with
            | Some v => py_int v | None => Return 0 end) as [t|ex];
    [|reflexivity].
  assert (Hopen : forall p, open_wb e1 p st = open_wb (S:=S) e2 p st).
  { intros p. unfold open_wb. rewrite same_open. reflexivity. }
  destruct write_to as [p|].
  - rewrite Hopen.
    destruct (open_wb e2 p st) as [[fd|ex] s0]; [|reflexivity].
    rewrite stream_loop_env.
    destruct (stream_loop e2 (Some p) callback block_size t
                          (fst (iter_content req block_size)) fd 0 s0)
      as [[[fd1 d1]|ex] s1]; [|reflexivity].
    destruct (snd (iter_content req block_size)); [reflexivity|].
    destruct (truthy (Some p)); [rewrite fd_close_env|]; reflexivity.
  - unfold ret. rewrite stream_loop_env. reflexivity.
Qed.

End StreamEnv.

Lemma stream_session_eq :
  stream_session
  = [("https://", default_adapter); ("http://", default_adapter);
     ("http", mkHTTPAdapter stream_retries)].
Proof. reflexivity. Qed.

(** For a URL that starts with [http://] or [https://], in any case, the
    session of [stream] selects a default adapter: these prefixes are
    longer than ["http"] and are tried before it. *)
Lemma get_adapter_http url rest :
  lower url = "http://" ++ rest \/ lower url = "https://" ++ rest ->
  get_adapter stream_session url = Some default_adapter.
Proof.
  intros Hurl. rewrite stream_session_eq. unfold get_adapter.
  cbn [find fst snd].
  change (lower "https://") with "https://".
  change (lower "http://") with "http://".
  destruct Hurl as [-> | ->]; reflexivity.
Qed.

(** C6.  [stream] builds a policy with total, connect and read budgets
    of 6, a status budget of 2, backoff factor 30, [redirect=False] and
    the status list 413, 429, 500, 502, 503, 504, and mounts it under
    the prefix ["http"].  The session tries its default adapters for
    ["https://"] and ["http://"] first, so for every URL prepared with
    one of these schemes the request is sent under the default policy, which
    retries nothing, and what the transport would do under the mounted
    policy has no influence on [stream].  A server that answers 503 at
    first and the body when asked again makes [stream] raise the 503,
    although 503 is on the list. *)
Theorem C6_retry_policy_shadowed :
  stream_retries
  = Retry.Build (Some (PyInt 6)) (Some (PyInt 6)) (Some (PyInt 6))
                (Some (PyInt 2)) (Some (PyBool false)) 30
                [413; 429; 500; 502; 503; 504]
  /\ stream_session
     = [("https://", default_adapter); ("http://", default_adapter);
        ("http", mkHTTPAdapter stream_retries)]
  /\ default_adapter
     = mkHTTPAdapter
         (Retry.Build (Some (PyInt 0)) None (Some (PyBool false)) None None
                      0 [])
  /\ (forall (e : env) url prepared rest,
         prepare_url e url = Return prepared ->
         lower prepared = "http://" ++ rest
         \/ lower prepared = "https://" ++ rest ->
         session_get e stream_session url = send e default_adapter prepared)
  /\ (forall (S : Type) (e1 e2 : env) url prepared rest write_to
             (callback : option (@callback_t S)) block_size st,
         prepare_url e1 url = Return prepared ->
         prepare_url e2 url = Return prepared ->
         lower prepared = "http://" ++ rest
         \/ lower prepared = "https://" ++ rest ->
         (forall p, open_error e1 p = open_error e2 p) ->
         (forall f data, write_error e1 f data = write_error e2 f data) ->
         (forall f, close_error e1 f = close_error e2 f) ->
         send e1 default_adapter prepared = send e2 default_adapter prepared ->
         stream e1 url write_to callback block_size st
         = stream e2 url write_to callback block_size st)
  /\ send (busy_at_first (three_bytes "3")) (mkHTTPAdapter stream_retries)
          "http://host/image"
     = Return (three_bytes "3")
  /\ stream (busy_at_first (three_bytes "3")) "http://host/image"
            (Some "out.img") (Some quiet) default_block_size (mkIO tt [])
     = (Raise (HTTPError 503), mkIO tt []).
Proof.
  split; [reflexivity|]. split; [reflexivity|]. split; [reflexivity|].
  assert (Hget : forall (e : env) url prepared rest,
             prepare_url e url = Return prepared ->
             lower prepared = "http://" ++ rest
             \/ lower prepared = "https://" ++ rest ->
             session_get e stream_session url
             = send e default_adapter prepared).
  { intros e url prepared rest Hprep Hurl. unfold session_get.
    rewrite Hprep. cbn [obind].
    rewrite (get_adapter_http prepared rest Hurl). reflexivity. }
  split; [exact Hget|]. split; [|split; reflexivity].
  intros S e1 e2 url prepared rest write_to callback block_size st
         Hp1 Hp2 Hurl Ho Hw Hc Hs.
  apply stream_env; try assumption.
  rewrite (Hget e1 url prepared rest Hp1 Hurl),
          (Hget e2 url prepared rest Hp2 Hurl).
  exact Hs.
Qed.

(** ** get_sdcard_bytes *)

(** C4.  On macOS, when neither [/sbin/fdisk] nor [diskutil] can be
    started, the first failure is logged and absorbed but the second
    escapes: [get_sdcard_bytes] raises instead of returning 0. *)
Theorem C4_diskutil_failure_escapes :
  get_sdcard_bytes darwin_without_tools "/dev/disk2"
  = (Raise FileNotFoundError, [FileNotFoundError]).
Proof. reflexivity. Qed.

(** Away from macOS the probe never raises, and it answers 0 exactly
    when the [fdisk] strategy fails. *)
Lemma get_sdcard_bytes_elsewhere (pe : probe_env) (sdcard_path : string) :
  sys_platform pe <> "darwin" ->
  match fdisk_probe pe sdcard_path with
  | Return n => get_sdcard_bytes pe sdcard_path = (Return n, [])
  | Raise exp => get_sdcard_bytes pe sdcard_path = (Return 0, [exp])
  end.
Proof.
  intros Hp. unfold get_sdcard_bytes.
  destruct (fdisk_probe pe sdcard_path) as [n|exp]; [reflexivity|].
  destruct (String.eqb_spec (sys_platform pe) "darwin");
    [contradiction|reflexivity].
Qed.

(** ** Binary64 arithmetic *)

Module Binary64.


Lemma fexp_eq x : fexp PyFloat.prec PyFloat.emax x = Z.max (x - 53) (-1074).
Proof. reflexivity. Qed.

Lemma digits2_pos_bounds p :
  2 ^ (Z.pos (digits2_pos p) - 1) <= Z.pos p < 2 ^ Z.pos (digits2_pos p).
Proof.
  induction p as [p IH|p IH|]; cbn [digits2_pos].
  - rewrite Pos2Z.inj_succ.
    replace (Z.succ (Z.pos (digits2_pos p)) - 1)
      with (Z.succ (Z.pos (digits2_pos p) - 1)) by lia.
    rewrite !Z.pow_succ_r by lia. lia.
  - rewrite Pos2Z.inj_succ.
    replace (Z.succ (Z.pos (digits2_pos p)) - 1)
      with (Z.succ (Z.pos (digits2_pos p) - 1)) by lia.
    rewrite !Z.pow_succ_r by lia. lia.
  - cbn. lia.
Qed.

Lemma Zdigits2_bounds m :
  0 < m -> 2 ^ (Zdigits2 m - 1) <= m < 2 ^ Zdigits2 m.
Proof.
  destruct m as [|p|p]; try lia. intros _. apply digits2_pos_bounds.
Qed.

Lemma Zdigits2_nonneg m : 0 <= Zdigits2 m.
Proof. destruct m; cbn; lia. Qed.

Lemma Zdigits2_pos m : 0 < m -> 0 < Zdigits2 m.
Proof. destruct m; cbn; lia. Qed.

(** A number below [2 ^ k] has at most [k] digits. *)
Lemma Zdigits2_le m k : 0 <= k -> 0 <= m < 2 ^ k -> Zdigits2 m <= k.
Proof.
  intros Hk [H0 Hm]. destruct (Z.eq_dec m 0) as [->|Hne]; [cbn; lia|].
  destruct (Zdigits2_bounds m ltac:(lia)) as [Hlo _].
  destruct (Z_le_gt_dec (Zdigits2 m) k) as [|Hgt]; [assumption|].
  assert (2 ^ k <= 2 ^ (Zdigits2 m - 1)) by (apply Z.pow_le_mono_r; lia).
  lia.
Qed.

(** A number of at least [2 ^ k] has more than [k] digits. *)
Lemma Zdigits2_gt m k : 0 <= k -> 2 ^ k <= m -> k < Zdigits2 m.
Proof.
  intros Hk Hm.
  assert (0 < 2 ^ k) by (apply Z.pow_pos_nonneg; lia).
  destruct (Zdigits2_bounds m ltac:(lia)) as [_ Hhi].
  destruct (Z_lt_le_dec k (Zdigits2 m)) as [|Hle]; [assumption|].
  assert (2 ^ Zdigits2 m <= 2 ^ k)
    by (apply Z.pow_le_mono_r; [lia|assumption]).
  lia.
Qed.

(** ** Shifting right with round and sticky bits *)

Lemma shr_1_spec m r s :
  0 <= m ->
  shr_1 (Build_shr_record m r s)
  = Build_shr_record (m / 2) (Z.odd m) (r || s).
Proof.
  intros Hm. rewrite <- Z.div2_div.
  destruct m as [|[p|p|]|p]; try lia; reflexivity.
Qed.

Lemma iter_pos_nat {A} (f : A -> A) p : forall x,
  iter_pos f p x = Nat.iter (Pos.to_nat p) f x.
Proof.
  induction p as [p IH|p IH|]; intros x; cbn [iter_pos].
  - rewrite !IH. rewrite Pos2Nat.inj_xI.
    replace (S (2 * Pos.to_nat p))%nat
      with (Pos.to_nat p + (Pos.to_nat p + 1))%nat by lia.
    rewrite !Nat.iter_add. reflexivity.
  - rewrite !IH. rewrite Pos2Nat.inj_xO.
    replace (2 * Pos.to_nat p)%nat
      with (Pos.to_nat p + Pos.to_nat p)%nat by lia.
    rewrite Nat.iter_add. reflexivity.
  - reflexivity.
Qed.


Lemma mod_pow2_succ m k :
  0 <= k ->
  m mod 2 ^ (k + 1) = m mod 2 ^ k + 2 ^ k * ((m / 2 ^ k) mod 2).
Proof.
  intros Hk. rewrite Z.pow_add_r, Z.pow_1_r by lia.
  apply Z.rem_mul_r; [|lia].
  assert (0 < 2 ^ k) by (apply Z.pow_pos_nonneg; lia). lia.
Qed.

Lemma sticky_succ m k :
  0 <= k ->
  negb (m mod 2 ^ (k + 1) =? 0)
  = Z.odd (m / 2 ^ k) || negb (m mod 2 ^ k =? 0).
Proof.
  intros Hk. rewrite mod_pow2_succ by assumption.
  assert (Hp : 0 < 2 ^ k) by (apply Z.pow_pos_nonneg; lia).
  pose proof (Z.mod_pos_bound m (2 ^ k) Hp) as Hb.
  rewrite Zmod_odd.
  destruct (Z.odd (m / 2 ^ k)); cbn [orb].
  - destruct (Z.eqb_spec (m mod 2 ^ k + 2 ^ k * 1) 0); [lia|reflexivity].
  - rewrite Z.mul_0_r, Z.add_0_r. reflexivity.
Qed.

Lemma iter_shr_1 n : forall rc,
  0 <= shr_m rc ->
  Nat.iter (S n) shr_1 rc = shifted rc (Z.of_nat (S n)).
Proof.
  induction n as [|n IH]; intros [m r s] Hm; cbn [shr_m] in Hm.
  - cbn [Nat.iter nat_rect]. rewrite shr_1_spec by assumption.
    unfold shifted. cbn [shr_m shr_r shr_s Z.of_nat Pos.of_succ_nat].
    cbn [Z.sub Z.add Z.opp Z.pos_sub]. rewrite Z.pow_0_r, Z.pow_1_r.
    rewrite Z.div_1_r, Z.mod_1_r. reflexivity.
  - change (Nat.iter (S (S n)) shr_1 (Build_shr_record m r s))
      with (shr_1 (Nat.iter (S n) shr_1 (Build_shr_record m r s))).
    rewrite IH by assumption. unfold shifted. cbn [shr_m shr_r shr_s].
    assert (Hp : 0 < 2 ^ Z.of_nat (S n)) by (apply Z.pow_pos_nonneg; lia).
    rewrite shr_1_spec by (apply Z.div_pos; lia).
    replace (Z.of_nat (S (S n))) with (Z.of_nat (S n) + 1) by lia.
    replace (Z.of_nat (S n) + 1 - 1) with (Z.of_nat (S n)) by lia.
    f_equal.
    + rewrite Z.pow_add_r, Z.pow_1_r by lia.
      rewrite Z.div_div by lia. reflexivity.
    + set (k := Z.of_nat (S n) - 1).
      replace (Z.of_nat (S n)) with (k + 1) by (unfold k; lia).
      rewrite sticky_succ by (unfold k; lia).
      rewrite orb_assoc. reflexivity.
Qed.

Lemma shr_spec rc e n :
  0 <= shr_m rc ->
  shr rc e n = if 0 <? n then (shifted rc n, e + n) else (rc, e).
Proof.
  intros Hm. destruct n as [|p|p]; try reflexivity.
  cbn [shr Z.ltb Z.compare]. rewrite iter_pos_nat.
  destruct (Pos2Nat.is_succ p) as [k Hk]. rewrite Hk.
  rewrite iter_shr_1 by assumption. rewrite <- Hk.
  rewrite positive_nat_Z. reflexivity.
Qed.

Lemma round_nearest_even_record rc :
  round_nearest_even (shr_m rc) (loc_of_shr_record rc) = round_record rc.
Proof.
  destruct rc as [m r s]. unfold round_record. cbn [shr_m shr_r shr_s].
  rewrite <- Z.negb_even.
  destruct r, s; cbn; try (destruct (Z.even m); cbn); lia.
Qed.


Lemma shr_m_of_loc m l : shr_m (shr_record_of_loc m l) = m.
Proof. destruct l as [|[]]; reflexivity. Qed.

Lemma loc_of_record_of_loc m l :
  loc_of_shr_record (shr_record_of_loc m l) = l.
Proof. destruct l as [|[]]; reflexivity. Qed.

Lemma round_record_bounds rc :
  shr_m rc <= round_record rc <= shr_m rc + 1.
Proof.
  unfold round_record.
  destruct (shr_r rc && (shr_s rc || Z.odd (shr_m rc))); lia.
Qed.

Lemma round_parts_bounds m e l :
  0 <= m ->
  0 <= fst (round_parts m e l) <= 2 ^ 53
  /\ -1074 <= snd (round_parts m e l).
Proof.
  intros Hm. unfold round_parts. rewrite fexp_eq.
  set (d := Zdigits2 m).
  assert (Hd : 0 <= d) by apply Zdigits2_nonneg.
  assert (Hlt : m < 2 ^ d).
  { destruct (Z.eq_dec m 0) as [->|]; [cbn; lia|].
    apply Zdigits2_bounds. lia. }
  destruct (Z.ltb_spec 0 (Z.max (d + e - 53) (-1074) - e)) as [Hn|Hn];
    cbn [fst snd].
  - set (n := Z.max (d + e - 53) (-1074) - e) in *.
    pose proof (round_record_bounds (shifted (shr_record_of_loc m l) n))
      as Hb.
    assert (Hs : shr_m (shifted (shr_record_of_loc m l) n) = m / 2 ^ n).
    { unfold shifted. cbn [shr_m]. rewrite shr_m_of_loc. reflexivity. }
    rewrite Hs in Hb.
    assert (Hp : 0 < 2 ^ n) by (apply Z.pow_pos_nonneg; lia).
    assert (H1 : 0 <= m / 2 ^ n) by (apply Z.div_pos; lia).
    assert (H2 : m / 2 ^ n < 2 ^ 53).
    { apply Z.div_lt_upper_bound; [lia|].
      rewrite <- Z.pow_add_r by lia.
      eapply Z.lt_le_trans; [exact Hlt|].
      apply Z.pow_le_mono_r; lia. }
    lia.
  - pose proof (round_record_bounds (shr_record_of_loc m l)) as Hb.
    rewrite shr_m_of_loc in Hb.
    assert (H2 : m < 2 ^ 53).
    { eapply Z.lt_le_trans; [exact Hlt|].
      apply Z.pow_le_mono_r; lia. }
    lia.
Qed.

(** [binary_round_aux], read arithmetically: after the first rounding
    the mantissa is renormalised only when it reached [2 ^ 53]. *)
Lemma binary_round_aux_eq sx m e l :
  0 <= m ->
  binary_round_aux PyFloat.prec PyFloat.emax sx m e l
  = let '(m2, e1) := round_parts m e l in
    if m2 =? 2 ^ 53 then
      if e1 + 1 <=? 971 then S754_finite sx (2 ^ 52) (e1 + 1)
      else S754_infinity sx
    else match m2 with
         | Z0 => S754_zero sx
         | Zpos p => if e1 <=? 971 then S754_finite sx p e1
                     else S754_infinity sx
         | Zneg _ => S754_nan
         end.
Proof.
  intros Hm.
  pose proof (round_parts_bounds m e l Hm) as [Hm2 He1].
  unfold binary_round_aux, shr_fexp.
  rewrite shr_spec by (rewrite shr_m_of_loc; assumption).
  unfold round_parts in *.
  set (n := fexp PyFloat.prec PyFloat.emax (Zdigits2 m + e) - e) in *.
  set (rc := if 0 <? n then shifted (shr_record_of_loc m l) n
             else shr_record_of_loc m l).
  assert (Hrc : (if 0 <? n
                 then (shifted (shr_record_of_loc m l) n, e + n)
                 else (shr_record_of_loc m l, e))
                = (rc, if 0 <? n then e + n else e)).
  { unfold rc. destruct (0 <? n); reflexivity. }
  rewrite Hrc. clear Hrc.
  rewrite round_nearest_even_record.
  assert (Hparts : (if 0 <? n
                    then (round_record (shifted (shr_record_of_loc m l) n),
                          e + n)
                    else (round_record (shr_record_of_loc m l), e))
                   = (round_record rc, if 0 <? n then e + n else e)).
  { unfold rc. destruct (0 <? n); reflexivity. }
  rewrite Hparts in *. clear Hparts. cbn [fst snd] in Hm2, He1.
  set (m2 := round_record rc) in *.
  set (e1 := if 0 <? n then e + n else e) in *.
  rewrite shr_spec by (cbn; lia). rewrite fexp_eq.
  destruct (Z.eqb_spec m2 (2 ^ 53)) as [Heq|Hne].
  - rewrite Heq.
    change (Zdigits2 (2 ^ 53)) with 54.
    replace (Z.max (54 + e1 - 53) (-1074) - e1) with 1 by lia.
    cbn [Z.ltb Z.compare]. unfold shifted. cbn [shr_m shr_r shr_s fst snd].
    change (2 ^ 53 / 2 ^ 1) with (Z.pos (2 ^ 52)).
    cbv beta iota. reflexivity.
  - assert (Hd2 : Zdigits2 m2 <= 53) by (apply Zdigits2_le; lia).
    destruct (Z.ltb_spec 0 (Z.max (Zdigits2 m2 + e1 - 53) (-1074) - e1));
      [lia|].
    cbn [shr_m shr_r shr_s fst snd]. reflexivity.
Qed.


(** ** What one rounding can return *)

Lemma binary_round_aux_cases m e l :
  0 <= m ->
  let x := binary_round_aux PyFloat.prec PyFloat.emax false m e l in
  small_nonneg x \/ x = S754_infinity false.
Proof.
  intros Hm x. subst x. rewrite binary_round_aux_eq by assumption.
  pose proof (round_parts_bounds m e l Hm) as [Hm2 _].
  destruct (round_parts m e l) as [m2 e1]. cbn [fst snd] in Hm2.
  destruct (Z.eqb_spec m2 (2 ^ 53)) as [_|Hne].
  - destruct (e1 + 1 <=? 971); [left; right|right; reflexivity].
    do 2 eexists. split; [reflexivity|]. reflexivity.
  - destruct m2 as [|p|p]; [left; left; reflexivity| |lia].
    destruct (e1 <=? 971); [left; right|right; reflexivity].
    do 2 eexists. split; [reflexivity|]. lia.
Qed.

(** ** Converting an integer *)

Lemma pos_iter_xO p d : Z.pos (Pos.iter xO p d) = Z.pos p * 2 ^ Z.pos d.
Proof.
  rewrite Pos2Nat.inj_iter. rewrite <- (positive_nat_Z d).
  induction (Pos.to_nat d) as [|k IH]; [cbn; lia|].
  cbn [nat_rect]. rewrite Pos2Z.inj_xO, IH.
  rewrite Nat2Z.inj_succ, Z.pow_succ_r by lia. ring.
Qed.

(** [float(n)] for a positive [n]: the aligned mantissa and exponent
    that enter the rounding. *)
Lemma binary_normalize_pos p :
  binary_normalize PyFloat.prec PyFloat.emax (Z.pos p) 0 false
  = let d := Z.pos (digits2_pos p) in
    if d <? 53
    then S754_finite false (Pos.iter xO p (Z.to_pos (53 - d))) (d - 53)
    else binary_round_aux PyFloat.prec PyFloat.emax false (Z.pos p) 0
                          loc_Exact.
Proof.
  cbv zeta. cbn [binary_normalize]. unfold binary_round, shl_align.
  rewrite fexp_eq.
  set (d := Z.pos (digits2_pos p)). assert (Hd : 0 < d) by (unfold d; lia).
  rewrite Z.add_0_r, Z.sub_0_r.
  destruct (Z.ltb_spec d 53) as [Hlt|Hge].
  - replace (Z.max (d - 53) (-1074)) with (d - 53) by lia.
    destruct (d - 53) as [|q|q] eqn:Hq; try lia.
    replace (Z.to_pos (53 - d)) with q by lia.
    rewrite binary_round_aux_eq by lia.
    unfold round_parts. rewrite fexp_eq.
    assert (Hdig : Zdigits2 (Z.pos (Pos.iter xO p q)) = 53).
    { pose proof (digits2_pos_bounds p) as Hb. fold d in Hb.
      assert (Hpow : 2 ^ d * 2 ^ Z.pos q = 2 ^ 53).
      { rewrite <- Z.pow_add_r by lia. f_equal. lia. }
      assert (Hpow' : 2 ^ (d - 1) * 2 ^ Z.pos q = 2 ^ 52).
      { rewrite <- Z.pow_add_r by lia. f_equal. lia. }
      assert (0 < 2 ^ Z.pos q) by (apply Z.pow_pos_nonneg; lia).
      apply Z.le_antisymm.
      - apply Zdigits2_le; [lia|]. rewrite pos_iter_xO. nia.
      - change 53 with (Z.succ 52). apply Z.le_succ_l.
        apply Zdigits2_gt; [lia|]. rewrite pos_iter_xO. nia. }
    rewrite Hdig.
    replace (Z.max (53 + Z.neg q - 53) (-1074) - Z.neg q) with 0 by lia.
    cbn [Z.ltb Z.compare]. unfold round_record.
    cbn [shr_record_of_loc shr_m shr_r shr_s andb]. rewrite Z.add_0_r.
    assert (Hlt53 : Z.pos (Pos.iter xO p q) < 2 ^ 53).
    { pose proof (Zdigits2_bounds (Z.pos (Pos.iter xO p q)) ltac:(lia)).
      rewrite Hdig in *. lia. }
    destruct (Z.eqb_spec (Z.pos (Pos.iter xO p q)) (2 ^ 53)); [lia|].
    destruct (Z.leb_spec (Z.neg q) 971); [reflexivity|lia].
  - destruct (Z.max (d - 53) (-1074)) as [|q|q] eqn:Hq; try lia;
      reflexivity.
Qed.

Lemma round_parts_int p :
  let z := Z.pos p in
  let d := Zdigits2 z in
  53 < d ->
  round_parts z 0 loc_Exact
  = (z / 2 ^ (d - 53)
     + (if Z.odd (z / 2 ^ (d - 54))
           && (negb (z mod 2 ^ (d - 54) =? 0)
               || Z.odd (z / 2 ^ (d - 53)))
        then 1 else 0),
     d - 53).
Proof.
  cbv zeta. intros Hd. unfold round_parts. rewrite fexp_eq.
  set (d := Zdigits2 (Z.pos p)) in *.
  replace (Z.max (d + 0 - 53) (-1074) - 0) with (d - 53) by lia.
  destruct (Z.ltb_spec 0 (d - 53)); [|lia].
  unfold round_record, shifted.
  cbn [shr_record_of_loc shr_m shr_r shr_s].
  replace (d - 53 - 1) with (d - 54) by lia.
  rewrite !orb_false_r. rewrite Z.add_0_l. reflexivity.
Qed.

Lemma pow2_split a b : 0 <= a -> 0 <= b -> 2 ^ (a + b) = 2 ^ a * 2 ^ b.
Proof. intros. apply Z.pow_add_r; assumption. Qed.

(** A positive integer converts to a positive float with a 53-bit
    mantissa, or overflows; it is never rounded to zero. *)
Lemma of_int_pos z :
  0 < z ->
  (exists p e, PyFloat.of_int z = Return (S754_finite false p e)
               /\ Z.pos p < 2 ^ 53)
  \/ PyFloat.of_int z = Raise OverflowError.
Proof.
  intros Hz. destruct z as [|p|p]; try lia. unfold PyFloat.of_int.
  rewrite binary_normalize_pos. cbv zeta.
  pose proof (digits2_pos_bounds p) as Hb.
  set (d := Z.pos (digits2_pos p)) in *.
  destruct (Z.ltb_spec d 53) as [Hlt|Hge].
  - left. do 2 eexists. split; [reflexivity|].
    rewrite pos_iter_xO.
    replace (Z.pos (Z.to_pos (53 - d))) with (53 - d) by lia.
    assert (Hpow : 2 ^ d * 2 ^ (53 - d) = 2 ^ 53).
    { rewrite <- Z.pow_add_r by lia. f_equal. lia. }
    assert (0 < 2 ^ (53 - d)) by (apply Z.pow_pos_nonneg; lia).
    nia.
  - rewrite binary_round_aux_eq by lia.
    pose proof (round_parts_bounds (Z.pos p) 0 loc_Exact ltac:(lia))
      as [Hm2 _].
    assert (Hpos : 0 < fst (round_parts (Z.pos p) 0 loc_Exact)).
    { unfold round_parts. rewrite fexp_eq.
      change (Zdigits2 (Z.pos p)) with d.
      destruct (Z.ltb_spec 0 (Z.max (d + 0 - 53) (-1074) - 0)) as [Hn|Hn];
        cbn [fst].
      - set (n := Z.max (d + 0 - 53) (-1074) - 0) in *.
        pose proof (round_record_bounds
                      (shifted (shr_record_of_loc (Z.pos p) loc_Exact) n))
          as Hr.
        unfold shifted in Hr at 1.
        cbn [shr_m shr_record_of_loc] in Hr |- *.
        assert (0 < Z.pos p / 2 ^ n); [|lia].
        apply Z.div_str_pos. split; [apply Z.pow_pos_nonneg; lia|].
        eapply Z.le_trans; [|apply Hb].
        apply Z.pow_le_mono_r; lia.
      - pose proof (round_record_bounds
                      (shr_record_of_loc (Z.pos p) loc_Exact)) as Hr.
        cbn [shr_m shr_record_of_loc] in Hr |- *. lia. }
    destruct (round_parts (Z.pos p) 0 loc_Exact) as [m2 e1].
    cbn [fst] in Hm2, Hpos.
    destruct (Z.eqb_spec m2 (2 ^ 53)) as [_|Hne].
    + destruct (e1 + 1 <=? 971); [left|right; reflexivity].
      do 2 eexists. split; reflexivity.
    + destruct m2 as [|q|q]; try lia.
      destruct (e1 <=? 971); [left|right; reflexivity].
      do 2 eexists. split; [reflexivity|lia].
Qed.


Lemma odd_half q : q = 2 * (q / 2) + (if Z.odd q then 1 else 0).
Proof. rewrite <- Zmod_odd. apply Z.div_mod. lia. Qed.

(** Below the limit the rounded mantissa fits its exponent range. *)
Lemma round_parts_int_small p :
  Z.pos p < int_limit ->
  53 <= Zdigits2 (Z.pos p) ->
  snd (round_parts (Z.pos p) 0 loc_Exact) <= 971
  /\ (fst (round_parts (Z.pos p) 0 loc_Exact) = 2 ^ 53 ->
      snd (round_parts (Z.pos p) 0 loc_Exact) + 1 <= 971).
Proof.
  intros Hlim Hd53.
  pose proof (round_parts_int p) as Hparts. cbv zeta in Hparts.
  set (z := Z.pos p) in *. set (d := Zdigits2 z) in *.
  assert (Hd : d <= 1024).
  { apply Zdigits2_le; [lia|]. unfold int_limit in Hlim.
    assert (0 < 2 ^ 970) by (apply Z.pow_pos_nonneg; lia). lia. }
  destruct (Z.eq_dec d 53) as [H53|H53].
  { unfold round_parts. rewrite fexp_eq. fold d. rewrite H53.
    destruct (Z.ltb_spec 0 (Z.max (53 + 0 - 53) (-1074) - 0)); [lia|].
    cbn [fst snd]. split; [lia|]. intros _. lia. }
  rewrite Hparts by lia. cbn [fst snd]. split; [lia|].
  intros Hm2. destruct (Z.eq_dec d 1024) as [H1024|]; [exfalso|lia].
  rewrite H1024 in Hm2.
  change (1024 - 53) with 971 in Hm2. change (1024 - 54) with 970 in Hm2.
  set (P := 2 ^ 970) in *.
  assert (HP : 0 < P) by (apply Z.pow_pos_nonneg; lia).
  assert (H971 : 2 ^ 971 = P * 2).
  { change 971 with (970 + 1). rewrite pow2_split by lia. reflexivity. }
  assert (Hlim' : z < (2 ^ 54 - 1) * P).
  { unfold int_limit in Hlim. change 1024 with (54 + 970) in Hlim.
    rewrite pow2_split in Hlim by lia. fold P in Hlim. lia. }
  rewrite H971 in Hm2. rewrite <- Z.div_div in Hm2 by lia.
  set (q := z / P) in *.
  assert (Hq : q <= 2 ^ 54 - 2).
  { assert (q < 2 ^ 54 - 1); [|lia].
    apply Z.div_lt_upper_bound; lia. }
  pose proof (odd_half q) as Hhalf.
  destruct (Z.odd q); cbn [andb] in Hm2.
  - destruct (negb (z mod P =? 0) || Z.odd (q / 2)); lia.
  - lia.
Qed.

Lemma round_parts_int_pos p :
  0 < fst (round_parts (Z.pos p) 0 loc_Exact).
Proof.
  pose proof (digits2_pos_bounds p) as Hb.
  set (d := Z.pos (digits2_pos p)) in *.
  unfold round_parts. rewrite fexp_eq.
  change (Zdigits2 (Z.pos p)) with d.
  destruct (Z.ltb_spec 0 (Z.max (d + 0 - 53) (-1074) - 0)) as [Hn|Hn];
    cbn [fst].
  - set (n := Z.max (d + 0 - 53) (-1074) - 0) in *.
    pose proof (round_record_bounds
                  (shifted (shr_record_of_loc (Z.pos p) loc_Exact) n))
      as Hr.
    unfold shifted in Hr at 1.
    cbn [shr_m shr_record_of_loc] in Hr |- *.
    assert (0 < Z.pos p / 2 ^ n); [|lia].
    apply Z.div_str_pos. split; [apply Z.pow_pos_nonneg; lia|].
    eapply Z.le_trans; [|apply Hb].
    apply Z.pow_le_mono_r; lia.
  - pose proof (round_record_bounds
                  (shr_record_of_loc (Z.pos p) loc_Exact)) as Hr.
    cbn [shr_m shr_record_of_loc] in Hr |- *. lia.
Qed.

(** Every positive integer below the limit converts. *)
Lemma of_int_small z :
  0 < z < int_limit ->
  exists p e, PyFloat.of_int z = Return (S754_finite false p e)
              /\ Z.pos p < 2 ^ 53.
Proof.
  intros [Hz Hlim].
  destruct (of_int_pos z Hz) as [H|Hover]; [exact H|exfalso].
  destruct z as [|p|p]; try lia. revert Hover. unfold PyFloat.of_int.
  rewrite binary_normalize_pos. cbv zeta.
  destruct (Z.ltb_spec (Z.pos (digits2_pos p)) 53) as [Hlt|Hge];
    [discriminate|].
  rewrite binary_round_aux_eq by lia.
  pose proof (round_parts_int_small p Hlim Hge) as [He1 He2].
  pose proof (round_parts_int_pos p) as Hpos.
  destruct (round_parts (Z.pos p) 0 loc_Exact) as [m2 e1].
  cbn [fst snd] in *.
  destruct (Z.eqb_spec m2 (2 ^ 53)) as [Heq|Hne].
  - specialize (He2 Heq).
    destruct (Z.leb_spec (e1 + 1) 971); [discriminate|lia].
  - destruct m2 as [|q|q]; try lia.
    destruct (Z.leb_spec e1 971); [discriminate|lia].
Qed.

(** From the limit on, the conversion overflows. *)
Lemma of_int_large z :
  int_limit <= z -> PyFloat.of_int z = Raise OverflowError.
Proof.
  intros Hlim.
  assert (HP : 0 < 2 ^ 970) by (apply Z.pow_pos_nonneg; lia).
  assert (H1023 : 2 ^ 1023 <= z).
  { unfold int_limit in Hlim. change 1024 with (1 + 1023) in Hlim.
    rewrite pow2_split in Hlim by lia.
    assert (2 ^ 970 <= 2 ^ 1023) by (apply Z.pow_le_mono_r; lia).
    change (2 ^ 1) with 2 in Hlim. lia. }
  assert (Hz : 0 < z).
  { assert (0 < 2 ^ 1023) by (apply Z.pow_pos_nonneg; lia). lia. }
  destruct z as [|p|p]; try lia.
  assert (Hd : 1024 <= Zdigits2 (Z.pos p)).
  { change 1024 with (Z.succ 1023). apply Z.le_succ_l.
    apply Zdigits2_gt; [lia|assumption]. }
  unfold PyFloat.of_int. rewrite binary_normalize_pos. cbv zeta.
  change (Z.pos (digits2_pos p)) with (Zdigits2 (Z.pos p)).
  destruct (Z.ltb_spec (Zdigits2 (Z.pos p)) 53); [lia|].
  rewrite binary_round_aux_eq by lia.
  pose proof (round_parts_int_pos p) as Hpos.
  pose proof (round_parts_int p ltac:(lia)) as Hparts. cbv zeta in Hparts.
  set (z := Z.pos p) in *. set (d := Zdigits2 z) in *.
  destruct (Z.eq_dec d 1024) as [H1024|Hbig].
  - rewrite H1024 in Hparts.
    change (1024 - 53) with 971 in Hparts.
    change (1024 - 54) with 970 in Hparts.
    set (P := 2 ^ 970) in *.
    assert (H971 : 2 ^ 971 = P * 2).
    { change 971 with (970 + 1). rewrite pow2_split by lia. reflexivity. }
    assert (Hlo : (2 ^ 54 - 1) * P <= z).
    { unfold int_limit in Hlim. change 1024 with (54 + 970) in Hlim.
      rewrite pow2_split in Hlim by lia. fold P in Hlim. lia. }
    assert (Hhi : z < 2 ^ 54 * P).
    { pose proof (Zdigits2_bounds z Hz) as [_ Hb]. fold d in Hb.
      rewrite H1024 in Hb. change 1024 with (54 + 970) in Hb.
      rewrite pow2_split in Hb by lia. exact Hb. }
    rewrite H971 in Hparts. rewrite <- Z.div_div in Hparts by lia.
    assert (Hq : z / P = 2 ^ 54 - 1).
    { apply Z.le_antisymm.
      - assert (z / P < 2 ^ 54); [|lia].
        apply Z.div_lt_upper_bound; lia.
      - apply Z.div_le_lower_bound; lia. }
    rewrite Hq in Hparts.
    change ((2 ^ 54 - 1) / 2) with (2 ^ 53 - 1) in Hparts.
    change (Z.odd (2 ^ 54 - 1)) with true in Hparts.
    change (Z.odd (2 ^ 53 - 1)) with true in Hparts.
    rewrite orb_true_r in Hparts. cbn [andb] in Hparts.
    rewrite Hparts.
    change (2 ^ 53 - 1 + 1 =? 2 ^ 53) with true. cbv iota.
    reflexivity.
  - rewrite Hparts in *. cbn [fst] in Hpos.
    match goal with |- context [?a =? 2 ^ 53] =>
      destruct (Z.eqb_spec a (2 ^ 53)) as [_|_] end.
    + destruct (Z.leb_spec (d - 53 + 1) 971); [lia|reflexivity].
    + match goal with |- context [match ?a with Z0 => _ | _ => _ end] =>
        destruct a as [|q|q] end; try lia.
      destruct (Z.leb_spec (d - 53) 971); [lia|reflexivity].
Qed.


(** ** Division, the cap at 1.0, and scaling *)

Lemma SFdiv_cases x p e :
  small_nonneg x ->
  let q := SFdiv PyFloat.prec PyFloat.emax x (S754_finite false p e) in
  small_nonneg q \/ q = S754_infinity false.
Proof.
  intros [->|(mx & ex & -> & _)] q; subst q.
  - left. left. reflexivity.
  - cbn [SFdiv xorb]. unfold SFdiv_core_binary.
    match goal with |- context [Z.div_eucl ?a ?b] =>
      set (num := a); pose proof (Z_div_mod num b ltac:(lia)) as Hdm;
      assert (Hnum : 0 <= num) end.
    { unfold num.
      match goal with |- context [match ?s with _ => _ end] =>
        destruct s end; try lia.
      apply Z.shiftl_nonneg. lia. }
    destruct (Z.div_eucl num (Z.pos p)) as [quo rem].
    apply binary_round_aux_cases. nia.
Qed.

Lemma min_one_cases q :
  small_nonneg q \/ q = S754_infinity false ->
  at_most_one (PyFloat.min q PyFloat.one).
Proof.
  assert (Hone : at_most_one PyFloat.one).
  { right. do 2 eexists. split; [reflexivity|]. split; [lia|].
    change (2 ^ (- -52)) with (Z.pos 4503599627370496). lia. }
  intros [[->|(p & e & -> & Hp)]| ->].
  - left. reflexivity.
  - unfold PyFloat.min, SFltb, PyFloat.one. cbn [SFcompare].
    destruct (Z.compare_spec (-52) e) as [He|He|He].
    + rewrite <- He. change (Pos.compare_cont Eq ?a ?b) with (Pos.compare a b).
      destruct (Pos.compare_spec 4503599627370496 p) as [Hc|Hc|Hc].
      * right. do 2 eexists. split; [reflexivity|]. split; [lia|].
        change (2 ^ (- -52)) with (Z.pos 4503599627370496).
        rewrite <- Hc. apply Z.le_refl.
      * exact Hone.
      * assert (Hz : Z.pos p < Z.pos 4503599627370496) by exact Hc.
        clear Hc.
        right. do 2 eexists. split; [reflexivity|]. split; [lia|].
        change (2 ^ (- -52)) with (Z.pos 4503599627370496). lia.
    + exact Hone.
    + right. do 2 eexists. split; [reflexivity|]. split; [lia|].
      assert (2 ^ 53 <= 2 ^ (- e)) by (apply Z.pow_le_mono_r; lia). lia.
  - exact Hone.
Qed.

(** Rounding an exact value of at most [K] gives at most [K]. *)
Lemma round_parts_le m E K :
  0 <= m -> E < 0 -> 0 < K < 2 ^ 7 ->
  m <= K * 2 ^ (- E) ->
  snd (round_parts m E loc_Exact) < 0
  /\ fst (round_parts m E loc_Exact)
     <= K * 2 ^ (- snd (round_parts m E loc_Exact)).
Proof.
  intros Hm HE HK Hle.
  assert (HpE : 0 < 2 ^ (- E)) by (apply Z.pow_pos_nonneg; lia).
  assert (Hd : Zdigits2 m <= 7 - E).
  { apply Zdigits2_le; [lia|]. split; [assumption|].
    replace (7 - E) with (7 + - E) by lia. rewrite pow2_split by lia. nia. }
  unfold round_parts. rewrite fexp_eq.
  set (n := Z.max (Zdigits2 m + E - 53) (-1074) - E).
  destruct (Z.ltb_spec 0 n) as [Hn|Hn]; cbn [fst snd].
  - assert (He1 : E + n < 0) by (unfold n; lia). split; [assumption|].
    unfold round_record, shifted.
    cbn [shr_record_of_loc shr_m shr_r shr_s]. rewrite !orb_false_r.
    assert (Hpn : 0 < 2 ^ n) by (apply Z.pow_pos_nonneg; lia).
    assert (Hpn1 : 0 < 2 ^ (n - 1)) by (apply Z.pow_pos_nonneg; lia).
    assert (Hsplit : 2 ^ (- E) = 2 ^ (- (E + n)) * 2 ^ n).
    { rewrite <- pow2_split by lia. f_equal. lia. }
    set (Bu := K * 2 ^ (- (E + n))) in *.
    assert (Hle' : m <= Bu * 2 ^ n) by (unfold Bu; nia).
    assert (Hm1 : m / 2 ^ n <= Bu).
    { apply Z.div_le_upper_bound; [lia|]. lia. }
    destruct (Z.odd (m / 2 ^ (n - 1))) eqn:Hodd; cbn [andb]; [|lia].
    assert (Hstrict : 2 ^ n * (m / 2 ^ n) < m).
    { assert (H2n : 2 ^ n = 2 ^ (n - 1) * 2).
      { replace n with (n - 1 + 1) at 1 by lia.
        rewrite pow2_split by lia. reflexivity. }
      rewrite H2n at 2. rewrite <- Z.div_div by lia.
      pose proof (odd_half (m / 2 ^ (n - 1))) as Hh. rewrite Hodd in Hh.
      pose proof (Z.mul_div_le m (2 ^ (n - 1)) Hpn1) as Hfl.
      nia. }
    destruct (negb (m mod 2 ^ (n - 1) =? 0) || Z.odd (m / 2 ^ n)); [|lia].
    assert (m / 2 ^ n < Bu); [|lia].
    apply Z.nle_gt. intros Hge.
    assert (Bu * 2 ^ n <= 2 ^ n * (m / 2 ^ n)) by nia. lia.
  - split; [assumption|].
    unfold round_record. cbn [shr_record_of_loc shr_m shr_r shr_s andb].
    lia.
Qed.

(** Scaling a ratio of at most one by a small integer constant [K]
    gives a float whose integer part lies between 0 and [K]; truncation
    and floor agree on it. *)
Lemma scale_at_most_one r K mK eK :
  at_most_one r ->
  eK < 0 -> 0 < K < 2 ^ 7 -> Z.pos mK = K * 2 ^ (- eK) ->
  exists n,
    PyFloat.to_int
      (SFmul PyFloat.prec PyFloat.emax r (S754_finite false mK eK))
    = Return n
    /\ PyFloat.floor
         (SFmul PyFloat.prec PyFloat.emax r (S754_finite false mK eK))
       = Some n
    /\ 0 <= n <= K.
Proof.
  intros [->|(p & e & -> & He & Hp)] HeK HK HmK.
  - exists 0. cbn. repeat split; lia.
  - cbn [SFmul xorb]. rewrite binary_round_aux_eq by lia.
    assert (Hle : Z.pos (p * mK) <= K * 2 ^ (- (e + eK))).
    { rewrite Pos2Z.inj_mul, HmK.
      replace (- (e + eK)) with (- e + - eK) by lia.
      rewrite pow2_split by lia.
      assert (0 < 2 ^ (- eK)) by (apply Z.pow_pos_nonneg; lia). nia. }
    destruct (round_parts_le (Z.pos (p * mK)) (e + eK) K
                ltac:(lia) ltac:(lia) HK Hle) as [He1 Hm2].
    pose proof (round_parts_bounds (Z.pos (p * mK)) (e + eK) loc_Exact
                  ltac:(lia)) as [Hm2' _].
    destruct (round_parts (Z.pos (p * mK)) (e + eK) loc_Exact) as [m2 e1].
    cbn [fst snd] in *.
    assert (Hpe : 0 < 2 ^ (- e1)) by (apply Z.pow_pos_nonneg; lia).
    destruct (Z.eqb_spec m2 (2 ^ 53)) as [Heq|Hne].
    + assert (Hsmall : e1 + 1 < 0).
      { destruct (Z_lt_le_dec (e1 + 1) 0) as [|Hge]; [assumption|exfalso].
        assert (e1 = -1) by lia. subst e1.
        change (2 ^ (- -1)) with 2 in Hm2. rewrite Heq in Hm2.
        change (2 ^ 7) with 128 in HK. change (2 ^ 53) with 9007199254740992 in Hm2. lia. }
      destruct (Z.leb_spec (e1 + 1) 971); [|lia].
      destruct (e1 + 1) as [|q|q] eqn:Hq; try lia.
      exists (Z.pos (2 ^ 52) / 2 ^ Z.pos q).
      split; [reflexivity|]. split; [reflexivity|].
      assert (Hpq : 0 < 2 ^ Z.pos q) by (apply Z.pow_pos_nonneg; lia).
      split; [apply Z.div_pos; lia|].
      apply Z.div_le_upper_bound; [lia|].
      assert (Hs : 2 ^ (- e1) = 2 ^ Z.pos q * 2).
      { replace (- e1) with (Z.pos q + 1) by lia.
        rewrite pow2_split by lia. reflexivity. }
      rewrite Heq, Hs in Hm2.
      change (Z.pos (2 ^ 52)) with (2 ^ 52).
      change (2 ^ 53) with (2 ^ 52 * 2) in Hm2. lia.
    + destruct m2 as [|p3|p3]; try lia.
      * exists 0. cbn. repeat split; lia.
      * destruct (Z.leb_spec e1 971); [|lia].
        destruct e1 as [|q|q] eqn:Hq; try lia.
        exists (Z.pos p3 / 2 ^ Z.pos q).
        split; [reflexivity|]. split; [reflexivity|].
        assert (Hpq : 0 < 2 ^ Z.pos q) by (apply Z.pow_pos_nonneg; lia).
        split; [apply Z.div_pos; lia|].
        apply Z.div_le_upper_bound; [lia|].
        change (- Z.neg q) with (Z.pos q) in Hm2. lia.
Qed.

End Binary64.

(** ** The rendered line *)

Lemma of_int_nearest z f :
  PyFloat.of_int z = Return f -> f = nearest_double z.
Proof.
  unfold PyFloat.of_int, nearest_double.
  destruct (binary_normalize PyFloat.prec PyFloat.emax z 0 false);
    intros H; inversion H; reflexivity.
Qed.

Lemma of_int_raises z e :
  PyFloat.of_int z = Raise e -> e = OverflowError.
Proof.
  unfold PyFloat.of_int.
  destruct (binary_normalize PyFloat.prec PyFloat.emax z 0 false);
    intros H; inversion H; reflexivity.
Qed.

Lemma of_int_nonneg z f :
  0 <= z -> PyFloat.of_int z = Return f -> small_nonneg f.
Proof.
  intros Hz Hf. destruct (Z.eq_dec z 0) as [->|Hne].
  - left. vm_compute in Hf. congruence.
  - destruct (Binary64.of_int_pos z ltac:(lia)) as [(p & e & Hp & Hb)|Ho].
    + right. exists p, e. split; [congruence|assumption].
    + congruence.
Qed.

Lemma of_int_58 :
  PyFloat.of_int 58 = Return (S754_finite false 8162774324609024 (-47)).
Proof. vm_compute. reflexivity. Qed.

Lemma of_int_100 :
  PyFloat.of_int 100 = Return (S754_finite false 7036874417766400 (-46)).
Proof. vm_compute. reflexivity. Qed.

(** Once both operands convert, the partial bar is rendered, with the
    dots and the percentage the rule prescribes. *)
Lemma partial_line_core c t fc ft :
  0 <= c -> 0 < t ->
  PyFloat.of_int c = Return fc ->
  PyFloat.of_int t = Return ft ->
  exists dots percent,
    double_scaled (double_ratio c t) 58 = Some dots
    /\ double_scaled (double_ratio c t) 100 = Some percent
    /\ 0 <= dots <= 58
    /\ 0 <= percent <= 100
    /\ partial_line c 58 t = Return (bar_line 58 dots (Z.min percent 100)).
Proof.
  intros Hc Ht Hfc Hft.
  pose proof (of_int_nonneg c fc Hc Hfc) as Hsmall.
  destruct (Binary64.of_int_pos t Ht) as [(p & e & Hp & _)|Ho];
    [|congruence].
  assert (ft = S754_finite false p e) by congruence. subst ft.
  pose proof (Binary64.min_one_cases _ (Binary64.SFdiv_cases fc p e Hsmall))
    as Hratio.
  set (ratio := PyFloat.min
                  (SFdiv PyFloat.prec PyFloat.emax fc (S754_finite false p e))
                  PyFloat.one) in *.
  destruct (Binary64.scale_at_most_one ratio 58 8162774324609024 (-47) Hratio)
    as (dots & Hd1 & Hd2 & Hd3);
    [reflexivity|split; reflexivity|vm_compute; reflexivity|].
  destruct (Binary64.scale_at_most_one ratio 100 7036874417766400 (-46) Hratio)
    as (percent & Hp1 & Hp2 & Hp3);
    [reflexivity|split; reflexivity|vm_compute; reflexivity|].
  exists dots, percent.
  assert (Hspec : double_ratio c t = ratio).
  { unfold double_ratio, ratio.
    rewrite <- (of_int_nearest c fc Hfc), <- (of_int_nearest t _ Hft).
    reflexivity. }
  unfold double_scaled. rewrite Hspec.
  rewrite <- (of_int_nearest 58 _ of_int_58).
  rewrite <- (of_int_nearest 100 _ of_int_100).
  split; [assumption|]. split; [assumption|].
  split; [assumption|]. split; [assumption|].
  unfold partial_line. rewrite Hfc. cbn [obind].
  unfold PyFloat.truediv_int. rewrite Hft. cbn [obind PyFloat.is_zero].
  fold ratio. unfold PyFloat.mul_int. rewrite of_int_58, of_int_100.
  cbn [obind]. rewrite Hd1, Hp1. cbn [obind].
  rewrite (Z.min_l dots 58) by lia. reflexivity.
Qed.

Lemma compute_line_partial c t :
  t <> -1 -> c < t -> compute_line c 60 t = partial_line c 58 t.
Proof.
  intros Hk Hlt. unfold compute_line.
  destruct (Z.eqb_spec t (-1)); [contradiction|].
  destruct (Z.geb_spec c t); [lia|]. reflexivity.
Qed.

Lemma compute_line_unknown c w : compute_line c w (-1) = Return "unknown size".
Proof. reflexivity. Qed.

Lemma compute_line_full c w t :
  t <> -1 -> t <= c -> compute_line c w t = Return (full_bar w).
Proof.
  intros Hk Hle. unfold compute_line.
  destruct (Z.eqb_spec t (-1)); [contradiction|].
  destruct (Z.geb_spec c t); [|lia]. reflexivity.
Qed.

(** Whenever the partial branch yields a line, it is the prescribed one. *)
Lemma compute_line_partial_sound c t line :
  0 <= c < t ->
  compute_line c 60 t = Return line ->
  exists dots percent,
    double_scaled (double_ratio c t) 58 = Some dots
    /\ double_scaled (double_ratio c t) 100 = Some percent
    /\ 0 <= dots <= 58
    /\ line = bar_line 58 dots (Z.min percent 100).
Proof.
  intros [Hc Hlt]. rewrite compute_line_partial by lia. intros Hline.
  destruct (PyFloat.of_int c) as [fc|ex] eqn:Hfc.
  2:{ unfold partial_line in Hline. rewrite Hfc in Hline. discriminate. }
  destruct (PyFloat.of_int t) as [ft|ex] eqn:Hft.
  2:{ unfold partial_line, PyFloat.truediv_int in Hline.
      rewrite Hfc in Hline. cbn [obind] in Hline.
      rewrite Hft in Hline. discriminate. }
  destruct (partial_line_core c t fc ft Hc ltac:(lia) Hfc Hft)
    as (dots & percent & H1 & H2 & H3 & _ & H5).
  exists dots, percent. repeat split; try assumption; try lia. congruence.
Qed.

(** Below the float range the partial branch always yields a line. *)
Lemma compute_line_partial_total c t :
  0 <= c < t -> t < int_limit ->
  exists line, compute_line c 60 t = Return line.
Proof.
  intros [Hc Hlt] Hlim. rewrite compute_line_partial by lia.
  assert (Hfc : exists fc, PyFloat.of_int c = Return fc).
  { destruct (Z.eq_dec c 0) as [->|].
    - eexists. vm_compute. reflexivity.
    - destruct (Binary64.of_int_small c ltac:(lia)) as (p & e & H & _).
      eexists. exact H. }
  destruct Hfc as [fc Hfc].
  destruct (Binary64.of_int_small t ltac:(lia)) as (p & e & Hft & _).
  destruct (partial_line_core c t fc _ Hc ltac:(lia) Hfc Hft)
    as (dots & percent & _ & _ & _ & _ & H5).
  eexists. exact H5.
Qed.

(** At or above the float range the partial branch overflows. *)
Lemma compute_line_partial_overflow c t :
  c < t -> t <> -1 -> int_limit <= t ->
  compute_line c 60 t = Raise OverflowError.
Proof.
  intros Hlt Hk Hlim. rewrite compute_line_partial by assumption.
  unfold partial_line.
  destruct (PyFloat.of_int c) as [fc|ex] eqn:Hfc; cbn [obind].
  - unfold PyFloat.truediv_int.
    rewrite (Binary64.of_int_large t Hlim). reflexivity.
  - apply of_int_raises in Hfc. congruence.
Qed.

Lemma computed_line_eq st c :
  computed_line st c
  = compute_line (_current_size (hook (after_call st c)))
                 (width (hook st)) (call_total c).
Proof.
  unfold computed_line. rewrite after_call_counter. unfold add_chunk.
  destruct (chunk_ne_0 (call_chunk c)); reflexivity.
Qed.

(** C7 (as amended).  A new hook prints the empty 0% bar at once.  For
    a hook of width 60 and the cumulative size reached by a call: a
    total of -1 renders "unknown size"; otherwise a cumulative size of
    at least the total renders 58 dots, "100%" and a line feed;
    otherwise, with a non-negative cumulative size, any line rendered
    has [round_down(ratio * 58)] dots padded with spaces to 58, the
    percentage [round_down(ratio * 100)] capped at 100 and a carriage
    return, where [ratio = min(cumulative / total, 1.0)] and the
    quotient and both products are the double-precision ones, each
    rounded to the nearest double; and such a line is rendered for
    every total below the float range. *)
Theorem C7_rendering_rule :
  (forall out,
      ReportHook_init out
      = (Return tt,
         mkHookState (mkReportHook 0 60 (Some (bar_line 58 0 0)))
                     (out ++ [bar_line 58 0 0])%list))
  /\ forall st c,
       width (hook st) = 60 ->
       let cumulative := _current_size (hook (after_call st c)) in
       let total := call_total c in
       (total = -1 -> computed_line st c = Return "unknown size")
       /\ (total <> -1 -> total <= cumulative ->
           computed_line st c
           = Return ("[" ++ str_mul "." 58 ++ "] 100%" ++ LF))
       /\ (total <> -1 -> 0 <= cumulative < total ->
           forall line,
             computed_line st c = Return line ->
             exists dots percent,
               double_scaled (double_ratio cumulative total) 58 = Some dots
               /\ double_scaled (double_ratio cumulative total) 100
                  = Some percent
               /\ 0 <= dots <= 58
               /\ line = "[" ++ str_mul "." dots ++ str_mul " " (58 - dots)
                             ++ "] " ++ str_of_Z (Z.min percent 100)
                             ++ "%" ++ CR)
       /\ (0 <= cumulative < total -> total < int_limit ->
           returns (computed_line st c)).
Proof.
  split; [exact fresh_hook_eq|].
  intros st c Hw cumulative total. subst cumulative total.
  rewrite computed_line_eq, Hw.
  split; [|split; [|split]].
  - intros ->. apply compute_line_unknown.
  - intros Hk Hle. apply (compute_line_full _ 60); assumption.
  - intros _ Hrange line Hline.
    apply compute_line_partial_sound; assumption.
  - intros Hrange Hlim. apply compute_line_partial_total; assumption.
Qed.

(** ** Totality of reporthook *)

Lemma reporthook_outcome st c :
  fst (reporthook (call_chunk c) (call_size c) (call_total c) st)
  = match computed_line st c with
    | Return _ => Return tt
    | Raise ex => Raise ex
    end.
Proof.
  unfold reporthook, computed_line.
  destruct (compute_line _ _ _) as [line|ex]; [|reflexivity].
  destruct (line_ne line _); reflexivity.
Qed.

Lemma run_calls_width calls : forall st,
  width (hook (run_calls calls st)) = width (hook st).
Proof.
  induction calls as [|c calls IH]; intros st; [reflexivity|].
  change (run_calls (c :: calls) st) with (run_calls calls (after_call st c)).
  rewrite IH. apply reporthook_width.
Qed.

(** A hook fed non-negative chunk sizes keeps width 60 and a
    non-negative counter. *)
Lemma reachable_hook out calls :
  Forall (fun c => 0 <= call_size c) calls ->
  width (hook (run_calls calls (fresh_hook out))) = 60
  /\ 0 <= _current_size (hook (run_calls calls (fresh_hook out))).
Proof.
  intros Hnn. split.
  - rewrite run_calls_width. unfold fresh_hook. rewrite fresh_hook_eq.
    reflexivity.
  - pose proof (run_calls_counter_le calls (fresh_hook out) Hnn) as Hle.
    unfold fresh_hook in Hle at 1. rewrite fresh_hook_eq in Hle.
    exact Hle.
Qed.

Lemma partial_line_starts_bracket c a t line :
  partial_line c a t = Return line -> exists rest, line = String "[" rest.
Proof.
  unfold partial_line, obind.
  repeat match goal with
         | |- match ?o with Return _ => _ | Raise _ => _ end = _ -> _ =>
             destruct o; [|discriminate]
         end.
  intros [= <-]. eexists. reflexivity.
Qed.

(** C10 (as amended).  For a hook fed non-negative chunk sizes and any
    integer total: the cumulative size stays non-negative, so the
    division is reached only with [0 <= cumulative < total] and
    [reporthook] never raises [ZeroDivisionError]; it returns for every
    total below [2^1024 - 2^970], and raises, with [OverflowError],
    exactly on the bar branch for totals from that limit on; a total of 0
    always renders the completed bar; and "unknown size" is rendered for
    the total -1 only. *)
Theorem C10_reporthook_total out calls c :
  Forall (fun c => 0 <= call_size c) calls ->
  0 <= call_size c ->
  let st := run_calls calls (fresh_hook out) in
  let cumulative := _current_size (hook (after_call st c)) in
  let total := call_total c in
  let result := fst (reporthook (call_chunk c) (call_size c) total st) in
  0 <= cumulative
  /\ result <> Raise ZeroDivisionError
  /\ (total < int_limit -> result = Return tt)
  /\ (raises result <->
      total <> -1 /\ cumulative < total /\ int_limit <= total)
  /\ (raises result -> result = Raise OverflowError)
  /\ (total = 0 -> computed_line st c = Return (full_bar 60))
  /\ (computed_line st c = Return "unknown size" <-> total = -1).
Proof.
  intros Hnn Hc st cumulative total result.
  destruct (reachable_hook out calls Hnn) as [Hw Hcur].
  fold st in Hw, Hcur.
  assert (Hcum : 0 <= cumulative).
  { unfold cumulative. rewrite after_call_counter.
    destruct (chunk_ne_0 (call_chunk c)); lia. }
  assert (Hres : result = match compute_line cumulative 60 total with
                          | Return _ => Return tt
                          | Raise ex => Raise ex
                          end).
  { unfold result, total. rewrite reporthook_outcome, computed_line_eq, Hw.
    reflexivity. }
  assert (Hline : computed_line st c = compute_line cumulative 60 total).
  { rewrite computed_line_eq, Hw. reflexivity. }
  assert (Hcases :
            (total = -1 /\ compute_line cumulative 60 total
                           = Return "unknown size")
            \/ (total <> -1 /\ total <= cumulative
                /\ compute_line cumulative 60 total = Return (full_bar 60))
            \/ (total <> -1 /\ cumulative < total /\ total < int_limit
                /\ exists line, compute_line cumulative 60 total = Return line)
            \/ (total <> -1 /\ cumulative < total /\ int_limit <= total
                /\ compute_line cumulative 60 total = Raise OverflowError)).
  { destruct (Z.eq_dec total (-1)) as [Hk|Hk].
    - left. rewrite Hk. split; reflexivity.
    - right. destruct (Z_le_gt_dec total cumulative) as [Hle|Hgt].
      + left. repeat split; try assumption.
        apply compute_line_full; assumption.
      + right. destruct (Z_lt_le_dec total int_limit) as [Hlim|Hlim].
        * left. repeat split; try assumption; try lia.
          apply compute_line_partial_total; lia.
        * right. repeat split; try assumption; try lia.
          apply compute_line_partial_overflow; [lia|assumption|assumption]. }
  assert (Hlimpos : 0 < int_limit) by (vm_compute; reflexivity).
  split; [exact Hcum|]. rewrite Hres, Hline.
  destruct Hcases as [(Hk & Hcl)|[(Hk & Hle & Hcl)|
                      [(Hk & Hlt & Hlim & line & Hcl)|(Hk & Hlt & Hlim & Hcl)]]];
    rewrite Hcl; (split; [|split; [|split; [|split; [|split]]]]).
  - discriminate.
  - reflexivity.
  - split; [intros [ex Hex]; discriminate|tauto].
  - intros [ex Hex]. discriminate.
  - lia.
  - tauto.
  - discriminate.
  - reflexivity.
  - split; [intros [ex Hex]; discriminate|lia].
  - intros [ex Hex]. discriminate.
  - reflexivity.
  - split; [|contradiction]. intros H. vm_compute in H. discriminate.
  - discriminate.
  - reflexivity.
  - split; [intros [ex Hex]; discriminate|lia].
  - intros [ex Hex]. discriminate.
  - lia.
  - split; [|contradiction]. intros [= ->].
    rewrite compute_line_partial in Hcl by lia.
    apply partial_line_starts_bracket in Hcl. destruct Hcl. discriminate.
  - discriminate.
  - lia.
  - split; [tauto|]. intros _. eexists. reflexivity.
  - reflexivity.
  - lia.
  - split; [discriminate|contradiction].
Qed.

(** At [2^1024] the conversion of the total overflows and the call
    raises, on a fresh hook and without any chunk. *)
Lemma C10_overflow_counterexample :
  ~ returns (fst (reporthook (ChunkInt 0) 0 (2 ^ 1024) (fresh_hook []))).
Proof. intros [a H]. vm_compute in H. discriminate. Qed.

(** ** Instances *)

Lemma C9_witness :
  Forall (fun c => 0 <= call_size c)
         ([chunk_call 1024 3000] ++ [mkCall (ChunkInt 0) 1024 3000])
  /\ _current_size (hook (run_calls [chunk_call 1024 3000] (fresh_hook [])))
     <= _current_size
          (hook (run_calls ([chunk_call 1024 3000]
                              ++ [mkCall (ChunkInt 0) 1024 3000])
                           (fresh_hook []))).
Proof.
  assert (H : Forall (fun c => 0 <= call_size c)
                     ([chunk_call 1024 3000]
                        ++ [mkCall (ChunkInt 0) 1024 3000])).
  { repeat constructor; cbn; lia. }
  split; [exact H|].
  exact (proj1 C9_counter_monotone _ _ (fresh_hook []) H).
Defined.

Lemma C8_witness :
  (2048 <> -1
   /\ [chunk_call 1024 2048; chunk_call 1024 2048] <> []
   /\ Forall (more_progress 2048) [chunk_call 1024 2048; chunk_call 1024 2048]
   /\ 2048 <= _current_size
                (hook (run_calls [chunk_call 1024 2048; chunk_call 1024 2048]
                                 (fresh_hook []))))
  /\ exists lines,
       stdout (run_calls [chunk_call 1024 2048; chunk_call 1024 2048]
                         (fresh_hook []))
       = ([] ++ lines)%list
       /\ count_line (full_bar 60) lines = 1%nat.
Proof.
  assert (H1 : 2048 <> -1) by lia.
  assert (H2 : [chunk_call 1024 2048; chunk_call 1024 2048] <> [])
    by discriminate.
  assert (H3 : Forall (more_progress 2048)
                      [chunk_call 1024 2048; chunk_call 1024 2048]).
  { repeat constructor; cbn; try lia; discriminate. }
  assert (H4 : 2048 <= _current_size
                         (hook (run_calls
                                  [chunk_call 1024 2048; chunk_call 1024 2048]
                                  (fresh_hook [])))).
  { vm_compute. discriminate. }
  split; [auto|].
  exact (proj2 (proj2 (proj2 C8_duplicate_suppression)) [] 2048 _ H1 H2 H3 H4).
Defined.

Lemma C7_witness :
  width (hook (fresh_hook [])) = 60
  /\ 100 <> -1
  /\ 0 <= 29 < 100
  /\ computed_line (fresh_hook []) (chunk_call 29 100)
     = Return (bar_line 58 16 28)
  /\ exists dots percent,
       double_scaled (double_ratio 29 100) 58 = Some dots
       /\ double_scaled (double_ratio 29 100) 100 = Some percent
       /\ 0 <= dots <= 58
       /\ bar_line 58 16 28
          = "[" ++ str_mul "." dots ++ str_mul " " (58 - dots)
                ++ "] " ++ str_of_Z (Z.min percent 100) ++ "%" ++ CR.
Proof.
  assert (Hw : width (hook (fresh_hook [])) = 60) by reflexivity.
  assert (Hk : 100 <> -1) by lia.
  assert (Hr : 0 <= 29 < 100) by lia.
  assert (Hl : computed_line (fresh_hook []) (chunk_call 29 100)
               = Return (bar_line 58 16 28)) by (vm_compute; reflexivity).
  repeat (split; [assumption|]).
  destruct (proj2 C7_rendering_rule (fresh_hook []) (chunk_call 29 100) Hw)
    as (_ & _ & H & _).
  exact (H Hk Hr _ Hl).
Defined.

Lemma C10_witness :
  Forall (fun c => 0 <= call_size c) [chunk_call 1024 0]
  /\ 0 <= call_size (chunk_call 1024 0)
  /\ fst (reporthook (ChunkBytes abc) 1024 0
                     (run_calls [chunk_call 1024 0] (fresh_hook [])))
     <> Raise ZeroDivisionError
  /\ computed_line (run_calls [chunk_call 1024 0] (fresh_hook []))
                   (chunk_call 1024 0)
     = Return (full_bar 60).
Proof.
  assert (H1 : Forall (fun c => 0 <= call_size c) [chunk_call 1024 0]).
  { repeat constructor; cbn; lia. }
  assert (H2 : 0 <= call_size (chunk_call 1024 0)) by (cbn; lia).
  split; [exact H1|]. split; [exact H2|].
  destruct (C10_reporthook_total [] [chunk_call 1024 0] (chunk_call 1024 0)
                                 H1 H2)
    as (_ & Hz & _ & _ & _ & H0 & _).
  split; [exact Hz|]. exact (H0 eq_refl).
Defined.


(** C7, refuted as written.  29 of 100: the rule in exact arithmetic
    gives 29%, the hook draws 28%, because the double nearest to 0.29,
    times 100, is just below 29.  And with a cumulative size of -5 of
    100 the hook draws no dot and 60 spaces, a bar two characters wider
    than the width, where rounding down would give -3 dots. *)
Lemma C7_counterexample :
  computed_line (fresh_hook []) (chunk_call 29 100)
  = Return (bar_line 58 16 28)
  /\ rule_line 29 60 100 = bar_line 58 16 29
  /\ bar_line 58 16 28 <> bar_line 58 16 29
  /\ computed_line (fresh_hook []) (chunk_call (-5) 100)
     = Return (bar_line 58 (-2) (-5))
  /\ rule_line (-5) 60 100 = bar_line 58 (-3) (-5)
  /\ bar_line 58 (-2) (-5) <> bar_line 58 (-3) (-5)
  /\ String.length (bar_line 58 (-2) (-5)) = 67%nat.
Proof.
  split; [vm_compute; reflexivity|].
  split; [vm_compute; reflexivity|].
  split; [intros H; vm_compute in H; discriminate|].
  split; [vm_compute; reflexivity|].
  split; [vm_compute; reflexivity|].
  split; [intros H; vm_compute in H; discriminate|].
  vm_compute. reflexivity.
Qed.

(** ** The capacity probe on macOS *)

Lemma is_digit_range c :
  is_digit c = true -> (48 <= nat_of_ascii c <= 57)%nat.
Proof.
  unfold is_digit. intros H. apply andb_prop in H. destruct H as [H1 H2].
  apply Nat.leb_le in H1, H2. lia.
Qed.

Lemma is_digit_not_space c : is_digit c = true -> is_space c = false.
Proof.
  intros H. apply is_digit_range in H. unfold is_space.
  destruct (Nat.leb_spec 9 (nat_of_ascii c));
    destruct (Nat.leb_spec (nat_of_ascii c) 13);
    destruct (Nat.eqb_spec (nat_of_ascii c) 32);
    destruct (Nat.eqb_spec (nat_of_ascii c) 133);
    destruct (Nat.eqb_spec (nat_of_ascii c) 160);
    cbn; try reflexivity; lia.
Qed.

Lemma is_digit_not_sign c :
  is_digit c = true -> Ascii.eqb c "-" = false /\ Ascii.eqb c "+" = false.
Proof.
  intros H. apply is_digit_range in H.
  split; apply Ascii.eqb_neq; intros ->; cbn in H; lia.
Qed.

Lemma take_digits_all s : all_digits (fst (take_digits s)) = true.
Proof.
  induction s as [|c s IH]; [reflexivity|]. cbn [take_digits].
  destruct (is_digit c) eqn:Hc; [|reflexivity].
  destruct (take_digits s) as [d r]. cbn [fst all_digits] in *.
  rewrite Hc, IH. reflexivity.
Qed.

Lemma rstrip_digits d : all_digits d = true -> rstrip d = d.
Proof.
  induction d as [|c d IH]; [reflexivity|]. cbn [all_digits rstrip].
  intros H. apply andb_prop in H. destruct H as [Hc Hd].
  rewrite (IH Hd). rewrite (is_digit_not_space c Hc).
  destruct d; reflexivity.
Qed.

Lemma int_digits_all d : forall acc prev,
  all_digits d = true ->
  d <> "" \/ prev = true ->
  exists n, int_digits d acc prev = Some n.
Proof.
  induction d as [|c d IH]; intros acc prev Hall Hne.
  - destruct Hne as [Hne| ->]; [congruence|]. eexists. reflexivity.
  - cbn [all_digits] in Hall. apply andb_prop in Hall.
    destruct Hall as [Hc Hd]. cbn [int_digits]. rewrite Hc.
    apply IH; [assumption|]. right. reflexivity.
Qed.

Lemma count_digits_all d :
  all_digits d = true -> count_digits d = Z.of_nat (String.length d).
Proof.
  induction d as [|c d IH]; [reflexivity|]. cbn [all_digits].
  intros H. apply andb_prop in H. destruct H as [Hc Hd].
  cbn [count_digits String.length]. rewrite Hc, (IH Hd). lia.
Qed.

(** What [int] makes of a non-empty run of digits: a number, unless
    the run is longer than the limit. *)
Lemma py_int_digits d :
  all_digits d = true -> d <> "" ->
  exists n,
    int_digits d 0 false = Some n
    /\ py_int d = if (4300 <? String.length d)%nat then Raise ValueError
                  else Return n.
Proof.
  intros Hall Hne. destruct d as [|c d]; [congruence|].
  pose proof Hall as Hall'. cbn [all_digits] in Hall'.
  apply andb_prop in Hall'. destruct Hall' as [Hc Hd].
  unfold py_int.
  assert (Hl : lstrip (String c d) = String c d).
  { cbn [lstrip]. rewrite (is_digit_not_space c Hc). reflexivity. }
  rewrite Hl, (rstrip_digits _ Hall).
  destruct (is_digit_not_sign c Hc) as [-> ->].
  destruct (int_digits_all (String c d) 0 false Hall) as [n Hn];
    [left; discriminate|].
  rewrite Hn, (count_digits_all _ Hall). exists n. split; [reflexivity|].
  unfold int_max_str_digits.
  destruct (Z.ltb_spec 4300 (Z.of_nat (String.length (String c d))));
    destruct (Nat.ltb_spec 4300 (String.length (String c d)));
    try reflexivity; lia.
Qed.

Lemma re_match_integer_digits line g :
  re_match_integer line = Some g -> all_digits g = true /\ g <> "".
Proof.
  unfold re_match_integer.
  destruct (starts_with _ line) as [r|]; [|discriminate].
  pose proof (take_digits_all r) as Hall.
  destruct (take_digits r) as [d r']. cbn [fst] in Hall.
  destruct d as [|c d]; [discriminate|].
  destruct (starts_with "</integer>" r'); [|discriminate].
  intros [= <-]. split; [assumption|discriminate].
Qed.

(** The scan of the property list raises only [ValueError], and only
    for a first matching line whose digits are more than the limit of
    [int]. *)
Lemma diskutil_scan_raises lines ex :
  diskutil_scan lines = Raise ex ->
  ex = ValueError
  /\ exists before line after g,
       lines = (before ++ line :: after)%list
       /\ Forall (fun l => re_match_integer l = None) before
       /\ re_match_integer line = Some g
       /\ (4300 < String.length g)%nat.
Proof.
  induction lines as [|line rest IH]; [discriminate|].
  cbn [diskutil_scan].
  destruct (re_match_integer line) as [g|] eqn:Hg.
  - destruct (re_match_integer_digits line g Hg) as [Hall Hne].
    destruct (py_int_digits g Hall Hne) as (n & _ & ->).
    destruct (Nat.ltb_spec 4300 (String.length g)) as [Hlong|_];
      [|discriminate].
    cbn [obind]. intros [= <-]. split; [reflexivity|].
    exists [], line, rest, g. auto.
  - intros Hrest. destruct (IH Hrest)
      as (-> & before & l & after & g & -> & Hnone & Hl & Hlong).
    split; [reflexivity|].
    exists (line :: before), l, after, g. auto.
Qed.

(** On macOS the probe raises when the first strategy fails and
    [diskutil] cannot be run, and what escapes is that second failure;
    or when [diskutil] ran and [int] refuses the digits it found. *)
Lemma get_sdcard_bytes_darwin (pe : probe_env) (sdcard_path : string) :
  sys_platform pe = "darwin" ->
  match fdisk_probe pe sdcard_path with
  | Return n => get_sdcard_bytes pe sdcard_path = (Return n, [])
  | Raise exp =>
      match subprocess_run pe ["diskutil"; "list"; "-plist"; sdcard_path]
      with
      | Raise ex => get_sdcard_bytes pe sdcard_path = (Raise ex, [exp])
      | Return out =>
          match diskutil_scan (splitlines out) with
          | Return _ =>
              exists n, get_sdcard_bytes pe sdcard_path = (Return n, [exp])
          | Raise _ =>
              get_sdcard_bytes pe sdcard_path = (Raise ValueError, [exp])
          end
      end
  end.
Proof.
  intros Hp. unfold get_sdcard_bytes. rewrite Hp.
  destruct (fdisk_probe pe sdcard_path) as [n|exp]; [reflexivity|].
  cbn [String.eqb Ascii.eqb Bool.eqb].
  destruct (subprocess_run pe ["diskutil"; "list"; "-plist"; sdcard_path])
    as [out|ex]; [|reflexivity].
  destruct (diskutil_scan (splitlines out)) as [[n|]|ex] eqn:Hscan;
    try (eexists; reflexivity).
  apply diskutil_scan_raises in Hscan. destruct Hscan as [-> _].
  reflexivity.
Qed.

(** ** get_checksum *)

Lemma take_spec l : forall n,
  (fst (take n l) ++ snd (take n l))%list = l
  /\ len (fst (take n l)) <= Z.max n 0
  /\ (snd (take n l) <> [] -> len (fst (take n l)) = Z.max n 0)
  /\ (0 < n -> l <> [] -> fst (take n l) <> [])
  /\ (List.length (snd (take n l)) <= List.length l)%nat.
Proof.
  unfold len. induction l as [|x l IH]; intros n; cbn [take].
  - cbn. repeat split; try lia; congruence.
  - destruct (Z.leb_spec n 0) as [Hn|Hn]; cbn [fst snd].
    + cbn. repeat split; try lia.
    + specialize (IH (n - 1)). destruct (take (n - 1) l) as [a b].
      cbn [fst snd] in *. destruct IH as (H1 & H2 & H3 & _ & H5).
      cbn [List.length app]. split; [congruence|]. split; [lia|].
      split; [intros Hb; specialize (H3 Hb); lia|].
      split; [discriminate|lia].
Qed.

Lemma blocks_spec n fuel : forall content,
  0 < n ->
  (List.length content < fuel)%nat ->
  List.concat (blocks fuel n content) = content
  /\ Forall (fun b => b <> [] /\ len b <= n) (blocks fuel n content).
Proof.
  induction fuel as [|fuel IH]; intros content Hn Hfuel; [lia|].
  cbn [blocks].
  destruct (take_spec content n) as (H1 & H2 & _ & H4 & H5).
  destruct (take n content) as [chunk rest]. cbn [fst snd] in *.
  destruct chunk as [|x chunk].
  - cbn in H1. subst rest. destruct content as [|y content].
    + split; [reflexivity|constructor].
    + exfalso. apply (H4 Hn); [discriminate|reflexivity].
  - assert (Hlen : (List.length rest < fuel)%nat).
    { rewrite <- H1 in Hfuel. rewrite length_app in Hfuel. cbn in Hfuel. lia. }
    destruct (IH rest Hn Hlen) as [Hc Hall].
    split.
    + cbn [List.concat]. rewrite Hc. exact H1.
    + constructor; [|assumption]. split; [discriminate|lia].
Qed.

Lemma block_size_pos : 0 < ONE_MiB * 8.
Proof. reflexivity. Qed.

Lemma blocks_fuel n fuel1 : forall fuel2 content,
  (List.length content < fuel1)%nat ->
  (List.length content < fuel2)%nat ->
  blocks fuel1 n content = blocks fuel2 n content.
Proof.
  induction fuel1 as [|fuel1 IH]; intros fuel2 content H1 H2; [lia|].
  destruct fuel2 as [|fuel2]; [lia|]. cbn [blocks].
  destruct (take_spec content n) as (Hcat & _ & _ & _ & _).
  destruct (take n content) as [chunk rest]. cbn [fst snd] in Hcat.
  destruct chunk as [|x chunk]; [reflexivity|].
  f_equal. rewrite <- Hcat, length_app in H1, H2. cbn in H1, H2.
  apply IH; lia.
Qed.

(** With reads that do not fail the loop feeds the hash the blocks of
    the unread content, in order, and stops at the end of the file. *)
Lemma checksum_loop_reads {H : Type} re (func : hash_algo H) path closed
      fuel : forall h rest,
  (forall r, read_error re path r = None) ->
  (List.length rest < fuel)%nat ->
  checksum_loop fuel re func h (mkReader path (Finite rest) closed)
  = Some (Return (fold_left (h_update func)
                            (blocks fuel (ONE_MiB * 8) rest) h),
          mkReader path (Finite []) closed).
Proof.
  induction fuel as [|fuel IH]; intros h rest Hre Hfuel; [lia|].
  cbn [checksum_loop blocks]. unfold file_read. cbn [r_path r_rest r_closed].
  rewrite Hre.
  destruct (Z.ltb_spec (ONE_MiB * 8) 0) as [Hneg|_];
    [pose proof block_size_pos; lia|].
  destruct (take_spec rest (ONE_MiB * 8)) as (H1 & _ & _ & H4 & H5).
  destruct (take (ONE_MiB * 8) rest) as [chunk rest'].
  cbn [fst snd] in *.
  destruct chunk as [|x chunk].
  - cbn in H1. subst rest'. destruct rest as [|y rest]; [reflexivity|].
    exfalso. apply (H4 block_size_pos); [discriminate|reflexivity].
  - rewrite IH; [reflexivity|assumption|].
    rewrite <- H1 in Hfuel. rewrite length_app in Hfuel. cbn in Hfuel. lia.
Qed.

(** Whatever the reads do, on a finite file the loop ends within one
    read more than the unread bytes. *)
Lemma checksum_loop_ends {H : Type} re (func : hash_algo H) path closed
      fuel : forall h rest,
  (List.length rest < fuel)%nat ->
  exists r,
    checksum_loop fuel re func h (mkReader path (Finite rest) closed)
    = Some r.
Proof.
  induction fuel as [|fuel IH]; intros h rest Hfuel; [lia|].
  cbn [checksum_loop]. unfold file_read. cbn [r_path r_rest r_closed].
  destruct (read_error re path (Finite rest)) as [ex|].
  { eexists. reflexivity. }
  assert (Hcut : exists chunk rest',
             (if ONE_MiB * 8 <? 0 then (rest, [])
              else take (ONE_MiB * 8) rest) = (chunk, rest')
             /\ (chunk <> [] -> (List.length rest' < List.length rest)%nat)).
  { destruct (Z.ltb_spec (ONE_MiB * 8) 0) as [Hneg|_];
      [pose proof block_size_pos; lia|].
    destruct (take_spec rest (ONE_MiB * 8)) as (H1 & _ & _ & _ & _).
    destruct (take (ONE_MiB * 8) rest) as [chunk rest'].
    cbn [fst snd] in H1. exists chunk, rest'. split; [reflexivity|].
    intros Hne. rewrite <- H1, length_app.
    destruct chunk; [congruence|cbn; lia]. }
  destruct Hcut as (chunk & rest' & -> & Hless).
  destruct chunk as [|x chunk].
  - eexists. reflexivity.
  - apply IH. specialize (Hless ltac:(discriminate)). lia.
Qed.

Lemma file_read_keeps re n f o f' :
  file_read re n f = Some (o, f') ->
  r_path f' = r_path f /\ r_closed f' = r_closed f.
Proof.
  unfold file_read.
  destruct (read_error re (r_path f) (r_rest f)) as [ex|].
  { intros [= <- <-]. auto. }
  destruct (r_rest f) as [rest|gen].
  - destruct (if n <? 0 then (rest, []) else take n rest) as [chunk rest'].
    intros [= <- <-]. auto.
  - destruct (n <? 0); [discriminate|]. intros [= <- <-]. auto.
Qed.

(** The loop leaves the file object's path and open state alone. *)
Lemma checksum_loop_keeps {H : Type} re (func : hash_algo H) fuel :
  forall h f o f',
    checksum_loop fuel re func h f = Some (o, f') ->
    r_path f' = r_path f /\ r_closed f' = r_closed f.
Proof.
  induction fuel as [|fuel IH]; intros h f o f' Hloop; [discriminate|].
  cbn [checksum_loop] in Hloop.
  destruct (file_read re (ONE_MiB * 8) f) as [[r f1]|] eqn:Hread;
    [|discriminate].
  apply file_read_keeps in Hread. destruct Hread as [Hp Hc].
  destruct r as [chunk|ex].
  - destruct chunk as [|x chunk].
    + injection Hloop as <- <-. auto.
    + apply IH in Hloop. destruct Hloop. split; congruence.
  - injection Hloop as <- <-. auto.
Qed.

(** On a file without end whose reads do not fail, no number of reads
    brings the loop to its end. *)
Lemma checksum_loop_endless {H : Type} re (func : hash_algo H) path closed
      fuel : forall h gen,
  (forall r, read_error re path r = None) ->
  checksum_loop fuel re func h (mkReader path (Endless gen) closed) = None.
Proof.
  induction fuel as [|fuel IH]; intros h gen Hre; [reflexivity|].
  cbn [checksum_loop]. unfold file_read. cbn [r_path r_rest r_closed].
  rewrite Hre.
  destruct (Z.ltb_spec (ONE_MiB * 8) 0) as [Hneg|_];
    [pose proof block_size_pos; lia|].
  cbv zeta.
  assert (Hk : exists k, Z.to_nat (ONE_MiB * 8) = S k).
  { exists (Nat.pred (Z.to_nat (ONE_MiB * 8))).
    pose proof block_size_pos. lia. }
  destruct Hk as [k ->]. cbn [seq map]. apply IH. exact Hre.
Qed.

Lemma fold_update_concat {H : Type} (func : hash_algo H) :
  (forall h, h_update func h [] = h) ->
  (forall h a b,
      h_update func (h_update func h a) b
      = h_update func h (a ++ b)%list) ->
  forall chunks h,
    fold_left (h_update func) chunks h
    = h_update func h (List.concat chunks).
Proof.
  intros Hnil Hcat chunks.
  induction chunks as [|c chunks IH]; intros h; cbn [fold_left List.concat].
  - symmetry. apply Hnil.
  - rewrite IH. apply Hcat.
Qed.

(** X1.  When the file opens and its reads succeed, [get_checksum]
    feeds the hash object non-empty blocks of at most 8 MiB whose
    concatenation is the file's content, in order, and returns the
    algorithm's name with the digest of what was fed; the file object
    is left closed at the end of the file.  One read more than the file
    has bytes is always enough. *)
Theorem X1_checksum_reads_whole_file {H : Type} (re : read_env)
        (fpath : string) (func : hash_algo H) (opened : list reader)
        (content : list byte) :
  open_rb re fpath = Return (Finite content) ->
  (forall r, read_error re fpath r = None) ->
  exists chunks,
    List.concat chunks = content
    /\ Forall (fun b => b <> [] /\ len b <= 8 * ONE_MiB) chunks
    /\ forall fuel,
         (List.length content < fuel)%nat ->
         get_checksum fuel re fpath func opened
         = Some (Return (h_name func,
                         h_hexdigest func
                           (fold_left (h_update func) chunks (h_new func))),
                 (opened ++ [mkReader fpath (Finite []) true])%list).
Proof.
  intros Hopen Hre.
  exists (blocks (S (List.length content)) (ONE_MiB * 8) content).
  destruct (blocks_spec (ONE_MiB * 8) (S (List.length content)) content
              block_size_pos ltac:(lia)) as [Hc Hall].
  split; [exact Hc|]. split.
  - rewrite (Z.mul_comm 8). exact Hall.
  - intros fuel Hfuel. unfold get_checksum. rewrite Hopen.
    rewrite (checksum_loop_reads re func fpath false) by (auto; lia).
    rewrite (blocks_fuel (ONE_MiB * 8) fuel (S (List.length content)))
      by lia.
    reflexivity.
Qed.

(** X2.  For a hash object whose [update] is insensitive to how the
    data is cut (feeding [a] then [b] is feeding [a ++ b], and feeding
    nothing changes nothing), [get_checksum] returns the digest of the
    whole content fed at once: the 8 MiB blocking does not show. *)
Theorem X2_checksum_is_one_shot {H : Type} (re : read_env)
        (fpath : string) (func : hash_algo H) (opened : list reader)
        (content : list byte) (fuel : nat) :
  (forall h, h_update func h [] = h) ->
  (forall h a b,
      h_update func (h_update func h a) b
      = h_update func h (a ++ b)%list) ->
  open_rb re fpath = Return (Finite content) ->
  (forall r, read_error re fpath r = None) ->
  (List.length content < fuel)%nat ->
  get_checksum fuel re fpath func opened
  = Some (Return (h_name func,
                  h_hexdigest func (h_update func (h_new func) content)),
          (opened ++ [mkReader fpath (Finite []) true])%list).
Proof.
  intros Hnil Hcat Hopen Hre Hfuel.
  unfold get_checksum. rewrite Hopen.
  rewrite (checksum_loop_reads re func fpath false) by (auto; lia).
  rewrite (fold_update_concat func Hnil Hcat).
  destruct (blocks_spec (ONE_MiB * 8) fuel content
              block_size_pos Hfuel) as [-> _].
  reflexivity.
Qed.

(** X3.  Whenever [get_checksum] comes back after a successful [open],
    by a normal return or by a failing read, the one file object it
    opened is closed; when [open] raises, that exception is passed on
    and no file object is left behind.  On a file of finite content it
    does come back, within one read more than the file has bytes.  On a
    file without end, such as [/dev/zero], it never does unless a read
    fails: no number of reads is enough. *)
Theorem X3_checksum_closes_file {H : Type} (re : read_env)
        (fpath : string) (func : hash_algo H) (opened : list reader) :
  (forall fuel o fs,
      get_checksum fuel re fpath func opened = Some (o, fs) ->
      match open_rb re fpath with
      | Raise ex => o = Raise ex /\ fs = opened
      | Return _ =>
          exists rest, fs = (opened ++ [mkReader fpath rest true])%list
      end)
  /\ (forall ex fuel,
         open_rb re fpath = Raise ex ->
         get_checksum fuel re fpath func opened = Some (Raise ex, opened))
  /\ (forall data fuel,
         open_rb re fpath = Return (Finite data) ->
         (List.length data < fuel)%nat ->
         exists r, get_checksum fuel re fpath func opened = Some r)
  /\ (forall gen fuel,
         open_rb re fpath = Return (Endless gen) ->
         (forall r, read_error re fpath r = None) ->
         get_checksum fuel re fpath func opened = None).
Proof.
  unfold get_checksum. split; [|split; [|split]].
  - intros fuel o fs.
    destruct (open_rb re fpath) as [content|ex].
    + destruct (checksum_loop fuel re func (h_new func)
                              (mkReader fpath content false))
        as [[r f']|] eqn:Hloop; [|discriminate].
      apply checksum_loop_keeps in Hloop. cbn [r_path r_closed] in Hloop.
      destruct Hloop as [Hp _]. unfold close_reader. rewrite Hp.
      destruct r as [h|ex]; intros [= <- <-]; eexists; reflexivity.
    + intros [= <- <-]. auto.
  - intros ex fuel ->. reflexivity.
  - intros data fuel -> Hfuel.
    destruct (checksum_loop_ends re func fpath false fuel (h_new func)
                                 data Hfuel) as [[r f'] ->].
    destruct r; eexists; reflexivity.
  - intros gen fuel -> Hre.
    rewrite (checksum_loop_endless re func fpath false fuel) by exact Hre.
    reflexivity.
Qed.

(** ** More on stream *)

Lemma total_len_concat chunks : total_len chunks = len (List.concat chunks).
Proof.
  unfold total_len, len. induction chunks as [|c chunks IH]; [reflexivity|].
  cbn [fold_right List.concat]. rewrite length_app, Nat2Z.inj_add. lia.
Qed.

(** X4.  When [stream] succeeds with a file destination, the file it
    opened is closed and holds exactly the chunks of the body, in order;
    the result is the number of those bytes and the destination path
    itself, and every file object that existed before is untouched. *)
Theorem X4_stream_file_holds_body {S : Type} (e : env) (url p : string)
        (callback : option (@callback_t S)) (block_size : Z)
        (st st1 : io_state S) (n : Z) (d : dest) :
  stream e url (Some p) callback block_size st = (Return (n, d), st1) ->
  exists req,
    session_get e stream_session url = Return req
    /\ files st1
       = (files st
            ++ [mkFile p true
                       (List.concat (fst (iter_content req block_size)))])%list
    /\ n = len (List.concat (fst (iter_content req block_size)))
    /\ d = DestPath p.
Proof.
  rewrite stream_unfold.
  destruct (stream_transfer e url (Some p) callback block_size st)
    as [[[[t d0] fd]|ex] st0] eqn:Htr; [|discriminate].
  apply stream_transfer_dest in Htr.
  destruct Htr as (req & Hget & _ & Hd & Hp & Hfiles).
  unfold stream_validate, throw, ret.
  destruct (negb (t =? 0) && negb (d0 =? t)); [discriminate|].
  rewrite (truthy_path p Hp). intros [= <- <- <-].
  exists req. rewrite <- total_len_concat. auto.
Qed.

(** X5.  A transfer that runs to its end but is reported as a size
    mismatch leaves the short or long file in place: the file is closed
    and holds the chunks that arrived, and nothing removes it. *)
Theorem X5_mismatch_keeps_file {S : Type} (e : env) (url p : string)
        (callback : option (@callback_t S)) (block_size : Z)
        (st st0 : io_state S) (total_size total_downloaded : Z)
        (fd : fd_obj) :
  stream_transfer e url (Some p) callback block_size st
  = (Return (total_size, total_downloaded, fd), st0) ->
  total_size <> 0 ->
  total_downloaded <> total_size ->
  exists req,
    session_get e stream_session url = Return req
    /\ stream e url (Some p) callback block_size st
       = (Raise (AssertionError
                   (size_mismatch_msg total_downloaded total_size)), st0)
    /\ files st0
       = (files st
            ++ [mkFile p true
                       (List.concat (fst (iter_content req block_size)))])%list.
Proof.
  intros Htr H0 Hd. rewrite stream_unfold, Htr.
  apply stream_transfer_dest in Htr.
  destruct Htr as (req & Hget & _ & _ & _ & Hfiles).
  exists req. split; [assumption|]. split; [|assumption].
  destruct (stream_validate_spec (Some p) total_size total_downloaded fd st0)
    as [(_ & _ & ->)|([Hz|Hz] & _)]; [reflexivity|contradiction|contradiction].
Qed.

Lemma stream_state {S : Type} (e : env) url write_to
      (callback : option (@callback_t S)) block_size st :
  snd (stream e url write_to callback block_size st)
  = snd (stream_transfer e url write_to callback block_size st).
Proof.
  rewrite stream_unfold.
  destruct (stream_transfer e url write_to callback block_size st)
    as [[[[t d] fd]|ex] st0]; [|reflexivity].
  unfold stream_validate, throw, ret.
  destruct (negb (t =? 0) && negb (d =? t)); reflexivity.
Qed.

Lemma stream_loop_files_no_write {S : Type} (e : env) write_to
      (callback : option (@callback_t S)) block_size total_size chunks :
  forall fd n st,
    truthy write_to = false ->
    files (snd (stream_loop e write_to callback block_size total_size
                            chunks fd n st))
    = files st.
Proof.
  induction chunks as [|data rest IH]; intros fd n st Hf; [reflexivity|].
  cbn [stream_loop]. unfold bind.
  pose proof (call_files callback block_size total_size data st) as Hcf.
  destruct (call callback data block_size total_size st) as [[[]|ex] s1];
    cbn [snd] in Hcf; [|exact Hcf].
  rewrite Hf. unfold ret. rewrite IH by assumption. exact Hcf.
Qed.

(** X6.  Whatever happens, [stream] leaves every file object that
    existed before as it was, opens nothing without a destination, and
    with a destination [p] adds at most one file object, for [p]. *)
Theorem X6_stream_opens_at_most_one_file {S : Type} (e : env)
        (url : string) (write_to : option string)
        (callback : option (@callback_t S)) (block_size : Z)
        (st : io_state S) :
  let st1 := snd (stream e url write_to callback block_size st) in
  match write_to with
  | None => files st1 = files st
  | Some p =>
      files st1 = files st
      \/ exists closed written,
           files st1 = (files st ++ [mkFile p closed written])%list
  end.
Proof.
  cbv zeta. rewrite stream_state.
  unfold stream_transfer, bind, lift.
  destruct (session_get e stream_session url) as [req|ex];
    [|destruct write_to; [left|]; reflexivity].
  destruct (raise_for_status req) as [[]|ex];
    [|destruct write_to; [left|]; reflexivity].
  destruct (match content_length req with
            | Some v => py_int v | None => Return 0 end) as [t|ex];
    [|destruct write_to; [left|]; reflexivity].
  destruct write_to as [p|].
  - unfold open_wb.
    destruct (String.eqb_spec p "") as [|Hp]; [left; reflexivity|].
    destruct (open_error e p) as [ex|]; [left; reflexivity|].
    right.
    set (st0 := mkIO (cb_state st) (files st ++ [mkFile p false []])%list).
    destruct (stream_loop_file e callback block_size t p Hp
                (fst (iter_content req block_size)) (files st) [] 0 st0
                eq_refl) as (w' & Hfiles & Hret).
    destruct (stream_loop e (Some p) callback block_size t
                (fst (iter_content req block_size))
                (FdFile (List.length (files st))) 0 st0)
      as [[[fd1 d1]|ex1] s1]; cbn [snd] in Hfiles.
    + destruct (snd (iter_content req block_size)) as [ex2|].
      * exists false, w'. exact Hfiles.
      * destruct (Hret fd1 d1 eq_refl) as [-> _].
        rewrite (truthy_path p Hp).
        destruct s1 as [s1 fs1]. cbn [files] in Hfiles. subst fs1.
        rewrite (fd_close_last e p). exists true, w'.
        destruct (close_error e (mkFile p false w')); reflexivity.
    + exists false, w'. exact Hfiles.
  - unfold ret at 1.
    pose proof (stream_loop_files_no_write e None callback block_size t
                  (fst (iter_content req block_size))
                  (FdBytesIO (mkBytesIO [] 0)) 0 st eq_refl) as Hfiles.
    destruct (stream_loop e None callback block_size t
                (fst (iter_content req block_size))
                (FdBytesIO (mkBytesIO [] 0)) 0 st)
      as [[[fd1 d1]|ex1] s1]; cbn [snd] in Hfiles; [|exact Hfiles].
    destruct (snd (iter_content req block_size)) as [ex2|]; [exact Hfiles|].
    cbn [truthy]. unfold fd_seek0.
    destruct fd1 as [idx|b]; [|exact Hfiles].
    destruct (nth_error (files s1) idx) as [f|]; [|exact Hfiles].
    destruct (f_closed f); exact Hfiles.
Qed.

(** X7.  A request that fails, a 4xx or 5xx status and a content-length
    that is not a number are all raised before anything else is done:
    no file is opened or truncated and the callback is not called. *)
Theorem X7_early_errors_touch_nothing {S : Type} (e : env)
        (url : string) (write_to : option string)
        (callback : option (@callback_t S)) (block_size : Z)
        (st : io_state S) :
  match session_get e stream_session url with
  | Raise ex =>
      stream e url write_to callback block_size st = (Raise ex, st)
  | Return req =>
      (400 <= status_code req < 600 ->
       stream e url write_to callback block_size st
       = (Raise (HTTPError (status_code req)), st))
      /\ (~ 400 <= status_code req < 600 ->
          forall ex, declared_size req = Raise ex ->
                     stream e url write_to callback block_size st
                     = (Raise ex, st))
  end.
Proof.
  unfold stream, stream_transfer, bind, lift, raise_for_status, declared_size.
  destruct (session_get e stream_session url) as [req|ex]; [|reflexivity].
  destruct (Z.leb_spec 400 (status_code req));
    destruct (Z.ltb_spec (status_code req) 600); cbn [andb];
    (split; [intros Hs; first [reflexivity|lia]|intros Hs ex Hex]);
    try lia; rewrite Hex; reflexivity.
Qed.

(** X8.  With the default callback ([None]) [stream] cannot get past
    the first chunk: once the request succeeded and the destination, if
    any, is open, a non-empty body ends the call with [TypeError]. *)
Theorem X8_default_callback_fails {S : Type} (e : env) (url : string)
        (write_to : option string) (block_size : Z) (st : io_state S)
        (req : Response) (t : Z) (c : list byte) (rest : list (list byte)) :
  session_get e stream_session url = Return req ->
  raise_for_status req = Return tt ->
  declared_size req = Return t ->
  (forall p, write_to = Some p -> p <> "" /\ open_error e p = None) ->
  fst (iter_content req block_size) = c :: rest ->
  fst (stream e url write_to None block_size st) = Raise TypeError.
Proof.
  intros Hget Hst Hdecl Hopen Hbody.
  unfold stream, stream_transfer, bind, lift.
  rewrite Hget, Hst. unfold declared_size in Hdecl. rewrite Hdecl, Hbody.
  destruct write_to as [p|].
  - destruct (Hopen p eq_refl) as [Hp Ho]. unfold open_wb.
    destruct (String.eqb_spec p ""); [contradiction|]. rewrite Ho.
    reflexivity.
  - reflexivity.
Qed.

(** ** The callback as stream drives it *)

Lemma fd_write_cb_state {S : Type} (e : env) fd data (st : io_state S) :
  cb_state (snd (fd_write e fd data st)) = cb_state st.
Proof.
  unfold fd_write. destruct fd as [idx|b]; [|reflexivity].
  destruct (nth_error (files st) idx) as [f|]; [|reflexivity].
  destruct (f_closed f); [reflexivity|].
  destruct (write_error e f data); reflexivity.
Qed.

Lemma fd_close_cb_state {S : Type} (e : env) fd (st : io_state S) :
  cb_state (snd (fd_close e fd st)) = cb_state st.
Proof.
  unfold fd_close. destruct fd as [idx|b]; [|reflexivity].
  destruct (nth_error (files st) idx) as [f|]; [|reflexivity].
  destruct (f_closed f); [reflexivity|].
  cbv zeta. destruct (close_error e f); reflexivity.
Qed.

Lemma fd_seek0_cb_state {S : Type} fd (st : io_state S) :
  cb_state (snd (fd_seek0 fd st)) = cb_state st.
Proof.
  unfold fd_seek0. destruct fd as [idx|b]; [|reflexivity].
  destruct (nth_error (files st) idx) as [f|]; [|reflexivity].
  destruct (f_closed f); reflexivity.
Qed.

Lemma stream_loop_callback {S : Type} (e : env) write_to
      (cb : @callback_t S) block_size total_size chunks :
  forall fd n st r st',
    stream_loop e write_to (Some cb) block_size total_size chunks fd n st
    = (Return r, st') ->
    cb_state st' = run_callback cb block_size total_size chunks (cb_state st).
Proof.
  induction chunks as [|data rest IH]; intros fd n st r st' H.
  - cbn in H. injection H as <- <-. reflexivity.
  - cbn [stream_loop] in H. unfold bind, call in H.
    unfold run_callback. cbn [fold_left].
    destruct (cb (ChunkBytes data) block_size total_size (cb_state st))
      as [[[]|ex] s1]; [|discriminate].
    cbn [snd].
    destruct (truthy write_to).
    + pose proof (fd_write_cb_state e fd data (mkIO s1 (files st))) as Hw.
      destruct (fd_write e fd data (mkIO s1 (files st)))
        as [[fd1|ex] s2]; [|discriminate].
      cbn [snd cb_state] in Hw. apply IH in H. rewrite H, Hw. reflexivity.
    + unfold ret in H. apply IH in H. exact H.
Qed.

Lemma stream_transfer_callback {S : Type} (e : env) url write_to
      (cb : @callback_t S) block_size st t d fd st1 :
  stream_transfer e url write_to (Some cb) block_size st
  = (Return (t, d, fd), st1) ->
  exists req,
    session_get e stream_session url = Return req
    /\ declared_size req = Return t
    /\ d = total_len (fst (iter_content req block_size))
    /\ cb_state st1
       = run_callback cb block_size t (fst (iter_content req block_size))
                      (cb_state st).
Proof.
  unfold stream_transfer, bind, lift, declared_size.
  destruct (session_get e stream_session url) as [req|ex]; [|discriminate].
  destruct (raise_for_status req) as [[]|ex]; [|discriminate].
  destruct (match content_length req with
            | Some v => py_int v | None => Return 0 end) as [t0|ex]
    eqn:Hdecl; [|discriminate].
  assert (Hopen : forall fd0 s0,
             match write_to with
             | Some p => open_wb e p
             | None => ret (FdBytesIO (mkBytesIO [] 0))
             end st = (Return fd0, s0) -> cb_state s0 = cb_state st).
  { intros fd0 s0. destruct write_to as [p|].
    - unfold open_wb. destruct (String.eqb p ""); [discriminate|].
      destruct (open_error e p); [discriminate|].
      intros [= <- <-]. reflexivity.
    - intros [= <- <-]. reflexivity. }
  destruct (match write_to with
            | Some p => open_wb e p
            | None => ret (FdBytesIO (mkBytesIO [] 0))
            end st) as [[fd0|ex] s0]; [|discriminate].
  specialize (Hopen fd0 s0 eq_refl).
  destruct (stream_loop e write_to (Some cb) block_size t0
              (fst (iter_content req block_size)) fd0 0 s0)
    as [[[fd1 d1]|ex] s1] eqn:Hloop; [|discriminate].
  pose proof Hloop as Hcount. apply stream_loop_count in Hcount.
  apply stream_loop_callback in Hloop.
  destruct (snd (iter_content req block_size)) as [ex|]; [discriminate|].
  assert (Hend : forall fd2 s2,
             (if truthy write_to then fd_close e fd1 else fd_seek0 fd1) s1
             = (Return fd2, s2) -> cb_state s2 = cb_state s1).
  { intros fd2 s2 Heq. destruct (truthy write_to).
    - pose proof (fd_close_cb_state e fd1 s1) as Hc.
      rewrite Heq in Hc. exact Hc.
    - pose proof (fd_seek0_cb_state fd1 s1) as Hc.
      rewrite Heq in Hc. exact Hc. }
  destruct ((if truthy write_to then fd_close e fd1 else fd_seek0 fd1) s1)
    as [[fd2|ex] s2]; [|discriminate].
  specialize (Hend fd2 s2 eq_refl). unfold ret.
  intros [= <- <- <- <-].
  exists req. split; [reflexivity|]. split; [assumption|].
  split; [lia|]. congruence.
Qed.

Lemma stream_returns_callback {S : Type} (e : env) url write_to
      (cb : @callback_t S) block_size st n d st1 :
  stream e url write_to (Some cb) block_size st = (Return (n, d), st1) ->
  exists req t,
    session_get e stream_session url = Return req
    /\ declared_size req = Return t
    /\ n = total_len (fst (iter_content req block_size))
    /\ (t = 0 \/ n = t)
    /\ cb_state st1
       = run_callback cb block_size t (fst (iter_content req block_size))
                      (cb_state st).
Proof.
  rewrite stream_unfold.
  destruct (stream_transfer e url write_to (Some cb) block_size st)
    as [[[[t d0] fd]|ex] st0] eqn:Htr; [|discriminate].
  apply stream_transfer_callback in Htr.
  destruct Htr as (req & Hget & Hdecl & Hd & Hcb).
  destruct (stream_validate_spec write_to t d0 fd st0)
    as [(_ & _ & ->)|(Hok & d1 & ->)]; [discriminate|].
  intros [= <- <- <-]. exists req, t. subst d0. auto.
Qed.

Lemma run_callback_recorder block_size total_size chunks : forall log,
  run_callback recorder block_size total_size chunks log
  = (log ++ map (fun data => (ChunkBytes data, block_size, total_size))
                chunks)%list.
Proof.
  induction chunks as [|data rest IH]; intros log.
  - cbn. rewrite app_nil_r. reflexivity.
  - unfold run_callback in *. cbn [fold_left map recorder snd].
    rewrite IH, <- app_assoc. reflexivity.
Qed.

Lemma run_callback_reporthook block_size total_size chunks : forall hs,
  run_callback reporthook block_size total_size chunks hs
  = run_calls (stream_calls block_size total_size chunks) hs.
Proof.
  induction chunks as [|data rest IH]; intros hs; [reflexivity|].
  unfold run_callback, run_calls, stream_calls in *.
  cbn [fold_left map]. rewrite IH. reflexivity.
Qed.

Lemma stream_calls_counter block_size total_size chunks : forall hs,
  _current_size (hook (run_calls (stream_calls block_size total_size chunks)
                                 hs))
  = _current_size (hook hs) + block_size * Z.of_nat (List.length chunks).
Proof.
  induction chunks as [|data rest IH]; intros hs.
  - cbn. lia.
  - change (run_calls (stream_calls block_size total_size (data :: rest)) hs)
      with (run_calls (stream_calls block_size total_size rest)
              (after_call hs (mkCall (ChunkBytes data) block_size
                                     total_size))).
    rewrite IH, after_call_counter. cbn [call_chunk chunk_ne_0 call_size].
    cbn [List.length]. lia.
Qed.

(** X9.  A call of [stream] that returns has called the callback once
    per received chunk, in the order of arrival and before any later
    chunk was fetched, each time with the chunk itself, the block size
    (not the length of the chunk) and the declared total. *)
Theorem X9_callback_once_per_chunk (e : env) (url : string)
        (write_to : option string) (block_size : Z)
        (st : io_state (list (chunk_arg * Z * Z))) (n : Z) (d : dest)
        (st1 : io_state (list (chunk_arg * Z * Z))) :
  stream e url write_to (Some recorder) block_size st
  = (Return (n, d), st1) ->
  exists req t,
    session_get e stream_session url = Return req
    /\ declared_size req = Return t
    /\ cb_state st1
       = (cb_state st
            ++ map (fun data => (ChunkBytes data, block_size, t))
                   (fst (iter_content req block_size)))%list.
Proof.
  intros H. apply stream_returns_callback in H.
  destruct H as (req & t & Hget & Hdecl & _ & _ & Hcb).
  exists req, t. rewrite run_callback_recorder in Hcb. auto.
Qed.

(** X10.  Driven by [stream], a progress hook counts blocks, not bytes:
    after a call that returned [n] bytes in [k] chunks the hook's
    counter has grown by [k * block_size], whatever the chunks' lengths
    were. *)
Theorem X10_hook_counts_blocks (e : env) (url : string)
        (write_to : option string) (block_size : Z)
        (st : io_state hook_state) (n : Z) (d : dest)
        (st1 : io_state hook_state) :
  stream e url write_to (Some (reporthook : callback_t)) block_size st
  = (Return (n, d), st1) ->
  exists req,
    session_get e stream_session url = Return req
    /\ n = total_len (fst (iter_content req block_size))
    /\ _current_size (hook (cb_state st1))
       = _current_size (hook (cb_state st))
         + block_size
           * Z.of_nat (List.length (fst (iter_content req block_size))).
Proof.
  intros H. apply stream_returns_callback in H.
  destruct H as (req & t & Hget & _ & Hn & _ & Hcb).
  exists req. split; [assumption|]. split; [assumption|].
  rewrite Hcb, run_callback_reporthook. apply stream_calls_counter.
Qed.

(** ** What the callback's state goes through *)

Section StreamCallbackInvariant.

Context {S : Type}.
Variable e : env.
Variable callback : option (@callback_t S).
Variable R : S -> S -> Prop.
Hypothesis R_refl : forall s, R s s.
Hypothesis R_trans : forall a b c, R a b -> R b c -> R a c.
Hypothesis R_step :
  forall cb chunk chunk_size total_size s,
    callback = Some cb -> R s (snd (cb chunk chunk_size total_size s)).

Lemma call_related data block_size total_size (st : io_state S) :
  R (cb_state st)
    (cb_state (snd (call callback data block_size total_size st))).
Proof.
  unfold call. destruct callback as [cb|] eqn:Hcb; [|apply R_refl].
  pose proof (R_step cb (ChunkBytes data) block_size total_size
                     (cb_state st) eq_refl) as H.
  destruct (cb (ChunkBytes data) block_size total_size (cb_state st)).
  exact H.
Qed.

Lemma stream_loop_related write_to block_size total_size chunks :
  forall fd n (st : io_state S),
    R (cb_state st)
      (cb_state (snd (stream_loop e write_to callback block_size total_size
                                  chunks fd n st))).
Proof.
  induction chunks as [|data rest IH]; intros fd n st; [apply R_refl|].
  cbn [stream_loop]. unfold bind.
  pose proof (call_related data block_size total_size st) as Hc.
  destruct (call callback data block_size total_size st) as [[[]|ex] s1];
    cbn [snd] in Hc; [|exact Hc].
  destruct (truthy write_to).
  - pose proof (fd_write_cb_state e fd data s1) as Hw.
    destruct (fd_write e fd data s1) as [[fd1|ex] s2]; cbn [snd] in Hw.
    + eapply R_trans; [exact Hc|]. rewrite <- Hw. apply IH.
    + cbn [snd]. rewrite Hw. exact Hc.
  - unfold ret. eapply R_trans; [exact Hc|]. apply IH.
Qed.

Lemma stream_related url write_to block_size (st : io_state S) :
  R (cb_state st)
    (cb_state (snd (stream e url write_to callback block_size st))).
Proof.
  rewrite stream_state. unfold stream_transfer, bind, lift.
  destruct (session_get e stream_session url) as [req|ex]; [|apply R_refl].
  destruct (raise_for_status req) as [[]|ex]; [|apply R_refl].
  destruct (match content_length req with
            | Some v => py_int v | None => Return 0 end) as [t|ex];
    [|apply R_refl].
  assert (Hopen : cb_state (snd (match write_to with
                                 | Some p => open_wb e p
                                 | None => ret (FdBytesIO (mkBytesIO [] 0))
                                 end st)) = cb_state st).
  { destruct write_to as [p|]; [|reflexivity].
    unfold open_wb. destruct (String.eqb p ""); [reflexivity|].
    destruct (open_error e p); reflexivity. }
  destruct (match write_to with
            | Some p => open_wb e p
            | None => ret (FdBytesIO (mkBytesIO [] 0))
            end st) as [[fd0|ex] s0]; cbn [snd] in Hopen |- *;
    [|rewrite Hopen; apply R_refl].
  rewrite <- Hopen.
  pose proof (stream_loop_related write_to block_size t
                (fst (iter_content req block_size)) fd0 0 s0) as Hloop.
  destruct (stream_loop e write_to callback block_size t
              (fst (iter_content req block_size)) fd0 0 s0)
    as [[[fd1 d1]|ex] s1]; cbn [snd] in Hloop; [|exact Hloop].
  destruct (snd (iter_content req block_size)) as [ex|]; [exact Hloop|].
  assert (Hend : cb_state (snd ((if truthy write_to then fd_close e fd1
                                 else fd_seek0 fd1) s1)) = cb_state s1).
  { destruct (truthy write_to);
      [apply fd_close_cb_state|apply fd_seek0_cb_state]. }
  destruct ((if truthy write_to then fd_close e fd1 else fd_seek0 fd1) s1)
    as [[fd2|ex] s2]; unfold ret; cbn [snd] in Hend |- *; rewrite Hend;
    exact Hloop.
Qed.

End StreamCallbackInvariant.

(** ** download_file and its progress bar *)

Lemma reporthook_appends chunk chunk_size total_size hs :
  exists lines,
    stdout (snd (reporthook chunk chunk_size total_size hs))
    = (stdout hs ++ lines)%list.
Proof.
  unfold reporthook.
  destruct (compute_line _ _ total_size) as [line|ex].
  - destruct (line_ne line _).
    + exists [line]. reflexivity.
    + exists []. cbn. rewrite app_nil_r. reflexivity.
  - exists []. cbn. rewrite app_nil_r. reflexivity.
Qed.

Lemma total_len_nonneg chunks : 0 <= total_len chunks.
Proof.
  induction chunks as [|data rest IH]; [cbn; lia|].
  unfold total_len in *. cbn [fold_right].
  pose proof (Nat2Z.is_nonneg (List.length data)). unfold len at 1. lia.
Qed.

Lemma total_len_blocks block_size chunks :
  Forall (fun data => len data <= block_size) chunks ->
  total_len chunks <= block_size * Z.of_nat (List.length chunks).
Proof.
  induction 1 as [|data rest Hd _ IH]; [cbn; lia|].
  unfold total_len in *. cbn [fold_right List.length]. lia.
Qed.

Lemma stream_calls_forward block_size total_size chunks :
  0 < block_size ->
  Forall (more_progress total_size)
         (stream_calls block_size total_size chunks).
Proof.
  intros Hpos. unfold stream_calls. apply Forall_map, Forall_forall.
  intros data _. split; [reflexivity|]. split; [discriminate|exact Hpos].
Qed.

(** Forward calls on a fresh hook that reach a known total show the
    completed bar once. *)
Lemma forward_calls_full_once out total calls :
  total <> -1 ->
  calls <> [] ->
  Forall (more_progress total) calls ->
  total <= _current_size (hook (run_calls calls (fresh_hook out))) ->
  exists lines,
    stdout (run_calls calls (fresh_hook out))
    = (out ++ empty_bar :: lines)%list
    /\ count_line (full_bar 60) lines = 1%nat.
Proof.
  intros Hknown Hne Hall Hreach.
  unfold fresh_hook in *. rewrite fresh_hook_eq in *. cbn [snd] in *.
  destruct calls as [|c calls]; [congruence|].
  inversion Hall as [|c' l Hc Hl]; subst.
  change (run_calls (c :: calls) ?s)
    with (run_calls calls (after_call s c)) in *.
  set (st0 := mkHookState (mkReportHook 0 60 (Some empty_bar))
                          (out ++ [empty_bar])%list) in *.
  destruct (more_progress_step (out ++ [empty_bar])%list total st0 c []
              Hknown Hc)
    as (lines1 & Hw1 & Hout1 & Hhi1 & Hlo1).
  { reflexivity. }
  { unfold st0. cbn [stdout]. rewrite app_nil_r. reflexivity. }
  { left. split; [reflexivity|].
    unfold st0. cbn [hook _last_line]. intros H.
    apply empty_bar_not_full. congruence. }
  destruct (more_progress_run (out ++ [empty_bar])%list total calls
              (after_call st0 c) lines1)
    as (lines & Hout & Hcount); try assumption.
  exists lines. rewrite Hout, <- app_assoc. auto.
Qed.

(** A callback that does, whenever it returns, what another one
    does can stand in for it in a run of [stream] that returns. *)
Section StreamCallbackSim.

Context {S : Type}.
Variable e : env.
Variables cb1 cb2 : @callback_t S.
Hypothesis sim :
  forall chunk chunk_size total_size s s',
    cb1 chunk chunk_size total_size s = (Return tt, s') ->
    cb2 chunk chunk_size total_size s = (Return tt, s').

Lemma stream_loop_sim write_to block_size total_size chunks :
  forall fd n (st : io_state S) r st',
    stream_loop e write_to (Some cb1) block_size total_size chunks fd n st
    = (Return r, st') ->
    stream_loop e write_to (Some cb2) block_size total_size chunks fd n st
    = (Return r, st').
Proof.
  induction chunks as [|data rest IH]; intros fd n st r st' H; [exact H|].
  cbn [stream_loop] in *. unfold bind, call in *.
  destruct (cb1 (ChunkBytes data) block_size total_size (cb_state st))
    as [[[]|ex] s1] eqn:H1; [|discriminate].
  rewrite (sim _ _ _ _ _ H1).
  destruct (truthy write_to).
  - destruct (fd_write e fd data (mkIO s1 (files st))) as [[fd1|ex] s2];
      [|discriminate].
    apply IH, H.
  - unfold ret in *. apply IH, H.
Qed.

Lemma stream_sim url write_to block_size (st : io_state S) r st' :
  stream e url write_to (Some cb1) block_size st = (Return r, st') ->
  stream e url write_to (Some cb2) block_size st = (Return r, st').
Proof.
  unfold stream, stream_transfer, bind, lift.
  destruct (session_get e stream_session url) as [req|ex]; [|discriminate].
  destruct (raise_for_status req) as [[]|ex]; [|discriminate].
  destruct (match content_length req with
            | Some v => py_int v | None => Return 0 end) as [t|ex];
    [|discriminate].
  destruct (match write_to with
            | Some p => open_wb e p
            | None => ret (FdBytesIO (mkBytesIO [] 0))
            end st) as [[fd0|ex] s0]; [|discriminate].
  destruct (stream_loop e write_to (Some cb1) block_size t
              (fst (iter_content req block_size)) fd0 0 s0)
    as [[r1|ex] s1] eqn:Hloop; [|discriminate].
  apply stream_loop_sim in Hloop. rewrite Hloop. exact (fun H => H).
Qed.

End StreamCallbackSim.

(** X11.  A download that succeeds with a non-empty body, received in
    chunks no longer than the block size, ends its progress output
    properly: after the empty bar drawn at the start, the completed
    100% bar is printed exactly once. *)
Theorem X11_download_shows_full_bar_once (e : env) (url fpath : string)
        (w w' : world) (n : Z) (req : Response) :
  download_file e url fpath w = (Return (true, Size n), w') ->
  session_get e stream_session url = Return req ->
  fst (iter_content req default_block_size) <> [] ->
  Forall (fun data => len data <= default_block_size)
         (fst (iter_content req default_block_size)) ->
  exists lines,
    w_stdout w' = (w_stdout w ++ empty_bar :: lines)%list
    /\ count_line (full_bar 60) lines = 1%nat.
Proof.
  intros Hdl Hget Hne Hsmall. unfold download_file in Hdl.
  rewrite fresh_hook_io_eq in Hdl.
  destruct (print_error e (w_stdout w) empty_bar); [discriminate|].
  cbv zeta in Hdl.
  destruct (stream e url (Some fpath) _ default_block_size _)
    as [[[size path]|exp] st] eqn:Hs;
    [|destruct (print_error e _ (str_of_exn e exp)); discriminate].
  injection Hdl as <- <-. cbn [w_stdout].
  apply (stream_sim e _ reporthook) in Hs;
    [|intros c cs ts s s'; apply reporthook_io_return].
  apply stream_returns_callback in Hs.
  destruct Hs as (req' & t & Hget' & Hdecl & Hn & Hok & Hcb).
  assert (req' = req) by congruence. subst req'.
  cbn [cb_state] in Hcb. rewrite run_callback_reporthook in Hcb.
  rewrite Hcb.
  apply (forward_calls_full_once (w_stdout w) t).
  - pose proof (total_len_nonneg (fst (iter_content req default_block_size))).
    lia.
  - unfold stream_calls.
    destruct (fst (iter_content req default_block_size));
      [congruence|discriminate].
  - apply stream_calls_forward. reflexivity.
  - rewrite stream_calls_counter.
    pose proof (total_len_blocks _ _ Hsmall) as Hle.
    unfold fresh_hook. rewrite fresh_hook_eq. cbn [snd hook _current_size].
    assert (0 <= default_block_size
                 * Z.of_nat (List.length
                               (fst (iter_content req default_block_size))))
      by (unfold default_block_size; lia).
    lia.
Qed.

(** X12.  Whatever happens, [download_file] only adds to the standard
    output: first the empty bar, then the lines of the hook; when it
    reports a failure, the text of the exception is the last thing
    printed.  Only when the empty bar itself cannot be printed is
    nothing added: then what [print] raised leaves the function. *)
Theorem X12_download_output (e : env) (url fpath : string) (w : world) :
  let r := download_file e url fpath w in
  match print_error e (w_stdout w) empty_bar with
  | None =>
      exists lines,
        w_stdout (snd r) = (w_stdout w ++ empty_bar :: lines)%list
        /\ forall exp,
             fst r = Return (false, Error exp) ->
             exists before, lines = (before ++ [str_of_exn e exp])%list
  | Some ex => fst r = Raise ex /\ w_stdout (snd r) = w_stdout w
  end.
Proof.
  cbv zeta. unfold download_file. rewrite fresh_hook_io_eq.
  destruct (print_error e (w_stdout w) empty_bar) as [ex0|];
    [split; reflexivity|].
  cbv zeta. unfold fresh_hook. rewrite fresh_hook_eq. cbn [snd].
  set (hs := mkHookState (mkReportHook 0 60 (Some empty_bar))
                         (w_stdout w ++ [empty_bar])%list).
  pose proof (stream_related e
                (Some (reporthook_io (print_error e) : callback_t))
                (fun a b => exists l, stdout b = (stdout a ++ l)%list))
    as Hrel.
  destruct (Hrel) with (url := url) (write_to := Some fpath)
                       (block_size := default_block_size)
                       (st := mkIO hs (w_files w)) as [l Hl].
  { intros s. exists []. rewrite app_nil_r. reflexivity. }
  { intros a b c [l1 H1] [l2 H2]. exists (l1 ++ l2)%list.
    rewrite H2, H1, app_assoc. reflexivity. }
  { intros cb chunk cs ts s [= <-]. apply reporthook_io_appends. }
  clear Hrel. cbn [cb_state] in Hl. unfold hs in Hl at 2. cbn [stdout] in Hl.
  destruct (stream e url (Some fpath) _ default_block_size _)
    as [[[size path]|exp] st]; cbn [snd fst w_stdout] in *.
  - exists l. split.
    + rewrite Hl, <- app_assoc. reflexivity.
    + intros exp [=].
  - destruct (print_error e _ (str_of_exn e exp)); cbn [snd fst w_stdout].
    + exists l. split.
      * rewrite Hl, <- app_assoc. reflexivity.
      * intros exp' [=].
    + exists (l ++ [str_of_exn e exp])%list. split.
      * rewrite Hl, <- !app_assoc. reflexivity.
      * intros exp' [= <-]. exists l. reflexivity.
Qed.

(** ** When a download goes through *)

Section StreamProgress.

Context {S : Type}.
Variable e : env.
Variable cb : @callback_t S.
Variables (block_size total_size : Z).
Variable p : string.
Hypothesis p_nonempty : p <> "".
Variable I : S -> Prop.
Hypothesis cb_ok :
  forall data s,
    I s ->
    fst (cb (ChunkBytes data) block_size total_size s) = Return tt
    /\ I (snd (cb (ChunkBytes data) block_size total_size s)).
Hypothesis write_ok : forall f data, write_error e f data = None.
Hypothesis close_ok : forall f, close_error e f = None.

Lemma stream_loop_succeeds chunks : forall pre w n (st : io_state S),
  files st = (pre ++ [mkFile p false w])%list ->
  I (cb_state st) ->
  exists s',
    stream_loop e (Some p) (Some cb) block_size total_size chunks
                (FdFile (List.length pre)) n st
    = (Return (FdFile (List.length pre), n + total_len chunks),
       mkIO s' (pre ++ [mkFile p false (w ++ List.concat chunks)])%list)
    /\ I s'.
Proof.
  induction chunks as [|data rest IH]; intros pre w n st Hfiles HI.
  - exists (cb_state st). cbn [stream_loop List.concat]. unfold ret.
    rewrite app_nil_r, <- Hfiles. destruct st as [s fs]. cbn [cb_state files].
    split; [|exact HI]. f_equal. f_equal. f_equal. cbn. lia.
  - cbn [stream_loop]. unfold bind, call.
    destruct (cb_ok data (cb_state st) HI) as [Hr HI'].
    destruct (cb (ChunkBytes data) block_size total_size (cb_state st))
      as [r s1]. cbn [fst snd] in Hr, HI'. subst r.
    rewrite (truthy_path p p_nonempty). unfold fd_write. cbn [files].
    rewrite Hfiles, nth_error_last. cbn [f_closed f_path f_written].
    rewrite write_ok.
    rewrite set_file_last.
    destruct (IH pre (w ++ data)%list (n + len data)
                 (mkIO s1 (pre ++ [mkFile p false (w ++ data)])%list)
                 eq_refl HI') as (s' & Hloop & HI'').
    exists s'. rewrite Hloop. split; [|exact HI''].
    cbn [List.concat]. rewrite <- app_assoc. f_equal. f_equal. f_equal.
    unfold total_len. cbn [fold_right]. lia.
Qed.

Lemma stream_succeeds url (st : io_state S) req chunks :
  session_get e stream_session url = Return req ->
  raise_for_status req = Return tt ->
  declared_size req = Return total_size ->
  total_size = 0 \/ total_size = total_len chunks ->
  iter_content req block_size = (chunks, None) ->
  open_error e p = None ->
  I (cb_state st) ->
  exists s',
    stream e url (Some p) (Some cb) block_size st
    = (Return (total_len chunks, DestPath p),
       mkIO s' (files st ++ [mkFile p true (List.concat chunks)])%list)
    /\ I s'.
Proof.
  intros Hget Hst Hdecl Hsize Hbody Hopen HI.
  unfold stream, stream_transfer, bind, lift.
  rewrite Hget, Hst. unfold declared_size in Hdecl. rewrite Hdecl.
  unfold open_wb. destruct (String.eqb_spec p ""); [contradiction|].
  rewrite Hopen, Hbody. cbn [fst snd].
  destruct (stream_loop_succeeds chunks (files st) [] 0
              (mkIO (cb_state st) (files st ++ [mkFile p false []])%list)
              eq_refl HI) as (s' & Hloop & HI').
  rewrite Hloop. rewrite (truthy_path p p_nonempty).
  rewrite (fd_close_last e p), close_ok. unfold ret.
  exists s'. split; [|exact HI'].
  cbn [app Z.add]. unfold stream_validate.
  replace (negb (total_size =? 0) && negb (total_len chunks =? total_size))
    with false.
  - rewrite (truthy_path p p_nonempty). reflexivity.
  - destruct Hsize as [->| ->]; [reflexivity|].
    rewrite Z.eqb_refl, andb_false_r. reflexivity.
Qed.

End StreamProgress.

(** X13.  [stream] into a file goes through when nothing stands in its
    way: if the server answers without an error status, declares no
    size or exactly the size of the body, the body arrives whole, the
    file opens, no write fails, closing the file does not fail and the
    callback never raises, then [stream] returns the number of bytes of
    the body and the path, and leaves the file closed and holding the
    body. *)
Theorem X13_stream_succeeds {S : Type} (e : env) (cb : @callback_t S)
        (url p : string) (block_size t : Z) (st : io_state S)
        (req : Response) (chunks : list (list byte)) :
  p <> "" ->
  (forall data s, fst (cb (ChunkBytes data) block_size t s) = Return tt) ->
  (forall f data, write_error e f data = None) ->
  (forall f, close_error e f = None) ->
  session_get e stream_session url = Return req ->
  raise_for_status req = Return tt ->
  declared_size req = Return t ->
  t = 0 \/ t = total_len chunks ->
  iter_content req block_size = (chunks, None) ->
  open_error e p = None ->
  exists s',
    stream e url (Some p) (Some cb) block_size st
    = (Return (total_len chunks, DestPath p),
       mkIO s' (files st ++ [mkFile p true (List.concat chunks)])%list).
Proof.
  intros Hp Hcb Hw Hc Hget Hst Hdecl Hsize Hbody Hopen.
  destruct (stream_succeeds e cb block_size t p Hp (fun _ => True)
              (fun data s _ => conj (Hcb data s) Logic.I) Hw Hc url st req
              chunks Hget Hst Hdecl Hsize Hbody Hopen Logic.I)
    as (s' & H & _).
  exists s'. exact H.
Qed.

Lemma reporthook_returns chunk chunk_size total_size hs :
  width (hook hs) = 60 ->
  0 <= _current_size (hook hs) ->
  0 <= chunk_size ->
  total_size < int_limit ->
  fst (reporthook chunk chunk_size total_size hs) = Return tt
  /\ width (hook (snd (reporthook chunk chunk_size total_size hs))) = 60
  /\ 0 <= _current_size
            (hook (snd (reporthook chunk chunk_size total_size hs))).
Proof.
  intros Hw Hc Hs Hlim.
  pose proof (reporthook_width chunk chunk_size total_size hs) as Hw'.
  pose proof (reporthook_counter chunk chunk_size total_size hs) as Hc'.
  split; [|split; [congruence|destruct (chunk_ne_0 chunk); lia]].
  pose proof (reporthook_outcome hs (mkCall chunk chunk_size total_size))
    as Ho.
  cbn [call_chunk call_size call_total] in Ho. rewrite Ho.
  rewrite computed_line_eq. unfold after_call.
  cbn [call_chunk call_size call_total]. rewrite Hw.
  set (c := _current_size
              (hook (snd (reporthook chunk chunk_size total_size hs)))) in *.
  assert (0 <= c) by (destruct (chunk_ne_0 chunk); lia).
  destruct (Z.eq_dec total_size (-1)) as [->|Hknown]; [reflexivity|].
  destruct (Z_lt_le_dec c total_size) as [Hlt|Hge].
  - destruct (compute_line_partial_total c total_size) as [line ->];
      [lia|assumption|reflexivity].
  - rewrite compute_line_full by assumption. reflexivity.
Qed.

(** On a standard output that takes every line, a hook of width 60
    with a non-negative counter returns and stays such a hook. *)
Lemma reporthook_io_returns perr chunk chunk_size total_size hs :
  (forall out text, perr out text = None) ->
  width (hook hs) = 60 /\ 0 <= _current_size (hook hs) ->
  0 <= chunk_size ->
  total_size < int_limit ->
  fst (reporthook_io perr chunk chunk_size total_size hs) = Return tt
  /\ (width (hook (snd (reporthook_io perr chunk chunk_size total_size hs)))
      = 60
      /\ 0 <= _current_size
                (hook (snd (reporthook_io perr chunk chunk_size total_size
                                          hs)))).
Proof.
  intros Hok [Hw Hc] Hs Hlim. rewrite (reporthook_io_ok perr) by exact Hok.
  destruct (reporthook_returns chunk chunk_size total_size hs)
    as (H1 & H2 & H3); auto.
Qed.

(** X14.  [download_file] succeeds against a well-behaved server and
    file system: without an error status, with no declared size or the
    true one (below 2^1024 - 2^970), a body that arrives whole, a path
    that opens, writes and a close that do not fail and a standard
    output that takes every text, it returns [(True, size)] with the
    size of the body, and the file at the path is closed and holds the
    body. *)
Theorem X14_download_succeeds (e : env) (url fpath : string) (w : world)
        (req : Response) (t : Z) (chunks : list (list byte)) :
  fpath <> "" ->
  (forall f data, write_error e f data = None) ->
  (forall f, close_error e f = None) ->
  (forall out text, print_error e out text = None) ->
  session_get e stream_session url = Return req ->
  raise_for_status req = Return tt ->
  declared_size req = Return t ->
  t = 0 \/ t = total_len chunks ->
  t < int_limit ->
  iter_content req default_block_size = (chunks, None) ->
  open_error e fpath = None ->
  exists out,
    download_file e url fpath w
    = (Return (true, Size (total_len chunks)),
       mkWorld out
               (w_files w ++ [mkFile fpath true (List.concat chunks)])%list).
Proof.
  intros Hp Hw Hc Hpr Hget Hst Hdecl Hsize Hlim Hbody Hopen.
  unfold download_file. rewrite fresh_hook_io_eq, Hpr. cbv zeta.
  destruct (stream_succeeds e (reporthook_io (print_error e))
              default_block_size t fpath Hp
              (fun s => width (hook s) = 60 /\ 0 <= _current_size (hook s)))
    with (url := url) (st := mkIO (fresh_hook (w_stdout w)) (w_files w))
         (req := req) (chunks := chunks) as (s' & Hs & _); try assumption.
  - intros data s HI.
    apply reporthook_io_returns; try assumption.
    unfold default_block_size. lia.
  - unfold fresh_hook. rewrite fresh_hook_eq. split; [reflexivity|].
    cbn. lia.
  - rewrite Hs. exists (stdout s'). reflexivity.
Qed.

(** ** What get_sdcard_bytes reads *)

Lemma starts_with_spec p : forall s r, starts_with p s = Some r -> s = p ++ r.
Proof.
  induction p as [|a p IH]; intros s r H.
  - cbn in H. injection H as <-. reflexivity.
  - destruct s as [|b s]; [discriminate|]. cbn [starts_with] in H.
    destruct (Ascii.eqb_spec a b) as [<-|]; [|discriminate].
    cbn [String.append]. f_equal. apply IH, H.
Qed.

Lemma starts_with_app p r : starts_with p (p ++ r) = Some r.
Proof.
  induction p as [|a p IH]; [destruct r; reflexivity|].
  cbn [String.append starts_with]. rewrite Ascii.eqb_refl. exact IH.
Qed.

Lemma take_digits_spec s : forall d r, take_digits s = (d, r) -> s = d ++ r.
Proof.
  induction s as [|c s IH]; intros d r H.
  - cbn in H. injection H as <- <-. reflexivity.
  - cbn [take_digits] in H. destruct (is_digit c).
    + destruct (take_digits s) as [d' r']. injection H as <- <-.
      cbn [String.append]. f_equal. apply IH. reflexivity.
    + injection H as <- <-. reflexivity.
Qed.

Lemma take_digits_app g c r :
  all_digits g = true -> is_digit c = false ->
  take_digits (g ++ String c r) = (g, String c r).
Proof.
  intros Hall Hc. induction g as [|a g IH].
  - cbn [String.append take_digits]. rewrite Hc. reflexivity.
  - cbn [all_digits] in Hall. apply andb_prop in Hall.
    destruct Hall as [Ha Hg]. cbn [String.append take_digits].
    rewrite Ha, (IH Hg). reflexivity.
Qed.

Lemma re_search_bytes_cons c s :
  re_search_bytes (String c s)
  = let '(d, r) := take_digits (String c s) in
    match d, starts_with " bytes," r with
    | String _ _, Some _ => Some d
    | _, _ => re_search_bytes s
    end.
Proof. reflexivity. Qed.

(** What [re_search_bytes] finds is a run of digits of the text,
    followed there by [" bytes,"]. *)
Lemma re_search_bytes_sound s : forall g,
  re_search_bytes s = Some g ->
  all_digits g = true /\ g <> ""
  /\ exists pre post, s = pre ++ g ++ " bytes," ++ post.
Proof.
  induction s as [|c s IH]; intros g H; [discriminate|].
  rewrite re_search_bytes_cons in H.
  assert (Hrest : re_search_bytes s = Some g ->
                  all_digits g = true /\ g <> ""
                  /\ exists pre post,
                       String c s = pre ++ g ++ " bytes," ++ post).
  { intros Hs. destruct (IH g Hs) as (Ha & Hn & pre & post & ->).
    split; [assumption|]. split; [assumption|].
    exists (String c pre), post. reflexivity. }
  pose proof (take_digits_all (String c s)) as Hall.
  pose proof (take_digits_spec (String c s)) as Hsplit.
  destruct (take_digits (String c s)) as [d r]. cbn [fst] in Hall.
  specialize (Hsplit d r eq_refl).
  destruct d as [|a d]; [exact (Hrest H)|].
  destruct (starts_with " bytes," r) as [post|] eqn:Hsw; [|exact (Hrest H)].
  injection H as <-. apply starts_with_spec in Hsw.
  split; [assumption|]. split; [discriminate|].
  exists "", post. rewrite Hsplit, Hsw. reflexivity.
Qed.

Lemma digit_val_nonneg c : is_digit c = true -> 0 <= digit_val c <= 9.
Proof. intros H. apply is_digit_range in H. unfold digit_val. lia. Qed.

Lemma int_digits_nonneg d : forall acc prev n,
  int_digits d acc prev = Some n -> 0 <= acc -> 0 <= n.
Proof.
  induction d as [|c d IH]; intros acc prev n H Hacc.
  - cbn in H. destruct prev; [|discriminate]. injection H as <-. exact Hacc.
  - cbn [int_digits] in H. destruct (is_digit c) eqn:Hc.
    + apply IH in H; [exact H|]. pose proof (digit_val_nonneg c Hc). lia.
    + destruct (Ascii.eqb c "_"); [|discriminate].
      destruct prev; [|discriminate]. apply IH in H; assumption.
Qed.

(** [int] of a non-empty run of digits, when it gives a number, gives
    a natural number. *)
Lemma py_int_digits_nonneg d n :
  all_digits d = true -> d <> "" -> py_int d = Return n -> 0 <= n.
Proof.
  intros Hall Hne Hn.
  destruct (py_int_digits d Hall Hne) as (n0 & Hn0 & Heq).
  rewrite Heq in Hn. destruct (4300 <? String.length d)%nat; [discriminate|].
  injection Hn as <-. apply (int_digits_nonneg _ _ _ _ Hn0). lia.
Qed.

(** [int] takes a run of at most 4300 digits and refuses a longer
    one. *)
Lemma py_int_short d :
  all_digits d = true -> d <> "" -> (String.length d <= 4300)%nat ->
  exists n, py_int d = Return n.
Proof.
  intros Hall Hne Hlen.
  destruct (py_int_digits d Hall Hne) as (n0 & _ & Heq).
  destruct (Nat.ltb_spec 4300 (String.length d)); [lia|]. eauto.
Qed.

Lemma py_int_long d :
  all_digits d = true -> d <> "" -> (4300 < String.length d)%nat ->
  py_int d = Raise ValueError.
Proof.
  intros Hall Hne Hlen.
  destruct (py_int_digits d Hall Hne) as (n0 & _ & Heq).
  destruct (Nat.ltb_spec 4300 (String.length d)); [assumption|lia].
Qed.

Lemma fdisk_probe_sound (pe : probe_env) (sdcard_path : string) (n : Z) :
  fdisk_probe pe sdcard_path = Return n ->
  exists out line rest pre g post,
    subprocess_run pe ["/sbin/fdisk"; "-l"; sdcard_path] = Return out
    /\ splitlines out = line :: rest
    /\ line = pre ++ g ++ " bytes," ++ post
    /\ all_digits g = true /\ g <> ""
    /\ py_int g = Return n /\ 0 <= n.
Proof.
  unfold fdisk_probe, obind.
  destruct (subprocess_run pe ["/sbin/fdisk"; "-l"; sdcard_path])
    as [out|ex]; [|discriminate].
  destruct (splitlines out) as [|line rest] eqn:Hlines; [discriminate|].
  destruct (re_search_bytes line) as [g|] eqn:Hg; [|discriminate].
  intros Hn.
  destruct (re_search_bytes_sound line g Hg) as (Hall & Hne & pre & post & ->).
  pose proof (py_int_digits_nonneg g n Hall Hne Hn) as Hpos.
  exists out, (pre ++ g ++ " bytes," ++ post), rest, pre, g, post.
  auto 10.
Qed.

Lemma diskutil_scan_nonneg lines n :
  diskutil_scan lines = Return (Some n) -> 0 <= n.
Proof.
  induction lines as [|line rest IH]; [discriminate|].
  cbn [diskutil_scan].
  destruct (re_match_integer line) as [g|] eqn:Hg; [|exact IH].
  destruct (re_match_integer_digits line g Hg) as [Hall Hne].
  destruct (py_int g) as [m|ex] eqn:Hm; [|discriminate].
  cbn. intros [= <-]. exact (py_int_digits_nonneg g m Hall Hne Hm).
Qed.

Lemma re_match_integer_complete g post :
  all_digits g = true -> g <> "" ->
  re_match_integer ((TAB ++ TAB ++ TAB ++ "<integer>")
                      ++ g ++ "</integer>" ++ post)
  = Some g.
Proof.
  intros Hall Hne. unfold re_match_integer. rewrite starts_with_app.
  change ("</integer>" ++ post) with (String "<" ("/integer>" ++ post)).
  rewrite take_digits_app by (assumption || reflexivity).
  destruct g as [|c g]; [congruence|].
  change (String "<" ("/integer>" ++ post)) with ("</integer>" ++ post).
  rewrite starts_with_app. reflexivity.
Qed.

Lemma diskutil_scan_first before line after g :
  Forall (fun l => re_match_integer l = None) before ->
  re_match_integer line = Some g ->
  diskutil_scan (before ++ line :: after)%list
  = obind (py_int g) (fun n => Return (Some n)).
Proof.
  intros Hnone Hline. induction Hnone as [|l before Hl _ IH].
  - cbn [app diskutil_scan]. rewrite Hline. reflexivity.
  - cbn [app diskutil_scan]. rewrite Hl. exact IH.
Qed.

(** X15.  When [get_sdcard_bytes] answers from [fdisk] (it logged no
    error), its result is the number written in digits just before
    [" bytes,"] on the first line of the output of
    [/sbin/fdisk -l <path>]. *)
Theorem X15_fdisk_size_is_read_off_first_line (pe : probe_env)
        (sdcard_path : string) (n : Z) :
  get_sdcard_bytes pe sdcard_path = (Return n, []) ->
  exists out line rest pre g post,
    subprocess_run pe ["/sbin/fdisk"; "-l"; sdcard_path] = Return out
    /\ splitlines out = line :: rest
    /\ line = pre ++ g ++ " bytes," ++ post
    /\ all_digits g = true /\ g <> ""
    /\ py_int g = Return n.
Proof.
  unfold get_sdcard_bytes.
  destruct (fdisk_probe pe sdcard_path) as [m|exp] eqn:Hprobe.
  - intros [= <-].
    destruct (fdisk_probe_sound pe sdcard_path m Hprobe)
      as (out & line & rest & pre & g & post & H1 & H2 & H3 & H4 & H5 & H6
          & _).
    exists out, line, rest, pre, g, post. auto 10.
  - destruct (String.eqb (sys_platform pe) "darwin").
    + destruct (subprocess_run pe _) as [out|ex]; [|discriminate].
      destruct (diskutil_scan (splitlines out)) as [[m|]|ex]; discriminate.
    + discriminate.
Qed.

(** X16.  [get_sdcard_bytes] never answers with a negative size and
    logs at most one error, and it logs one exactly when the [fdisk]
    strategy failed.  It raises only on macOS, after [fdisk] failed:
    either what starting [diskutil] raised, or, when [diskutil] ran,
    the [ValueError] of [int] for a first matching line of more than
    4300 digits. *)
Theorem X16_sdcard_bytes_outcomes (pe : probe_env) (sdcard_path : string) :
  let r := get_sdcard_bytes pe sdcard_path in
  (forall n, fst r = Return n -> 0 <= n)
  /\ (List.length (snd r) <= 1)%nat
  /\ (snd r = [] <-> returns (fdisk_probe pe sdcard_path))
  /\ (forall ex,
         fst r = Raise ex ->
         sys_platform pe = "darwin"
         /\ raises (fdisk_probe pe sdcard_path)
         /\ (subprocess_run pe ["diskutil"; "list"; "-plist"; sdcard_path]
             = Raise ex
             \/ exists out before line after g,
                  subprocess_run pe
                    ["diskutil"; "list"; "-plist"; sdcard_path]
                  = Return out
                  /\ ex = ValueError
                  /\ splitlines out = (before ++ line :: after)%list
                  /\ Forall (fun l => re_match_integer l = None) before
                  /\ re_match_integer line = Some g
                  /\ (4300 < String.length g)%nat)).
Proof.
  cbv zeta. unfold get_sdcard_bytes, returns, raises.
  destruct (fdisk_probe pe sdcard_path) as [m|exp] eqn:Hprobe.
  - cbn [fst snd List.length]. split; [|split; [lia|split]].
    + intros n [= <-].
      destruct (fdisk_probe_sound pe sdcard_path m Hprobe)
        as (out & line & rest & pre & g & post & H); tauto.
    + split; [eauto|reflexivity].
    + intros ex [=].
  - destruct (String.eqb_spec (sys_platform pe) "darwin") as [Hd|Hd].
    + destruct (subprocess_run pe ["diskutil"; "list"; "-plist"; sdcard_path])
        as [out|ex0] eqn:Hrun.
      * pose proof (diskutil_scan_nonneg (splitlines out)) as Hpos.
        pose proof (diskutil_scan_raises (splitlines out)) as Hraise.
        destruct (diskutil_scan (splitlines out)) as [[m|]|ex1];
          cbn [fst snd List.length].
        -- split; [intros n [= <-]; apply Hpos; reflexivity|].
           split; [lia|]. split; [|intros ex [=]].
           split; [discriminate|intros [x [=]]].
        -- split; [intros n [= <-]; lia|].
           split; [lia|]. split; [|intros ex [=]].
           split; [discriminate|intros [x [=]]].
        -- split; [intros n [=]|]. split; [lia|]. split.
           ++ split; [discriminate|intros [x [=]]].
           ++ intros ex [= <-].
              destruct (Hraise ex1 eq_refl)
                as (-> & before & line & after & g & H1 & H2 & H3 & H4).
              split; [assumption|]. split; [eauto|]. right.
              exists out, before, line, after, g. auto 10.
      * cbn [fst snd List.length]. split; [intros n [=]|].
        split; [lia|]. split.
        -- split; [discriminate|intros [x [=]]].
        -- intros ex [= <-]. eauto.
    + cbn [fst snd List.length]. split; [intros n [= <-]; lia|].
      split; [lia|]. split; [|intros ex [=]].
      split; [discriminate|intros [x [=]]].
Qed.

(** X17.  On macOS, once [fdisk] has failed, the size is taken from the
    first line of the [diskutil] property list that starts with three
    tabs and an [<integer>] element holding digits; later such lines
    are not looked at.  With at most 4300 digits the result is their
    number; with more, [int] refuses them and the [ValueError] leaves
    the function. *)
Theorem X17_diskutil_first_integer_line (pe : probe_env)
        (sdcard_path out : string) (exp : exn)
        (before after : list string) (g post : string) :
  sys_platform pe = "darwin" ->
  fdisk_probe pe sdcard_path = Raise exp ->
  subprocess_run pe ["diskutil"; "list"; "-plist"; sdcard_path]
  = Return out ->
  splitlines out
  = (before
       ++ ((TAB ++ TAB ++ TAB ++ "<integer>")
             ++ g ++ "</integer>" ++ post)%string
       :: after)%list ->
  Forall (fun l => re_match_integer l = None) before ->
  all_digits g = true ->
  g <> "" ->
  if (4300 <? String.length g)%nat
  then get_sdcard_bytes pe sdcard_path = (Raise ValueError, [exp])
  else exists n,
         py_int g = Return n
         /\ get_sdcard_bytes pe sdcard_path = (Return n, [exp]).
Proof.
  intros Hd Hprobe Hrun Hlines Hnone Hall Hne.
  assert (Hscan : diskutil_scan (splitlines out)
                  = obind (py_int g) (fun n => Return (Some n))).
  { rewrite Hlines.
    apply diskutil_scan_first;
      [assumption|apply re_match_integer_complete; assumption]. }
  unfold get_sdcard_bytes. rewrite Hprobe, Hd, Hrun, Hscan.
  cbn [String.eqb Ascii.eqb Bool.eqb].
  destruct (Nat.ltb_spec 4300 (String.length g)) as [Hlong|Hshort].
  - rewrite (py_int_long g Hall Hne Hlong). reflexivity.
  - destruct (py_int_short g Hall Hne Hshort) as [n Hn].
    exists n. rewrite Hn. auto.
Qed.

(** ** The hook below zero *)

Lemma binary_round_sign s m e :
  binary_round PyFloat.prec PyFloat.emax s m e
  = match binary_round PyFloat.prec PyFloat.emax false m e with
    | S754_zero _ => S754_zero s
    | S754_infinity _ => S754_infinity s
    | S754_finite _ q e' => S754_finite s q e'
    | S754_nan => S754_nan
    end.
Proof.
  unfold binary_round.
  destruct (shl_align m e _) as [mz ez].
  rewrite !Binary64.binary_round_aux_eq by lia.
  destruct (round_parts (Z.pos mz) ez loc_Exact) as [m2 e1].
  destruct (m2 =? 2 ^ 53).
  - destruct (e1 + 1 <=? 971); reflexivity.
  - destruct m2 as [|q|q]; [reflexivity| |reflexivity].
    destruct (e1 <=? 971); reflexivity.
Qed.

(** [float(n)] for a negative [n] fails exactly when [float(-n)] does. *)
Lemma of_int_neg p :
  match PyFloat.of_int (Z.pos p) with
  | Return _ => returns (PyFloat.of_int (Z.neg p))
  | Raise _ => PyFloat.of_int (Z.neg p) = Raise OverflowError
  end.
Proof.
  unfold PyFloat.of_int, returns. cbn [binary_normalize].
  rewrite (binary_round_sign true).
  destruct (binary_round PyFloat.prec PyFloat.emax false p 0);
    first [reflexivity | eexists; reflexivity].
Qed.

Lemma partial_line_zero_total c a :
  c < 0 ->
  partial_line c a 0
  = if c <=? - int_limit then Raise OverflowError
    else Raise ZeroDivisionError.
Proof.
  intros Hc. destruct c as [|p|p]; try lia. unfold partial_line.
  pose proof (of_int_neg p) as Hneg.
  destruct (Z.leb_spec (Z.neg p) (- int_limit)) as [Hbig|Hsmall].
  - rewrite (Binary64.of_int_large (Z.pos p)) in Hneg by lia.
    rewrite Hneg. reflexivity.
  - destruct (Binary64.of_int_small (Z.pos p)) as (q & e & Hq & _); [lia|].
    rewrite Hq in Hneg. destruct Hneg as [f ->]. reflexivity.
Qed.

(** X18.  With [total_size = 0], the value [stream] passes when the
    server declares no size, a hook whose counter has gone below zero
    (negative chunk sizes) fails instead of drawing the bar: the call
    raises [ZeroDivisionError] (or [OverflowError], from
    [-(2^1024 - 2^970)] downwards) and prints nothing, while a counter
    at or above zero always gives the completed bar. *)
Theorem X18_zero_total_below_zero (st : hook_state) (chunk : chunk_arg)
        (chunk_size : Z) :
  let r := reporthook chunk chunk_size 0 st in
  let cumulative := _current_size (hook (snd r)) in
  (0 <= cumulative ->
   fst r = Return tt
   /\ _last_line (hook (snd r)) = Some (full_bar (width (hook st))))
  /\ (- int_limit < cumulative < 0 ->
      fst r = Raise ZeroDivisionError /\ stdout (snd r) = stdout st)
  /\ (cumulative <= - int_limit ->
      fst r = Raise OverflowError /\ stdout (snd r) = stdout st).
Proof.
  cbv zeta.
  pose proof (reporthook_counter chunk chunk_size 0 st) as Hc.
  set (c := _current_size (hook (snd (reporthook chunk chunk_size 0 st))))
    in *.
  assert (Hadd : _current_size (add_chunk (hook st) chunk chunk_size) = c).
  { rewrite Hc. unfold add_chunk. destruct (chunk_ne_0 chunk); reflexivity. }
  assert (Hwd : width (add_chunk (hook st) chunk chunk_size)
                = width (hook st)).
  { unfold add_chunk. destruct (chunk_ne_0 chunk); reflexivity. }
  clearbody c. unfold reporthook. rewrite Hadd, Hwd. unfold compute_line.
  change (0 =? -1) with false. cbv iota.
  split; [|split].
  - intros Hpos. destruct (Z.geb_spec c 0) as [_|]; [|lia].
    change ("[" ++ str_mul "." (width (hook st) - 2) ++ "] 100%" ++ LF)
      with (full_bar (width (hook st))).
    destruct (line_ne _ _) eqn:Hne; cbn [fst snd hook _last_line];
      [split; reflexivity|].
    split; [reflexivity|].
    apply line_ne_false in Hne. rewrite <- Hne.
    unfold add_chunk. destruct (chunk_ne_0 chunk); reflexivity.
  - intros [Hlo Hneg]. destruct (Z.geb_spec c 0) as [|_]; [lia|].
    rewrite partial_line_zero_total by assumption.
    destruct (Z.leb_spec c (- int_limit)); [lia|]. split; reflexivity.
  - intros Hlo.
    assert (0 < int_limit).
    { unfold int_limit. change 1024 with (54 + 970).
      rewrite Z.pow_add_r by lia.
      assert (0 < 2 ^ 970) by (apply Z.pow_pos_nonneg; lia).
      assert (1 < 2 ^ 54) by (apply Z.pow_gt_1; lia). nia. }
    destruct (Z.geb_spec c 0) as [|_]; [lia|].
    rewrite partial_line_zero_total by lia.
    destruct (Z.leb_spec c (- int_limit)); [|lia]. split; reflexivity.
Qed.

(** ** A connection that drops *)

Lemma stream_interrupted {S : Type} (e : env) (cb : @callback_t S)
      (block_size t : Z) (p : string) (I : S -> Prop) url
      (st : io_state S) req chunks ex :
  p <> "" ->
  (forall data s,
      I s ->
      fst (cb (ChunkBytes data) block_size t s) = Return tt
      /\ I (snd (cb (ChunkBytes data) block_size t s))) ->
  (forall f data, write_error e f data = None) ->
  session_get e stream_session url = Return req ->
  raise_for_status req = Return tt ->
  declared_size req = Return t ->
  iter_content req block_size = (chunks, Some ex) ->
  open_error e p = None ->
  I (cb_state st) ->
  exists s',
    stream e url (Some p) (Some cb) block_size st
    = (Raise ex,
       mkIO s' (files st ++ [mkFile p false (List.concat chunks)])%list).
Proof.
  intros Hp Hcb Hw Hget Hst Hdecl Hbody Hopen HI.
  unfold stream, stream_transfer, bind, lift.
  rewrite Hget, Hst. unfold declared_size in Hdecl. rewrite Hdecl.
  unfold open_wb. destruct (String.eqb_spec p ""); [contradiction|].
  rewrite Hopen, Hbody. cbn [fst snd].
  destruct (stream_loop_succeeds e cb block_size t p Hp I Hcb Hw chunks
              (files st) [] 0
              (mkIO (cb_state st) (files st ++ [mkFile p false []])%list)
              eq_refl HI) as (s' & Hloop & _).
  rewrite Hloop. exists s'. reflexivity.
Qed.

(** X19.  When the connection drops in the middle of the body, on a
    standard output that takes every text, [download_file] reports
    [(False, exp)] with the error of the transport and prints it last;
    the file then holds every chunk that had arrived, in order, and its
    handle has not been closed. *)
Theorem X19_download_interrupted (e : env) (url fpath : string) (w : world)
        (req : Response) (t : Z) (chunks : list (list byte)) (ex : exn) :
  fpath <> "" ->
  (forall f data, write_error e f data = None) ->
  (forall out text, print_error e out text = None) ->
  session_get e stream_session url = Return req ->
  raise_for_status req = Return tt ->
  declared_size req = Return t ->
  t < int_limit ->
  iter_content req default_block_size = (chunks, Some ex) ->
  open_error e fpath = None ->
  exists out,
    download_file e url fpath w
    = (Return (false, Error ex),
       mkWorld (out ++ [str_of_exn e ex])%list
               (w_files w ++ [mkFile fpath false (List.concat chunks)])%list).
Proof.
  intros Hp Hw Hpr Hget Hst Hdecl Hlim Hbody Hopen.
  unfold download_file. rewrite fresh_hook_io_eq, Hpr. cbv zeta.
  destruct (stream_interrupted e (reporthook_io (print_error e))
              default_block_size t fpath
              (fun s => width (hook s) = 60 /\ 0 <= _current_size (hook s))
              url (mkIO (fresh_hook (w_stdout w)) (w_files w)) req chunks ex)
    as [s' Hs]; try assumption.
  - intros data s HI.
    apply reporthook_io_returns; try assumption.
    unfold default_block_size. lia.
  - unfold fresh_hook. rewrite fresh_hook_eq. split; [reflexivity|].
    cbn. lia.
  - rewrite Hs, Hpr. exists (stdout s'). reflexivity.
Qed.

(** ** The properties at concrete inputs *)

Lemma X1_witness :
  exists chunks,
    List.concat chunks = abc
    /\ Forall (fun b => b <> [] /\ len b <= 8 * ONE_MiB) chunks
    /\ forall fuel,
         (List.length abc < fuel)%nat ->
         get_checksum fuel (one_file "disk.img" abc) "disk.img" keep_all []
         = Some (Return (h_name keep_all,
                         h_hexdigest keep_all
                           (fold_left (h_update keep_all) chunks
                                      (h_new keep_all))),
                 ([] ++ [mkReader "disk.img" (Finite []) true])%list).
Proof.
  apply (X1_checksum_reads_whole_file (one_file "disk.img" abc) "disk.img"
           keep_all [] abc); [reflexivity|intros r; reflexivity].
Defined.

Lemma X2_witness :
  get_checksum 4%nat (one_file "disk.img" abc) "disk.img" keep_all []
  = Some (Return ("keep", "3"), [mkReader "disk.img" (Finite []) true]).
Proof.
  apply (X2_checksum_is_one_shot (one_file "disk.img" abc) "disk.img"
           keep_all [] abc 4%nat).
  - intros h. apply app_nil_r.
  - intros h a b. symmetry. apply app_assoc.
  - reflexivity.
  - intros r. reflexivity.
  - cbn. lia.
Defined.

Lemma X3_witness :
  (exists r, get_checksum 4%nat (one_file "disk.img" abc) "disk.img" keep_all []
             = Some r)
  /\ get_checksum 4%nat (one_file "disk.img" abc) "other.img" keep_all []
     = Some (Raise FileNotFoundError, [])
  /\ forall fuel, get_checksum fuel dev_zero "/dev/zero" keep_all [] = None.
Proof.
  split; [|split].
  - apply (proj1 (proj2 (proj2 (X3_checksum_closes_file
                                   (one_file "disk.img" abc) "disk.img"
                                   keep_all []))) abc 4%nat);
      [reflexivity|cbn; lia].
  - apply (proj1 (proj2 (X3_checksum_closes_file
                           (one_file "disk.img" abc) "other.img"
                           keep_all []))).
    reflexivity.
  - intros fuel.
    apply (proj2 (proj2 (proj2 (X3_checksum_closes_file
                                  dev_zero "/dev/zero" keep_all [])))
             (fun _ => x00) fuel);
      [reflexivity|intros r; reflexivity].
Defined.

Lemma X4_witness :
  exists req,
    session_get (serving (three_bytes "3")) stream_session "http://host/image"
    = Return req
    /\ files (mkIO tt [mkFile "out.img" true abc])
       = (files (mkIO tt [])
            ++ [mkFile "out.img" true
                  (List.concat (fst (iter_content req default_block_size)))])%list
    /\ 3 = len (List.concat (fst (iter_content req default_block_size)))
    /\ DestPath "out.img" = DestPath "out.img".
Proof.
  apply (X4_stream_file_holds_body (serving (three_bytes "3"))
           "http://host/image" "out.img" (Some quiet) default_block_size
           (mkIO tt []) (mkIO tt [mkFile "out.img" true abc]) 3
           (DestPath "out.img")).
  reflexivity.
Defined.

Lemma X5_witness :
  exists req,
    session_get (serving (three_bytes "5")) stream_session "http://host/image"
    = Return req
    /\ stream (serving (three_bytes "5")) "http://host/image"
              (Some "out.img") (Some quiet) default_block_size (mkIO tt [])
       = (Raise (AssertionError (size_mismatch_msg 3 5)),
          mkIO tt [mkFile "out.img" true abc])
    /\ files (mkIO tt [mkFile "out.img" true abc])
       = (files (mkIO tt [])
            ++ [mkFile "out.img" true
                  (List.concat (fst (iter_content req default_block_size)))])%list.
Proof.
  apply (X5_mismatch_keeps_file (serving (three_bytes "5"))
           "http://host/image" "out.img" (Some quiet) default_block_size
           (mkIO tt []) (mkIO tt [mkFile "out.img" true abc]) 5 3 (FdFile 0));
    [reflexivity|lia|lia].
Defined.

Lemma X7_witness :
  stream (serving not_found) "http://host/image" (Some "out.img")
         (Some quiet) default_block_size (mkIO tt [])
  = (Raise (HTTPError 404), mkIO tt []).
Proof.
  pose proof (X7_early_errors_touch_nothing (serving not_found)
                "http://host/image" (Some "out.img") (Some quiet)
                default_block_size (mkIO tt [])) as H.
  hnf in H. destruct H as [H _]. apply H. cbn. lia.
Defined.

Lemma X8_witness :
  fst (stream (serving (three_bytes "3")) "http://host/image"
              (Some "out.img") None default_block_size (mkIO tt []))
  = Raise TypeError.
Proof.
  apply (X8_default_callback_fails (serving (three_bytes "3"))
           "http://host/image" (Some "out.img") default_block_size
           (mkIO tt []) (three_bytes "3") 3 abc []);
    try reflexivity.
  intros p [= <-]. split; [discriminate|reflexivity].
Defined.

Lemma X9_witness :
  exists req t,
    session_get (serving (three_bytes "3")) stream_session "http://host/image"
    = Return req
    /\ declared_size req = Return t
    /\ cb_state (mkIO [(ChunkBytes abc, default_block_size, 3)] [])
       = (cb_state (mkIO [] [])
            ++ map (fun data => (ChunkBytes data, default_block_size, t))
                   (fst (iter_content req default_block_size)))%list.
Proof.
  apply (X9_callback_once_per_chunk (serving (three_bytes "3"))
           "http://host/image" None default_block_size (mkIO [] []) 3
           (DestFd (FdBytesIO (mkBytesIO [] 0)))
           (mkIO [(ChunkBytes abc, default_block_size, 3)] [])).
  reflexivity.
Defined.

Lemma X10_witness :
  exists req,
    session_get (serving (three_bytes "3")) stream_session "http://host/image"
    = Return req
    /\ 3 = total_len (fst (iter_content req default_block_size))
    /\ _current_size
         (hook (cb_state
                  (mkIO (mkHookState (mkReportHook 1024 60 (Some (full_bar 60)))
                                     [empty_bar; full_bar 60])
                        [mkFile "out.img" true abc])))
       = _current_size (hook (cb_state (mkIO (fresh_hook []) [])))
         + default_block_size
           * Z.of_nat
               (List.length (fst (iter_content req default_block_size))).
Proof.
  apply (X10_hook_counts_blocks (serving (three_bytes "3"))
           "http://host/image" (Some "out.img") default_block_size
           (mkIO (fresh_hook []) [])
           3 (DestPath "out.img")
           (mkIO (mkHookState (mkReportHook 1024 60 (Some (full_bar 60)))
                              [empty_bar; full_bar 60])
                 [mkFile "out.img" true abc])).
  vm_compute. reflexivity.
Defined.

Lemma X11_witness :
  exists lines,
    w_stdout (mkWorld [empty_bar; full_bar 60] [mkFile "out.img" true abc])
    = (w_stdout (mkWorld [] []) ++ empty_bar :: lines)%list
    /\ count_line (full_bar 60) lines = 1%nat.
Proof.
  apply (X11_download_shows_full_bar_once (serving (three_bytes "3"))
           "http://host/image" "out.img" (mkWorld [] [])
           (mkWorld [empty_bar; full_bar 60] [mkFile "out.img" true abc])
           3 (three_bytes "3")).
  - vm_compute. reflexivity.
  - reflexivity.
  - discriminate.
  - constructor; [|constructor]. vm_compute. discriminate.
Defined.

Lemma X13_witness :
  exists s',
    stream (serving (three_bytes "3")) "http://host/image" (Some "out.img")
           (Some quiet) default_block_size (mkIO tt [])
    = (Return (total_len [abc], DestPath "out.img"),
       mkIO s' (files (mkIO tt [])
                  ++ [mkFile "out.img" true (List.concat [abc])])%list).
Proof.
  apply (X13_stream_succeeds (serving (three_bytes "3")) quiet
           "http://host/image" "out.img" default_block_size 3 (mkIO tt [])
           (three_bytes "3") [abc]);
    try reflexivity.
  - discriminate.
  - right. reflexivity.
Defined.

Lemma C3_witness :
  fst (download_file (serving (three_bytes "3")) "http://host/image"
                     "out.img" (mkWorld [] []))
  = Return (true, Size 3).
Proof.
  exact (proj1 (C3_download_file_total (serving (three_bytes "3"))
                  "http://host/image" "out.img" (mkWorld [] []))
           (fun out text => eq_refl)).
Defined.

Lemma X14_witness :
  exists out,
    download_file (serving (three_bytes "3")) "http://host/image" "out.img"
                  (mkWorld [] [])
    = (Return (true, Size (total_len [abc])),
       mkWorld out
               (w_files (mkWorld [] [])
                  ++ [mkFile "out.img" true (List.concat [abc])])%list).
Proof.
  apply (X14_download_succeeds (serving (three_bytes "3"))
           "http://host/image" "out.img" (mkWorld [] []) (three_bytes "3")
           3 [abc]);
    try reflexivity.
  - discriminate.
  - right. reflexivity.
Defined.

Lemma X15_witness :
  exists out line rest pre g post,
    subprocess_run linux_with_fdisk ["/sbin/fdisk"; "-l"; "/dev/sdb"]
    = Return out
    /\ splitlines out = line :: rest
    /\ line = pre ++ g ++ " bytes," ++ post
    /\ all_digits g = true /\ g <> ""
    /\ py_int g = Return 31914983424.
Proof.
  apply (X15_fdisk_size_is_read_off_first_line linux_with_fdisk "/dev/sdb"
           31914983424).
  vm_compute. reflexivity.
Defined.

Lemma X17_witness :
  exists n,
    py_int "31914983424" = Return n
    /\ get_sdcard_bytes darwin_with_diskutil "/dev/disk2"
       = (Return n, [FileNotFoundError]).
Proof.
  apply (X17_diskutil_first_integer_line darwin_with_diskutil "/dev/disk2"
           diskutil_output FileNotFoundError ["<dict>"]
           [TAB ++ TAB ++ TAB ++ "<integer>512</integer>"]
           "31914983424" "").
  - reflexivity.
  - reflexivity.
  - reflexivity.
  - vm_compute. reflexivity.
  - constructor; [reflexivity|constructor].
  - reflexivity.
  - discriminate.
Defined.

Lemma X18_witness :
  fst (reporthook (ChunkBytes abc) (-5) 0 (fresh_hook []))
  = Raise ZeroDivisionError
  /\ stdout (snd (reporthook (ChunkBytes abc) (-5) 0 (fresh_hook [])))
     = stdout (fresh_hook []).
Proof.
  pose proof (X18_zero_total_below_zero (fresh_hook []) (ChunkBytes abc) (-5))
    as H.
  cbv zeta in H. destruct H as (_ & H & _). apply H.
  vm_compute. split; reflexivity.
Defined.

Lemma X19_witness :
  exists out,
    download_file (serving dropping) "http://host/image" "out.img"
                  (mkWorld [] [])
    = (Return (false, Error (RequestException "connection broken")),
       mkWorld (out ++ [str_of_exn (serving dropping)
                                    (RequestException "connection broken")])%list
               (w_files (mkWorld [] [])
                  ++ [mkFile "out.img" false (List.concat [abc])])%list).
Proof.
  apply (X19_download_interrupted (serving dropping) "http://host/image"
           "out.img" (mkWorld [] []) dropping 5 [abc]
           (RequestException "connection broken"));
    try reflexivity.
  discriminate.
Defined.
